(** * Histogram utilities of the CPU quantile-histogram tree method

    A shallow embedding of [src/common/hist_util.h]: the histogram cuts
    and their bin searches, the compressed bin index, the sparse-row
    binary search, the histogram collection and the parallel histogram
    builder, followed by the properties proved about them.

    Conventions.
    - [uint32_t], [int32_t] and [size_t] values are integers in [Z]; the
      wrap-around of every operation that can wrap is written out
      ([u32], [i32_of_u32]).
    - [float] values are IEEE 754 values of the standard library's
      [spec_float]; [float] is binary32, that is precision 24 and
      maximal exponent 128.
    - [std::vector<T>] is [list T]; [v.at(i)] is the partial lookup
      [v !! i], [v[i]] on a vector the code has sized is the total lookup
      [v !!! i], and [v.resize(n, x)] is [resize n x v].
    - A failed [CHECK] and an exception thrown by [at] are [None]. *)

From Stdlib Require Import ZArith Lia Bool.
From Stdlib Require Import Floats.SpecFloat.
From stdpp Require Import base numbers option list list_numbers gmap.

#[local] Open Scope Z_scope.

(** ** Machine integers *)

Definition u32_max : Z := 2 ^ 32 - 1.
Definition size_max : Z := 2 ^ 64 - 1.

(** Reduction of an integer to [uint32_t]. *)
Definition u32 (z : Z) : Z := z mod 2 ^ 32.

(** [static_cast<int32_t>] of a [uint32_t] value (two's complement). *)
Definition i32_of_u32 (z : Z) : Z :=
  if decide (z < 2 ^ 31) then z else z - 2 ^ 32.

(** Element [i] of a vector the code indexes with [operator[]]. *)
Definition at_ {A} (l : list A) (i : Z) : option A :=
  if decide (0 ≤ i) then l !! Z.to_nat i else None.

(** ** Floats *)

(** [bst_float] is [float]: binary32. *)
Definition prec32 : Z := 24.
Definition emax32 : Z := 128.

#[global] Instance spec_float_inhabited : Inhabited spec_float :=
  populate S754_nan.

(** [static_cast<float>] of an integer. *)
Definition float_of_Z (z : Z) : spec_float :=
  binary_normalize prec32 emax32 z 0 false.

(** The float [m * 2^e]. *)
Definition float_of_bits (m e : Z) : spec_float :=
  binary_normalize prec32 emax32 m e false.

(** [static_cast<int32_t>] of a float: truncation towards zero.  The
    conversion is undefined in C++ for NaN, the infinities and values
    outside [int32_t]; the model gives 0 for the first two and the
    unreduced integer for the last. *)
Definition trunc_float (v : spec_float) : Z :=
  match v with
  | S754_finite s m e =>
      let a := if decide (0 ≤ e) then Z.pos m * 2 ^ e
               else Z.pos m / 2 ^ (- e) in
      if s then - a else a
  | _ => 0
  end.

(** Modelled from the spec: [common::AsCat] of [categorical.h], which is
    not part of the sources at hand; the category of a feature value is
    the value truncated to an integer ("Truncates the value in case it's
    not perfectly rounded", "the (integer-valued) category"). *)
Definition AsCat (v : spec_float) : Z := trunc_float v.

(** ** Binary searches of the C++ standard library *)

(** [std::upper_bound(values + first, values + first + len, value)] as a
    position in [values]: the loop halves [len] until it is 0.  [fuel]
    bounds the number of iterations; [len] iterations are never needed. *)
Fixpoint upper_bound_loop (values : list spec_float) (value : spec_float)
    (fuel : nat) (first len : Z) : Z :=
  match fuel with
  | O => first
  | S fuel' =>
      if decide (0 < len) then
        let half := len / 2 in
        let middle := first + half in
        if SFltb value (values !!! Z.to_nat middle)
        then upper_bound_loop values value fuel' first half
        else upper_bound_loop values value fuel' (middle + 1) (len - half - 1)
      else first
  end.

Definition upper_bound (values : list spec_float) (first last : Z)
    (value : spec_float) : Z :=
  upper_bound_loop values value (Z.to_nat (last - first)) first (last - first).

(** [std::lower_bound], likewise. *)
Fixpoint lower_bound_loop (values : list spec_float) (value : spec_float)
    (fuel : nat) (first len : Z) : Z :=
  match fuel with
  | O => first
  | S fuel' =>
      if decide (0 < len) then
        let half := len / 2 in
        let middle := first + half in
        if SFltb (values !!! Z.to_nat middle) value
        then lower_bound_loop values value fuel' (middle + 1) (len - half - 1)
        else lower_bound_loop values value fuel' first half
      else first
  end.

Definition lower_bound (values : list spec_float) (first last : Z)
    (value : spec_float) : Z :=
  lower_bound_loop values value (Z.to_nat (last - first)) first (last - first).

(** ** Histogram cuts *)

Module HistogramCuts.

Record t := {
  cut_values_ : list spec_float;
  cut_ptrs_ : list Z;
  min_vals_ : list spec_float
}.

(** An [Entry] of a sparse row: feature index and feature value. *)
Record Entry := { index : Z; fvalue : spec_float }.

Definition FeatureBins (c : t) (feature : Z) : option Z :=
  e ← at_ (cut_ptrs_ c) (u32 (feature + 1));
  Some (u32 (e - cut_ptrs_ c !!! Z.to_nat feature)).

Definition TotalBins (c : t) : Z := default 0 (last (cut_ptrs_ c)).

(** The index of a cut point that is strictly greater than the input
    value, or the last available index if none exists. *)
Definition SearchBin (c : t) (value : spec_float) (column_id : Z) : option Z :=
  beg ← at_ (cut_ptrs_ c) column_id;
  end_ ← at_ (cut_ptrs_ c) (u32 (column_id + 1));
  let it := upper_bound (cut_values_ c) beg end_ value in
  let idx := u32 it in
  Some (if decide (idx = end_) then u32 (idx - 1) else idx).

Definition SearchBin_entry (c : t) (e : Entry) : option Z :=
  SearchBin c (fvalue e) (index e).

(** The bin index of a categorical feature value. *)
Definition SearchCatBin (c : t) (e : Entry) : option Z :=
  end_ ← at_ (cut_ptrs_ c) (u32 (index e + 1));
  let beg := cut_ptrs_ c !!! Z.to_nat (index e) in
  let v := float_of_Z (AsCat (fvalue e)) in
  let bin_idx := lower_bound (cut_values_ c) beg end_ v in
  Some (u32 (if decide (bin_idx = end_) then bin_idx - 1 else bin_idx)).

End HistogramCuts.

(** The slice of feature [f] is [cut_values_[beg, end_)]; it is sorted
    when consecutive boundaries are strictly ascending. *)
Fixpoint ascending (l : list spec_float) : bool :=
  match l with
  | x :: (y :: _) as l' => SFltb x y && ascending l'
  | _ => true
  end.

Definition slice {A} (l : list A) (first last : Z) : list A :=
  take (Z.to_nat (last - first)) (drop (Z.to_nat first) l).

(** Both loops have one shape: the position advances past [middle] when
    [adv middle] holds. *)
Fixpoint bisect_loop (adv : Z → bool) (fuel : nat) (first len : Z) : Z :=
  match fuel with
  | O => first
  | S fuel' =>
      if decide (0 < len) then
        let half := len / 2 in
        let middle := first + half in
        if adv middle
        then bisect_loop adv fuel' (middle + 1) (len - half - 1)
        else bisect_loop adv fuel' first half
      else first
  end.

(** The feature of the bin search examples: numeric boundaries 2, 5, 9. *)
Definition cuts_2_5_9 : HistogramCuts.t :=
  {| HistogramCuts.cut_values_ := [float_of_Z 2; float_of_Z 5; float_of_Z 9];
     HistogramCuts.cut_ptrs_ := [0; 3];
     HistogramCuts.min_vals_ := [float_of_Z 1] |}.

(** The categorical feature of the examples: categories 1, 3, 7. *)
Definition cuts_1_3_7 : HistogramCuts.t :=
  {| HistogramCuts.cut_values_ := [float_of_Z 1; float_of_Z 3; float_of_Z 7];
     HistogramCuts.cut_ptrs_ := [0; 3];
     HistogramCuts.min_vals_ := [float_of_Z 1] |}.

(** ** Compressed bin index *)

Module Index.

(** [BinTypeSize]: the number of bytes of a stored bin index. *)
Definition kUint8BinsTypeSize : Z := 1.
Definition kUint16BinsTypeSize : Z := 2.
Definition kUint32BinsTypeSize : Z := 4.

(** Element [i] of the byte buffer [t] read as an array of unsigned
    integers of [size] bytes each (little-endian).  A read that is not
    inside the buffer is undefined in C++ and [None] here. *)
Definition get_uint (size : Z) (t : list Z) (i : Z) : option Z :=
  let bytes := take (Z.to_nat size) (drop (Z.to_nat (i * size)) t) in
  if decide (0 ≤ i ∧ Z.of_nat (length bytes) = size)
  then Some (little_endian_to_Z 8 bytes) else None.

Definition GetValueFromUint8 : list Z → Z → option Z := get_uint 1.
Definition GetValueFromUint16 : list Z → Z → option Z := get_uint 2.
Definition GetValueFromUint32 : list Z → Z → option Z := get_uint 4.

(** [data_ptr_] always points to the storage of [data_] once [Resize] has
    run, so a read through it is a read of [data_].  [offset_ptr_] is
    kept as the flag "not null". *)
Record t := {
  data_ : list Z;
  offset_ : list Z;
  binTypeSize_ : Z;
  p_ : Z;
  offset_ptr_ : bool;
  func_ : list Z → Z → option Z
}.

(** The constructor [Index()]. *)
Definition new : t :=
  {| data_ := []; offset_ := []; binTypeSize_ := kUint8BinsTypeSize;
     p_ := 1; offset_ptr_ := false; func_ := GetValueFromUint8 |}.

Definition set_func (x : t) (binTypeSize : Z) (f : list Z → Z → option Z) : t :=
  {| data_ := data_ x; offset_ := offset_ x; binTypeSize_ := binTypeSize;
     p_ := p_ x; offset_ptr_ := offset_ptr_ x; func_ := f |}.

Definition SetBinTypeSize (x : t) (binTypeSize : Z) : option t :=
  if decide (binTypeSize = kUint8BinsTypeSize)
  then Some (set_func x binTypeSize GetValueFromUint8)
  else if decide (binTypeSize = kUint16BinsTypeSize)
  then Some (set_func x binTypeSize GetValueFromUint16)
  else if decide (binTypeSize = kUint32BinsTypeSize)
  then Some (set_func x binTypeSize GetValueFromUint32)
  else None.

Definition GetBinTypeSize (x : t) : Z := binTypeSize_ x.

(** [operator[]]: the decoded element, plus the offset of its feature
    when the offset table is present; the sum is a [uint32_t] sum. *)
Definition get (x : t) (i : Z) : option Z :=
  if offset_ptr_ x then
    v ← func_ x (data_ x) i;
    if decide (p_ x = 0) then None
    else o ← at_ (offset_ x) (i mod p_ x); Some (u32 (v + o))
  else func_ x (data_ x) i.

Definition OffsetSize (x : t) : Z := Z.of_nat (length (offset_ x)).

Definition Size (x : t) : Z := Z.of_nat (length (data_ x)) / binTypeSize_ x.

Definition Resize (x : t) (nBytesData : Z) : t :=
  {| data_ := resize (Z.to_nat nBytesData) 0 (data_ x);
     offset_ := offset_ x; binTypeSize_ := binTypeSize_ x; p_ := p_ x;
     offset_ptr_ := offset_ptr_ x; func_ := func_ x |}.

(** [offset_.data()] is null only as long as the table has no storage.
    [resize] never gives storage back, so the pointer is set when the
    table has entries now, had entries before the call, or had storage
    at an earlier call (the pointer was set already): a table shrunk to
    no entries keeps its pointer, with [p_ = 0]. *)
Definition ResizeOffset (x : t) (nDisps : Z) : t :=
  {| data_ := data_ x;
     offset_ := resize (Z.to_nat nDisps) 0 (offset_ x);
     binTypeSize_ := binTypeSize_ x; p_ := nDisps;
     offset_ptr_ := offset_ptr_ x || bool_decide (offset_ x ≠ [])
                    || bool_decide (0 < nDisps);
     func_ := func_ x |}.

(** Modelled from the spec: the write of one bin index through the typed
    pointer [data<T>()], which the builder of the index matrix (not part
    of the sources at hand) performs: element [i] of the buffer, seen as
    an array of [binTypeSize_]-byte integers, becomes [v]. *)
Definition set_uint (size : Z) (t : list Z) (i v : Z) : option (list Z) :=
  if decide (0 ≤ i ∧ (i + 1) * size ≤ Z.of_nat (length t))
  then Some (list_inserts (Z.to_nat (i * size)) (Z_to_little_endian size 8 v) t)
  else None.

Definition write (x : t) (i v : Z) : option t :=
  d ← set_uint (binTypeSize_ x) (data_ x) i v;
  Some {| data_ := d; offset_ := offset_ x; binTypeSize_ := binTypeSize_ x;
          p_ := p_ x; offset_ptr_ := offset_ptr_ x; func_ := func_ x |}.

(** Modelled from the spec: the write of one entry of the offset table
    through [Offset()]. *)
Definition write_offset (x : t) (j o : Z) : option t :=
  if decide (0 ≤ j < OffsetSize x)
  then Some {| data_ := data_ x; offset_ := <[Z.to_nat j := o]> (offset_ x);
               binTypeSize_ := binTypeSize_ x; p_ := p_ x;
               offset_ptr_ := offset_ptr_ x; func_ := func_ x |}
  else None.

(** The calls that size or configure an index, and their outcome. *)
Inductive call :=
  | CallSetBinTypeSize (binTypeSize : Z)
  | CallResize (nBytesData : Z)
  | CallResizeOffset (nDisps : Z).

Definition step (x : t) (c : call) : option t :=
  match c with
  | CallSetBinTypeSize b => SetBinTypeSize x b
  | CallResize n => Some (Resize x n)
  | CallResizeOffset n => Some (ResizeOffset x n)
  end.

Fixpoint run (x : t) (cs : list call) : option t :=
  match cs with
  | [] => Some x
  | c :: cs' => x' ← step x c; run x' cs'
  end.

(** The data buffer and the offset table describe the same topology when
    the number of stored elements is a multiple of the number of
    features, the length of the offset table. *)
Definition same_topology (x : t) : bool :=
  bool_decide (OffsetSize x = 0 ∨ Size x mod OffsetSize x = 0).

(** The state [SetBinTypeSize] establishes: a valid width and the decoder
    of that width. *)
Definition configured (x : t) : Prop :=
  (binTypeSize_ x = 1 ∨ binTypeSize_ x = 2 ∨ binTypeSize_ x = 4) ∧
  func_ x = get_uint (binTypeSize_ x).

End Index.

(** ** Binary search of a sparse row *)

(** Reduction of an integer to [size_t]. *)
Definition usize (z : Z) : Z := z mod 2 ^ 64.

(** The loop of [BinarySearchBin]; [data] is [operator[]] of the
    [GradientIndex] argument.  [None] when [fuel] iterations do not
    finish the loop. *)
Fixpoint BinarySearchBin_loop (data : Z → Z) (fidx_begin fidx_end : Z)
    (fuel : nat) (begin end_ previous_middle : Z) : option Z :=
  match fuel with
  | O => None
  | S fuel' =>
      if decide (end_ ≠ begin) then
        let middle := usize (begin + usize (end_ - begin) / 2) in
        if decide (middle = previous_middle) then Some (-1)
        else
          let gidx := data middle in
          if decide (fidx_begin ≤ gidx ∧ gidx < fidx_end)
          then Some (i32_of_u32 gidx)
          else if decide (gidx < fidx_begin)
          then BinarySearchBin_loop data fidx_begin fidx_end fuel' middle end_ middle
          else BinarySearchBin_loop data fidx_begin fidx_end fuel' begin middle middle
      else Some (-1)
  end.

(** [BinarySearchBin(begin, end, data, fidx_begin, fidx_end)], with the
    fuel that suffices whenever [begin ≤ end]. *)
Definition BinarySearchBin (begin end_ : Z) (data : Z → Z)
    (fidx_begin fidx_end : Z) : option Z :=
  BinarySearchBin_loop data fidx_begin fidx_end
    (Z.to_nat (end_ - begin) + 2) begin end_ size_max.

(** An index of three 16-bit elements per row over three features, with
    the offset table 0, 256, 512; and the same without offset table. *)
Definition index16 : Index.t :=
  {| Index.data_ := replicate 12 0; Index.offset_ := [];
     Index.binTypeSize_ := 2; Index.p_ := 1; Index.offset_ptr_ := false;
     Index.func_ := Index.GetValueFromUint16 |}.

Definition index16_offsets : Index.t :=
  {| Index.data_ := replicate 12 0; Index.offset_ := [0; 256; 512];
     Index.binTypeSize_ := 2; Index.p_ := 3; Index.offset_ptr_ := true;
     Index.func_ := Index.GetValueFromUint16 |}.

(** The result of the search over [data[begin, end_)]. *)
Definition BinarySearchBin_result (data : Z → Z) (fidx_begin fidx_end : Z)
    (begin end_ r : Z) : Prop :=
  r = -1 ∨
  ∃ m, begin ≤ m < end_ ∧ fidx_begin ≤ data m < fidx_end ∧
       r = i32_of_u32 (data m).

(** ** Gradient pairs and histogram rows *)

(** [GradientPairInternal<GradientSumT>] is declared outside the sources
    at hand; the histogram code uses its zero (the default constructor)
    and its addition ([operator+=]). *)
Class GradientPairOps (GP : Type) := {
  gp_zero : GP;
  gp_add : GP → GP → GP
}.

(** The laws of exact arithmetic, which the sums of a histogram satisfy
    when no rounding occurs. *)
Class GradientPairMonoid (GP : Type) `{GradientPairOps GP} := {
  gp_add_assoc : ∀ a b c : GP, gp_add a (gp_add b c) = gp_add (gp_add a b) c;
  gp_add_zero_l : ∀ a : GP, gp_add gp_zero a = a;
  gp_add_zero_r : ∀ a : GP, gp_add a gp_zero = a
}.

(** [GradientPairInternal<float>]: two binary32 sums. *)
Record GradientPairFloat := { grad_ : spec_float; hess_ : spec_float }.

#[global] Instance float_pair_ops : GradientPairOps GradientPairFloat := {
  gp_zero := {| grad_ := S754_zero false; hess_ := S754_zero false |};
  gp_add a b := {| grad_ := SFadd prec32 emax32 (grad_ a) (grad_ b);
                   hess_ := SFadd prec32 emax32 (hess_ a) (hess_ b) |}
}.

(** Gradient pairs with integer sums: exact arithmetic. *)
#[global] Instance Z_pair_ops : GradientPairOps (Z * Z) := {
  gp_zero := (0, 0);
  gp_add a b := (a.1 + b.1, a.2 + b.2)
}.

(** A [GHistRow] is a [Span]: a pointer and a length.  A pointer is an
    array and an offset into it; the arrays are the rows of [data_] of a
    histogram collection and the arrays the caller owns. *)
Inductive Array :=
  | BufferRow (row : nat)
  | CallerRow (k : nat).

#[global] Instance Array_eq_dec : EqDecision Array.
Proof. solve_decision. Defined.

Record GHistRow := {
  span_array : Array;
  span_off : nat;
  span_size : nat
}.

#[global] Instance GHistRow_inhabited : Inhabited GHistRow :=
  populate {| span_array := CallerRow 0; span_off := 0; span_size := 0 |}.

(** [dst.data() == src.data()]. *)
Definition same_data (a b : GHistRow) : bool :=
  bool_decide (span_array a = span_array b ∧ span_off a = span_off b).

Section Memory.
Context {GP : Type} `{GradientPairOps GP}.

Record Mem := {
  m_buffer : list (list GP);
  m_caller : list (list GP)
}.

Definition mem_array (m : Mem) (a : Array) : option (list GP) :=
  match a with
  | BufferRow r => m_buffer m !! r
  | CallerRow k => m_caller m !! k
  end.

Definition mem_set_array (m : Mem) (a : Array) (l : list GP) : Mem :=
  match a with
  | BufferRow r => {| m_buffer := <[r := l]> (m_buffer m); m_caller := m_caller m |}
  | CallerRow k => {| m_buffer := m_buffer m; m_caller := <[k := l]> (m_caller m) |}
  end.

(** The elements of a row, [None] when the span is not inside its array. *)
Definition span_read (m : Mem) (h : GHistRow) : option (list GP) :=
  l ← mem_array m (span_array h);
  if decide (span_off h + span_size h ≤ length l)%nat
  then Some (take (span_size h) (drop (span_off h) l)) else None.

(** Modelled from the spec: [InitilizeHistByZeroes] is declared here and
    defined elsewhere; "fill a histogram by zeros" in [begin, end). *)
Definition InitilizeHistByZeroes (m : Mem) (hist : GHistRow) (begin end_ : nat)
    : option Mem :=
  l ← mem_array m (span_array hist);
  if decide (begin ≤ end_ ∧ end_ ≤ span_size hist ∧
             span_off hist + span_size hist ≤ length l)%nat
  then Some (mem_set_array m (span_array hist)
               (list_inserts (span_off hist + begin)
                  (replicate (end_ - begin) gp_zero) l))
  else None.

(** Modelled from the spec: [IncrementHist] is declared here and defined
    elsewhere; "Increment hist as dst += add in range [begin, end)". *)
Definition IncrementHist (m : Mem) (dst add : GHistRow) (begin end_ : nat)
    : option Mem :=
  d ← mem_array m (span_array dst);
  a ← mem_array m (span_array add);
  if decide (begin ≤ end_ ∧ end_ ≤ span_size dst ∧ end_ ≤ span_size add ∧
             span_off dst + span_size dst ≤ length d ∧
             span_off add + span_size add ≤ length a)%nat
  then Some (mem_set_array m (span_array dst)
               (list_inserts (span_off dst + begin)
                  (zip_with gp_add
                     (take (end_ - begin) (drop (span_off dst + begin) d))
                     (take (end_ - begin) (drop (span_off add + begin) a))) d))
  else None.

(** Modelled from the spec: the aggregation kernel [BuildHist] is declared
    here and defined elsewhere; it "accumulate[s] each listed row's
    gradient pair into the bin(s) its nonzero entries map to", in row
    order.  [gpair] gives the gradient pair of a row and [gmat] the global
    bin indices of its entries. *)
Definition add_row (gpair : nat → GP) (gmat : nat → list nat)
    (hist : list GP) (row : nat) : list GP :=
  foldl (λ h bin, alter (λ v, gp_add v (gpair row)) bin h) hist (gmat row).

Definition build_rows (gpair : nat → GP) (gmat : nat → list nat)
    (hist : list GP) (rows : list nat) : list GP :=
  foldl (add_row gpair gmat) hist rows.

Definition BuildHist (gpair : nat → GP) (gmat : nat → list nat)
    (m : Mem) (rows : list nat) (hist : GHistRow) : option Mem :=
  l ← mem_array m (span_array hist);
  if decide ((span_off hist + span_size hist ≤ length l)%nat ∧
             Forall (λ row, Forall (λ bin, bin < span_size hist)%nat (gmat row)) rows)
  then Some (mem_set_array m (span_array hist)
               (list_inserts (span_off hist)
                  (build_rows gpair gmat
                     (take (span_size hist) (drop (span_off hist) l)) rows) l))
  else None.

End Memory.

Arguments Mem : clear implicits.

(** ** Histogram collection *)

Module HistCollection.
Section HistCollection.
Context {GP : Type} `{GradientPairOps GP}.

(** [std::numeric_limits<uint32_t>::max()], the mark "no row". *)
Definition kMax : Z := u32_max.

Record t := {
  nbins_ : Z;
  n_nodes_added_ : Z;
  contiguous_allocation_ : bool;
  data_ : list (list GP);
  row_ptr_ : list Z
}.

(** A default-constructed collection. *)
Definition new : t :=
  {| nbins_ := 0; n_nodes_added_ := 0; contiguous_allocation_ := false;
     data_ := []; row_ptr_ := [] |}.

Definition set_data (c : t) (d : list (list GP)) : t :=
  {| nbins_ := nbins_ c; n_nodes_added_ := n_nodes_added_ c;
     contiguous_allocation_ := contiguous_allocation_ c;
     data_ := d; row_ptr_ := row_ptr_ c |}.

(** [operator[]]: the histogram of node [nid]. *)
Definition get (c : t) (nid : Z) : option GHistRow :=
  id ← at_ (row_ptr_ c) nid;
  if decide (id = kMax) then None
  else if contiguous_allocation_ c then
    _ ← data_ c !! 0%nat;
    Some {| span_array := BufferRow 0;
            span_off := Z.to_nat (nbins_ c * id);
            span_size := Z.to_nat (nbins_ c) |}
  else
    _ ← at_ (data_ c) id;
    Some {| span_array := BufferRow (Z.to_nat id);
            span_off := 0;
            span_size := Z.to_nat (nbins_ c) |}.

(** Have we computed a histogram for the node? *)
Definition RowExists (c : t) (nid : Z) : bool :=
  bool_decide (nid < Z.of_nat (length (row_ptr_ c)) ∧
               row_ptr_ c !!! Z.to_nat nid ≠ kMax).

Definition Init (c : t) (nbins : Z) : t :=
  {| nbins_ := nbins;
     n_nodes_added_ := 0;
     contiguous_allocation_ := contiguous_allocation_ c;
     data_ := if decide (nbins_ c ≠ nbins) then [] else data_ c;
     row_ptr_ := [] |}.

(** Create an empty histogram for the node; the [CHECK_EQ] fails when the
    node has a row already. *)
Definition AddHistRow (c : t) (nid : Z) : option t :=
  let row_ptr1 :=
    if decide (Z.of_nat (length (row_ptr_ c)) ≤ nid)
    then resize (Z.to_nat (u32 (nid + 1))) kMax (row_ptr_ c)
    else row_ptr_ c in
  r ← at_ row_ptr1 nid;
  if decide (r = kMax) then
    let data1 :=
      if decide (Z.of_nat (length (data_ c)) < u32 (nid + 1))
      then resize (Z.to_nat (u32 (nid + 1))) [] (data_ c)
      else data_ c in
    Some {| nbins_ := nbins_ c;
            n_nodes_added_ := u32 (n_nodes_added_ c + 1);
            contiguous_allocation_ := contiguous_allocation_ c;
            data_ := data1;
            row_ptr_ := <[Z.to_nat nid := n_nodes_added_ c]> row_ptr1 |}
  else None.

(** Allocate the memory of the node's histogram on first use. *)
Definition AllocateData (c : t) (nid : Z) : option t :=
  r ← at_ (row_ptr_ c) nid;
  d ← at_ (data_ c) r;
  if decide (length d = 0%nat)
  then Some (set_data c
               (<[Z.to_nat r := resize (Z.to_nat (nbins_ c)) gp_zero d]> (data_ c)))
  else Some c.

(** Allocate one common buffer for all nodes. *)
Definition AllocateAllData (c : t) : option t :=
  d0 ← data_ c !! 0%nat;
  let new_size := (Z.to_nat (nbins_ c) * length (data_ c))%nat in
  Some {| nbins_ := nbins_ c; n_nodes_added_ := n_nodes_added_ c;
          contiguous_allocation_ := true;
          data_ := if decide (length d0 ≠ new_size)
                   then <[0%nat := resize new_size gp_zero d0]> (data_ c)
                   else data_ c;
          row_ptr_ := row_ptr_ c |}.

(** The calls on a collection between two [Init]s. *)
Inductive call :=
  | CallAddHistRow (nid : Z)
  | CallAllocateData (nid : Z)
  | CallAllocateAllData.

Definition step (c : t) (k : call) : option t :=
  match k with
  | CallAddHistRow nid => AddHistRow c nid
  | CallAllocateData nid => AllocateData c nid
  | CallAllocateAllData => AllocateAllData c
  end.

Fixpoint run (c : t) (ks : list call) : option t :=
  match ks with
  | [] => Some c
  | k :: ks' => c' ← step c k; run c' ks'
  end.

End HistCollection.
Arguments t : clear implicits.
End HistCollection.

(** What every call on a collection keeps: the bin count, and a row table
    that fits the 32-bit node ids. *)
Definition HistCollection_inv {GP : Type} (nbins : Z) (c : HistCollection.t GP) : Prop :=
  HistCollection.nbins_ c = nbins ∧
  Z.of_nat (length (HistCollection.row_ptr_ c)) ≤ u32_max.

(** Calls between two [Init]s: two nodes added, one of them allocated. *)
Definition hist_calls_example : list HistCollection.call :=
  [HistCollection.CallAddHistRow 0; HistCollection.CallAllocateData 0;
   HistCollection.CallAddHistRow 2].

(** ** Work space *)

(** Modelled from the spec: [BlockedSpace2d] of [threading_utils.h], which
    is not part of the sources at hand; "a work-space descriptor
    enumerating, for each unit of parallel work, which node it belongs
    to".  A unit of work is a block: the node and the rows of the node it
    covers. *)
Record Block := {
  block_nid : nat;
  block_rows : list nat
}.

#[global] Instance Block_inhabited : Inhabited Block :=
  populate {| block_nid := 0; block_rows := [] |}.

Definition GetFirstDimension (space : list Block) (i : nat) : nat :=
  block_nid (space !!! i).

(** [space_size / nthreads + !!(space_size % nthreads)]. *)
Definition chunck_size (space_size nthreads : nat) : nat :=
  (space_size / nthreads +
   (if decide (space_size `mod` nthreads = 0) then 0 else 1))%nat.

(** The blocks [begin, end) of thread [tid]. *)
Definition thread_blocks (space : list Block) (nthreads tid : nat) : list Block :=
  let begin := (chunck_size (length space) nthreads * tid)%nat in
  let end_ := ((begin + chunck_size (length space) nthreads) `min` length space)%nat in
  take (end_ - begin) (drop begin space).

(** ** Parallel histogram builder *)

(** In this class [size_t] counters of threads and nodes are natural
    numbers: they index vectors of [nthreads * nodes] elements and do not
    wrap. *)
Module ParallelGHistBuilder.
Section ParallelGHistBuilder.
Context {GP : Type} `{GradientPairOps GP}.

Record t := {
  nbins_ : Z;
  nthreads_ : nat;
  nodes_ : nat;
  hist_buffer_ : HistCollection.t GP;
  hist_was_used_ : list bool;
  threads_to_nids_map_ : list bool;
  targeted_hists_ : list GHistRow;
  tid_nid_to_hist_ : gmap (nat * nat) Z
}.

Definition new : t :=
  {| nbins_ := 0; nthreads_ := 0; nodes_ := 0;
     hist_buffer_ := HistCollection.new; hist_was_used_ := [];
     threads_to_nids_map_ := []; targeted_hists_ := [];
     tid_nid_to_hist_ := ∅ |}.

Definition set_hist_buffer (b : t) (hb : HistCollection.t GP) : t :=
  {| nbins_ := nbins_ b; nthreads_ := nthreads_ b; nodes_ := nodes_ b;
     hist_buffer_ := hb; hist_was_used_ := hist_was_used_ b;
     threads_to_nids_map_ := threads_to_nids_map_ b;
     targeted_hists_ := targeted_hists_ b;
     tid_nid_to_hist_ := tid_nid_to_hist_ b |}.

Definition set_hist_was_used (b : t) (u : list bool) : t :=
  {| nbins_ := nbins_ b; nthreads_ := nthreads_ b; nodes_ := nodes_ b;
     hist_buffer_ := hist_buffer_ b; hist_was_used_ := u;
     threads_to_nids_map_ := threads_to_nids_map_ b;
     targeted_hists_ := targeted_hists_ b;
     tid_nid_to_hist_ := tid_nid_to_hist_ b |}.

Definition set_threads_to_nids_map (b : t) (m : list bool) : t :=
  {| nbins_ := nbins_ b; nthreads_ := nthreads_ b; nodes_ := nodes_ b;
     hist_buffer_ := hist_buffer_ b; hist_was_used_ := hist_was_used_ b;
     threads_to_nids_map_ := m;
     targeted_hists_ := targeted_hists_ b;
     tid_nid_to_hist_ := tid_nid_to_hist_ b |}.

Definition set_tid_nid_to_hist (b : t) (m : gmap (nat * nat) Z) : t :=
  {| nbins_ := nbins_ b; nthreads_ := nthreads_ b; nodes_ := nodes_ b;
     hist_buffer_ := hist_buffer_ b; hist_was_used_ := hist_was_used_ b;
     threads_to_nids_map_ := threads_to_nids_map_ b;
     targeted_hists_ := targeted_hists_ b;
     tid_nid_to_hist_ := m |}.

(** The memory the rows of the builder point into: the rows of its
    buffer and the arrays of the caller. *)
Definition mem_of (b : t) (caller : list (list GP)) : Mem GP :=
  {| m_buffer := HistCollection.data_ (hist_buffer_ b); m_caller := caller |}.

Definition with_mem (b : t) (m : Mem GP) : t * list (list GP) :=
  (set_hist_buffer b (HistCollection.set_data (hist_buffer_ b) (m_buffer m)),
   m_caller m).

Definition Init (b : t) (nbins : Z) : t :=
  if decide (nbins ≠ nbins_ b) then
    {| nbins_ := nbins; nthreads_ := nthreads_ b; nodes_ := nodes_ b;
       hist_buffer_ := HistCollection.Init (hist_buffer_ b) (u32 nbins);
       hist_was_used_ := hist_was_used_ b;
       threads_to_nids_map_ := threads_to_nids_map_ b;
       targeted_hists_ := targeted_hists_ b;
       tid_nid_to_hist_ := tid_nid_to_hist_ b |}
  else b.

(** [threads_to_nids_map_[tid * nodes_ + nid]]: thread [tid] will work on
    node [nid]. *)
Definition touches (b : t) (tid nid : nat) : bool :=
  threads_to_nids_map_ b !!! (tid * nodes_ b + nid)%nat.

(** [hist_was_used_[tid * nodes_ + nid]]. *)
Definition was_used (b : t) (tid nid : nat) : bool :=
  hist_was_used_ b !!! (tid * nodes_ b + nid)%nat.

(** The inner loop of [MatchThreadsToNodes]: the nodes from [nid_begin]
    to [nid_end], both included. *)
Definition mark_nodes (nodes tid nid_begin nid_end : nat) (map : list bool)
    : list bool :=
  foldl (λ m nid, <[(tid * nodes + nid)%nat := true]> m) map
    (seq nid_begin (S nid_end - nid_begin)).

Definition mark_thread (nodes : nat) (space : list Block) (chunck : nat)
    (map : list bool) (tid : nat) : list bool :=
  let begin := (chunck * tid)%nat in
  let end_ := ((begin + chunck) `min` length space)%nat in
  if decide (begin < length space)%nat
  then mark_nodes nodes tid (GetFirstDimension space begin)
         (GetFirstDimension space (end_ - 1)) map
  else map.

(** The division by [nthreads_] is undefined for 0 threads: [None]. *)
Definition MatchThreadsToNodes (b : t) (space : list Block) : option t :=
  if decide (nthreads_ b = 0%nat) then None
  else
    let chunck := chunck_size (length space) (nthreads_ b) in
    let map0 := resize (nthreads_ b * nodes_ b) false (threads_to_nids_map_ b) in
    Some (set_threads_to_nids_map b
            (foldl (mark_thread (nodes_ b) space chunck) map0
               (seq 0 (nthreads_ b)))).

Definition nthreads_for_nid (b : t) (nid : nat) : nat :=
  foldl (λ n tid, if touches b tid nid then S n else n) 0%nat
    (seq 0 (nthreads_ b)).

(** [std::max<int>(0, nthreads_for_nid - 1)] is the predecessor on natural
    numbers. *)
Definition hist_allocated_additionally (b : t) : nat :=
  foldl (λ a nid, (a + (nthreads_for_nid b nid - 1))%nat) 0%nat
    (seq 0 (nodes_ b)).

Fixpoint add_hist_rows (hb : HistCollection.t GP) (rows : list nat)
    : option (HistCollection.t GP) :=
  match rows with
  | [] => Some hb
  | i :: rows' =>
      hb' ← HistCollection.AddHistRow hb (u32 (Z.of_nat i));
      add_hist_rows hb' rows'
  end.

Definition AllocateAdditionalHistograms (b : t) : option t :=
  hb ← add_hist_rows (hist_buffer_ b) (seq 0 (hist_allocated_additionally b));
  Some (set_hist_buffer b hb).

(** The body of the inner loop of [MatchNodeNidPairToHist]; the state is
    the map, the counter [hist_allocated_additionally] and [first_hist]. *)
Definition match_thread (b : t) (nid : nat)
    (st : gmap (nat * nat) Z * nat * bool) (tid : nat)
    : gmap (nat * nat) Z * nat * bool :=
  let '(m, n, first_hist) := st in
  if touches b tid nid then
    if first_hist then (<[(tid, nid) := -1]> m, n, false)
    else (<[(tid, nid) := Z.of_nat n]> m, S n, false)
  else st.

Definition match_node (b : t) (st : gmap (nat * nat) Z * nat) (nid : nat)
    : gmap (nat * nat) Z * nat :=
  (foldl (match_thread b nid) (st.1, st.2, true) (seq 0 (nthreads_ b))).1.

Definition MatchNodeNidPairToHist (b : t) : t :=
  set_tid_nid_to_hist b
    (foldl (match_node b) (tid_nid_to_hist_ b, 0%nat) (seq 0 (nodes_ b))).1.

(** Add new elements if needed, mark all hists as unused. *)
Definition Reset (b : t) (nthreads nodes : nat) (space : list Block)
    (targeted_hists : list GHistRow) : option t :=
  if decide (nodes = length targeted_hists) then
    let b1 :=
      {| nbins_ := nbins_ b; nthreads_ := nthreads; nodes_ := nodes;
         hist_buffer_ := HistCollection.Init (hist_buffer_ b) (u32 (nbins_ b));
         hist_was_used_ := hist_was_used_ b;
         threads_to_nids_map_ := [];
         targeted_hists_ := targeted_hists;
         tid_nid_to_hist_ := ∅ |} in
    b2 ← MatchThreadsToNodes b1 space;
    b3 ← AllocateAdditionalHistograms b2;
    Some (set_hist_was_used (MatchNodeNidPairToHist b3)
            (replicate (nthreads * nodes) false))
  else None.

(** The row [idx] stands for: the target of the node for -1, a row of the
    buffer otherwise. *)
Definition hist_of (b : t) (hb : HistCollection.t GP) (nid : nat) (idx : Z)
    : option GHistRow :=
  if decide (idx = -1) then targeted_hists_ b !! nid
  else HistCollection.get hb (u32 idx).

(** Get the specified hist, initialize it by zeros if it wasn't used
    before. *)
Definition GetInitializedHist (b : t) (caller : list (list GP)) (tid nid : nat)
    : option (GHistRow * (t * list (list GP))) :=
  if decide (nid < nodes_ b ∧ tid < nthreads_ b)%nat then
    idx ← tid_nid_to_hist_ b !! (tid, nid);
    hb ← (if decide (0 ≤ idx)
          then HistCollection.AllocateData (hist_buffer_ b) (u32 idx)
          else Some (hist_buffer_ b));
    hist ← hist_of b hb nid idx;
    let b1 := set_hist_buffer b hb in
    if was_used b tid nid then Some (hist, (b1, caller))
    else
      m ← InitilizeHistByZeroes (mem_of b1 caller) hist 0 (span_size hist);
      Some (hist,
            with_mem (set_hist_was_used b1
                        (<[(tid * nodes_ b + nid)%nat := true]> (hist_was_used_ b)))
                     m)
  else None.

(** The body of the loop of [ReduceHist]; the state is the memory and
    [is_updated]. *)
Definition reduce_thread (b : t) (nid : nat) (dst : GHistRow) (begin end_ : nat)
    (st : option (Mem GP * bool)) (tid : nat) : option (Mem GP * bool) :=
  s ← st;
  if was_used b tid nid then
    idx ← tid_nid_to_hist_ b !! (tid, nid);
    src ← hist_of b (hist_buffer_ b) nid idx;
    if same_data dst src then Some (s.1, true)
    else m' ← IncrementHist s.1 dst src begin end_; Some (m', true)
  else Some s.

(** Reduce the bins [begin, end) of node [nid] into its target across the
    threads. *)
Definition ReduceHist (b : t) (caller : list (list GP)) (nid begin end_ : nat)
    : option (t * list (list GP)) :=
  if decide (begin < end_ ∧ nid < nodes_ b)%nat then
    dst ← targeted_hists_ b !! nid;
    st ← foldl (reduce_thread b nid dst begin end_)
            (Some (mem_of b caller, false)) (seq 0 (nthreads_ b));
    m' ← (if st.2 : bool then Some st.1
          else InitilizeHistByZeroes st.1 dst begin end_);
    Some (with_mem b m')
  else None.

End ParallelGHistBuilder.
Arguments t : clear implicits.
End ParallelGHistBuilder.

(** ** A parallel build pass *)

Section BuildPass.
Context {GP : Type} `{GradientPairOps GP}.
Variable gpair : nat → GP.
Variable gmat : nat → list nat.

(** Modelled from the spec: [ParallelFor2d] of [threading_utils.h], not
    part of the sources at hand, hands thread [tid] the blocks of its
    chunk, the chunks being those of [MatchThreadsToNodes].  The work
    items are listed thread by thread, each thread's blocks in order. *)
Definition work_items (space : list Block) (nthreads : nat) : list (nat * Block) :=
  tid ← seq 0 nthreads; (λ blk, (tid, blk)) <$> thread_blocks space nthreads tid.

(** What a thread does with a block: it gets its histogram of the node
    and accumulates the rows of the block into it. *)
Definition build_block (st : ParallelGHistBuilder.t GP * list (list GP))
    (item : nat * Block) : option (ParallelGHistBuilder.t GP * list (list GP)) :=
  r ← ParallelGHistBuilder.GetInitializedHist st.1 st.2 item.1 (block_nid item.2);
  m ← BuildHist gpair gmat (ParallelGHistBuilder.mem_of r.2.1 r.2.2)
        (block_rows item.2) r.1;
  Some (ParallelGHistBuilder.with_mem r.2.1 m).

Fixpoint build_blocks (st : ParallelGHistBuilder.t GP * list (list GP))
    (items : list (nat * Block))
    : option (ParallelGHistBuilder.t GP * list (list GP)) :=
  match items with
  | [] => Some st
  | item :: items' => st' ← build_block st item; build_blocks st' items'
  end.

Fixpoint reduce_nodes (st : ParallelGHistBuilder.t GP * list (list GP))
    (nids : list nat) (nbins : nat)
    : option (ParallelGHistBuilder.t GP * list (list GP)) :=
  match nids with
  | [] => Some st
  | nid :: nids' =>
      st' ← ParallelGHistBuilder.ReduceHist st.1 st.2 nid 0 nbins;
      reduce_nodes st' nids' nbins
  end.

(** A full pass: [Reset], the accumulation by all threads, and
    [ReduceHist(nid, 0, nbins)] for every node. *)
Definition parallel_build (b : ParallelGHistBuilder.t GP) (caller : list (list GP))
    (nthreads nodes : nat) (space : list Block) (targeted_hists : list GHistRow)
    (nbins : nat) : option (ParallelGHistBuilder.t GP * list (list GP)) :=
  b1 ← ParallelGHistBuilder.Reset b nthreads nodes space targeted_hists;
  st ← build_blocks (b1, caller) (work_items space nthreads);
  reduce_nodes st (seq 0 nodes) nbins.

(** The rows of a node, in the order of the work space. *)
Definition node_rows (space : list Block) (nid : nat) : list nat :=
  blk ← space; if decide (block_nid blk = nid) then block_rows blk else [].

(** The serial sum: the rows of the node accumulated, in order, into a
    histogram of zeros. *)
Definition serial_hist (space : list Block) (nbins nid : nat) : list GP :=
  build_rows gpair gmat (replicate nbins gp_zero) (node_rows space nid).

End BuildPass.

(** The targets of [nodes] nodes: the caller's array [k], whole, for node
    [k]. *)
Definition caller_targets (nodes nbins : nat) : list GHistRow :=
  (λ k, {| span_array := CallerRow k; span_off := 0; span_size := nbins |})
    <$> seq 0 nodes.

(** The threads that touch a node, in increasing order, and their number. *)
Definition touching {GP : Type} (b : ParallelGHistBuilder.t GP) (nid : nat) : list nat :=
  filter (λ tid, ParallelGHistBuilder.touches b tid nid) (seq 0 (ParallelGHistBuilder.nthreads_ b)).

(** The scratch rows handed out after the first thread of a node. *)
Fixpoint assign_rest (nid : nat) (ts : list nat) (m : gmap (nat * nat) Z) (n : nat)
    : gmap (nat * nat) Z * nat :=
  match ts with
  | [] => (m, n)
  | t :: ts' => assign_rest nid ts' (<[(t, nid) := Z.of_nat n]> m) (S n)
  end.

Definition assign_node (nid : nat) (ts : list nat) (m : gmap (nat * nat) Z) (n : nat)
    (first_hist : bool) : gmap (nat * nat) Z * nat :=
  match ts with
  | t :: ts' => if first_hist then assign_rest nid ts' (<[(t, nid) := -1]> m) n
                else assign_rest nid ts m n
  | [] => (m, n)
  end.

(** The scratch indices of a map are below the counter and pairwise
    distinct. *)
Definition scratch_inv (m : gmap (nat * nat) Z) (n : nat) : Prop :=
  (∀ k v, m !! k = Some v → v = -1 ∨ 0 ≤ v < Z.of_nat n) ∧
  (∀ k1 k2 v, 0 ≤ v → m !! k1 = Some v → m !! k2 = Some v → k1 = k2).

(** The rows of the threads [ts] that touch node [nid]: the first one the
    target, the others scratch rows; no thread outside [ts] has a row. *)
Definition node_assigned (m : gmap (nat * nat) Z) (ts : list nat) (nid : nat) : Prop :=
  match ts with
  | [] => True
  | t0 :: rest =>
      m !! (t0, nid) = Some (-1) ∧
      ∀ t, t ∈ rest → ∃ v, m !! (t, nid) = Some v ∧ 0 ≤ v
  end ∧
  ∀ t, t ∉ ts → m !! (t, nid) = None.

(** The rows [0 .. k-1] of a collection have been added, in this order. *)
Definition buffer_rows {GP : Type} (hb : HistCollection.t GP) (k : nat) : Prop :=
  HistCollection.row_ptr_ hb = Z.of_nat <$> seq 0 k ∧
  HistCollection.n_nodes_added_ hb = Z.of_nat k.

(** Every allocated row of the storage has [nbins] bins. *)
Definition rows_sized {GP : Type} (nbins : nat) (data : list (list GP)) : Prop :=
  Forall (λ row, length row = 0%nat ∨ length row = nbins) data.

(** A work space in which node 0 has no rows: two blocks of node 1. *)
Definition space_node1 : list Block :=
  [ {| block_nid := 1; block_rows := [0%nat; 1%nat] |};
    {| block_nid := 1; block_rows := [2%nat; 3%nat] |} ].

(** A fresh builder of histograms of 4 bins with integer sums. *)
Definition builder4 : ParallelGHistBuilder.t (Z * Z) :=
  ParallelGHistBuilder.Init ParallelGHistBuilder.new 4.

(** The first dimensions of a work space never decrease: the blocks of a
    node are consecutive and the nodes come in increasing order. *)
Definition space_sorted (space : list Block) : Prop :=
  ∀ i j : nat, (i ≤ j)%nat → (j < length space)%nat →
    (GetFirstDimension space i ≤ GetFirstDimension space j)%nat.

(** The whole array [a] as a histogram row of [nbins] bins. *)
Definition whole_row (a : Array) (nbins : nat) : GHistRow :=
  {| span_array := a; span_off := 0; span_size := nbins |}.

(** The array a histogram index stands for. *)
Definition hist_array (nid : nat) (idx : Z) : Array :=
  if decide (idx = -1) then CallerRow nid else BufferRow (Z.to_nat idx).
(** Thread [tid] is marked for the nodes between the first dimensions of
    the first and of the last block of its chunk. *)
Definition chunk_touches (space : list Block) (cs tid nid : nat) : Prop :=
  (cs * tid < length space)%nat ∧
  (GetFirstDimension space (cs * tid) ≤ nid)%nat ∧
  (nid ≤ GetFirstDimension space ((cs * tid + cs) `min` length space - 1))%nat.

(** A builder set up for histograms of [nbins] bins: its buffer has this
    bin count, is not contiguous, and its allocated rows have [nbins]
    bins. *)
Definition builder_ready {GP : Type} (nbins : nat) (b : ParallelGHistBuilder.t GP) : Prop :=
  ParallelGHistBuilder.nbins_ b = Z.of_nat nbins ∧
  HistCollection.nbins_ (ParallelGHistBuilder.hist_buffer_ b) = Z.of_nat nbins ∧
  HistCollection.contiguous_allocation_ (ParallelGHistBuilder.hist_buffer_ b) = false ∧
  rows_sized nbins (HistCollection.data_ (ParallelGHistBuilder.hist_buffer_ b)).

(** The rows the work items [items] give thread [tid] for node [nid]. *)
Definition item_rows (items : list (nat * Block)) (tid nid : nat) : list nat :=
  item ← items;
  if decide (item.1 = tid ∧ block_nid item.2 = nid) then block_rows item.2 else [].

Definition item_used (items : list (nat * Block)) (tid nid : nat) : Prop :=
  ∃ item, item ∈ items ∧ item.1 = tid ∧ block_nid item.2 = nid.

(** What a pass keeps of the builder [b1] that [Reset] built, and the
    sizes of the arrays. *)
Definition pass_struct {GP : Type} (b1 : ParallelGHistBuilder.t GP) (nbins : nat)
    (st : ParallelGHistBuilder.t GP * list (list GP)) : Prop :=
  let hb := ParallelGHistBuilder.hist_buffer_ st.1 in
  let hb1 := ParallelGHistBuilder.hist_buffer_ b1 in
  ParallelGHistBuilder.nthreads_ st.1 = ParallelGHistBuilder.nthreads_ b1 ∧
  ParallelGHistBuilder.nodes_ st.1 = ParallelGHistBuilder.nodes_ b1 ∧
  ParallelGHistBuilder.targeted_hists_ st.1 = ParallelGHistBuilder.targeted_hists_ b1 ∧
  ParallelGHistBuilder.tid_nid_to_hist_ st.1 = ParallelGHistBuilder.tid_nid_to_hist_ b1 ∧
  HistCollection.row_ptr_ hb = HistCollection.row_ptr_ hb1 ∧
  HistCollection.n_nodes_added_ hb = HistCollection.n_nodes_added_ hb1 ∧
  HistCollection.nbins_ hb = Z.of_nat nbins ∧
  HistCollection.contiguous_allocation_ hb = false ∧
  length (HistCollection.data_ hb) = length (HistCollection.data_ hb1) ∧
  rows_sized nbins (HistCollection.data_ hb) ∧
  length st.2 = ParallelGHistBuilder.nodes_ b1 ∧
  Forall (λ row, length row = nbins) st.2 ∧
  length (ParallelGHistBuilder.hist_was_used_ st.1)
    = (ParallelGHistBuilder.nthreads_ b1 * ParallelGHistBuilder.nodes_ b1)%nat.

(** The state of a pass that started from [b1], in which the pairs
    [used] have accumulated the histograms [acc]. *)
Definition pass_inv {GP : Type} `{GradientPairOps GP}
    (b1 : ParallelGHistBuilder.t GP) (nbins : nat)
    (used : nat → nat → Prop) (acc : nat → nat → list GP)
    (st : ParallelGHistBuilder.t GP * list (list GP)) : Prop :=
  pass_struct b1 nbins st ∧
  (∀ tid nid, (tid < ParallelGHistBuilder.nthreads_ b1)%nat →
     (nid < ParallelGHistBuilder.nodes_ b1)%nat →
     ParallelGHistBuilder.was_used st.1 tid nid = true ↔ used tid nid) ∧
  (∀ tid nid idx, (tid < ParallelGHistBuilder.nthreads_ b1)%nat →
     (nid < ParallelGHistBuilder.nodes_ b1)%nat →
     ParallelGHistBuilder.was_used st.1 tid nid = true →
     ParallelGHistBuilder.tid_nid_to_hist_ b1 !! (tid, nid) = Some idx →
     mem_array (ParallelGHistBuilder.mem_of st.1 st.2) (hist_array nid idx)
       = Some (acc tid nid)).

(** The histogram of the rows the items give a thread for a node. *)
Definition acc_items {GP : Type} `{GradientPairOps GP} (gpair : nat → GP)
    (gmat : nat → list nat) (nbins : nat) (items : list (nat * Block))
    (tid nid : nat) : list GP :=
  build_rows gpair gmat (replicate nbins gp_zero) (item_rows items tid nid).

(** The target row of node [nid] after the loop of [ReduceHist] over the
    threads [tids], started with the row [h]: the rows of the threads
    that used a scratch row, added in order. *)
Definition reduce_row {GP : Type} `{GradientPairOps GP}
    (b : ParallelGHistBuilder.t GP) (acc : nat → nat → list GP) (nid : nat)
    (h : list GP) (tids : list nat) : list GP :=
  foldl (λ h tid,
           if ParallelGHistBuilder.was_used b tid nid then
             match ParallelGHistBuilder.tid_nid_to_hist_ b !! (tid, nid) with
             | Some idx => if decide (idx = -1) then h
                           else zip_with gp_add h (acc tid nid)
             | None => h
             end
           else h) h tids.

(** The target row after [ReduceHist(nid, 0, nbins)]. *)
Definition target_row {GP : Type} `{GradientPairOps GP}
    (b : ParallelGHistBuilder.t GP) (acc : nat → nat → list GP) (nbins nid : nat)
    (h : list GP) : list GP :=
  if existsb (λ tid, ParallelGHistBuilder.was_used b tid nid)
       (seq 0 (ParallelGHistBuilder.nthreads_ b))
  then reduce_row b acc nid h (seq 0 (ParallelGHistBuilder.nthreads_ b))
  else replicate nbins gp_zero.

(** A pass of integer sums: row [r] carries the pair [(r + 1, 1)] and falls
    into bin [r mod 4]; the caller's rows hold stale sums. *)
Definition gpair_count (r : nat) : Z * Z := (Z.of_nat r + 1, 1).

Definition gmat_mod4 (r : nat) : list nat := [(r mod 4)%nat].

Definition caller_stale : list (list (Z * Z)) := replicate 2 (replicate 4 (7, 7)).

(** A pass of binary32 sums over one node and one bin: four blocks of one
    row each; row 0 carries the gradient 2^24, the others 1. *)
Definition space_blocks4 : list Block :=
  (λ r, {| block_nid := 0; block_rows := [r] |}) <$> seq 0 4.

Definition gpair_big_small (r : nat) : GradientPairFloat :=
  {| grad_ := float_of_Z (if decide (r = 0%nat) then 2 ^ 24 else 1);
     hess_ := float_of_Z 1 |}.

Definition gmat_bin0 (r : nat) : list nat := [0%nat].

Definition builder1f : ParallelGHistBuilder.t GradientPairFloat :=
  ParallelGHistBuilder.Init ParallelGHistBuilder.new 1.

Definition caller1f : list (list GradientPairFloat) := [[gp_zero]].

(** The bins of the features [0 .. n-1], added up. *)
Fixpoint sum_FeatureBins (c : HistogramCuts.t) (n : nat) : option Z :=
  match n with
  | O => Some 0
  | S n' =>
      s ← sum_FeatureBins c n';
      b ← HistogramCuts.FeatureBins c (Z.of_nat n');
      Some (s + b)
  end.

(** The offsets of the features never decrease and fit [uint32_t]. *)
Definition ptrs_ordered (ptrs : list Z) : Prop :=
  (∀ (i j : nat) x y, (i ≤ j)%nat → ptrs !! i = Some x → ptrs !! j = Some y → x ≤ y) ∧
  Forall (λ x, 0 ≤ x ≤ u32_max) ptrs.

(** Two features: boundaries 2, 5, 9 and boundaries 1, 4. *)
Definition cuts_two_features : HistogramCuts.t :=
  {| HistogramCuts.cut_values_ :=
       [float_of_Z 2; float_of_Z 5; float_of_Z 9; float_of_Z 1; float_of_Z 4];
     HistogramCuts.cut_ptrs_ := [0; 3; 5];
     HistogramCuts.min_vals_ := [float_of_Z 1; float_of_Z 0] |}.

(** A well-formed index: a valid width with its decoder, bytes in the
    buffer, 32-bit offsets, and, once the pointer to the offset table is
    set, [p_] equal to the size of the table unless it is zero. *)
Definition Index_wf (x : Index.t) : Prop :=
  Index.configured x ∧
  Forall (λ b, 0 ≤ b < 256) (Index.data_ x) ∧
  Forall (λ o, 0 ≤ o ≤ u32_max) (Index.offset_ x) ∧
  (Index.offset_ptr_ x = true → 0 < Index.p_ x → Index.p_ x = Index.OffsetSize x).

(** Three one-byte elements 7, 8, 9. *)
Definition index8_789 : Index.t :=
  {| Index.data_ := [7; 8; 9]; Index.offset_ := [];
     Index.binTypeSize_ := 1; Index.p_ := 1; Index.offset_ptr_ := false;
     Index.func_ := Index.GetValueFromUint8 |}.

(** The bin indices of a row never decrease over [data[begin, end_)]. *)
Definition row_sorted (data : Z → Z) (begin end_ : Z) : Prop :=
  ∀ i j, begin ≤ i → i ≤ j → j < end_ → data i ≤ data j.

(** The number of entries of a row table that locate a row. *)
Definition rows_added (row_ptr : list Z) : nat :=
  length (filter (λ id, id ≠ HistCollection.kMax) row_ptr).

(** What the calls on a collection keep of its row table: the rows handed
    out are counted by [n_nodes_added_], they are below this count and
    pairwise distinct, and [data_] has an element for every entry of the
    table. *)
Definition HistCollection_rows_inv {GP : Type} (c : HistCollection.t GP) : Prop :=
  Z.of_nat (rows_added (HistCollection.row_ptr_ c)) = HistCollection.n_nodes_added_ c ∧
  (∀ (i : nat) id, HistCollection.row_ptr_ c !! i = Some id →
     id ≠ HistCollection.kMax → 0 ≤ id < HistCollection.n_nodes_added_ c) ∧
  (∀ (i j : nat) id, HistCollection.row_ptr_ c !! i = Some id →
     HistCollection.row_ptr_ c !! j = Some id →
     id ≠ HistCollection.kMax → i = j) ∧
  (length (HistCollection.row_ptr_ c) ≤ length (HistCollection.data_ c))%nat ∧
  Z.of_nat (length (HistCollection.row_ptr_ c)) ≤ u32_max.

(** A collection of integer sums with 4 bins. *)
Definition collection4 : HistCollection.t (Z * Z) :=
  HistCollection.Init HistCollection.new 4.

(** The collection after the calls of the example: node 0 has row 0,
    allocated, and node 2 has row 1, still empty. *)
Definition collection4_after : HistCollection.t (Z * Z) :=
  {| HistCollection.nbins_ := 4; HistCollection.n_nodes_added_ := 2;
     HistCollection.contiguous_allocation_ := false;
     HistCollection.data_ := [replicate 4 (0, 0); []; []];
     HistCollection.row_ptr_ := [0; HistCollection.kMax; 1] |}.

(** The builder [Reset] leaves for [T] threads, [N] nodes with the
    caller's rows as targets, and the work space [space]: the marks of
    [MatchThreadsToNodes], no histogram used, the rows of
    [AllocateAdditionalHistograms] and the map of
    [MatchNodeNidPairToHist]. *)
Definition reset_state {GP : Type} `{GradientPairOps GP}
    (b1 : ParallelGHistBuilder.t GP) (nbins T N : nat) (space : list Block) : Prop :=
  let total := ParallelGHistBuilder.hist_allocated_additionally b1 in
  let hb := ParallelGHistBuilder.hist_buffer_ b1 in
  ParallelGHistBuilder.nthreads_ b1 = T ∧
  ParallelGHistBuilder.nodes_ b1 = N ∧
  ParallelGHistBuilder.nbins_ b1 = Z.of_nat nbins ∧
  ParallelGHistBuilder.threads_to_nids_map_ b1 =
    foldl (ParallelGHistBuilder.mark_thread N space (chunck_size (length space) T))
      (replicate (T * N) false) (seq 0 T) ∧
  ParallelGHistBuilder.hist_was_used_ b1 = replicate (T * N) false ∧
  ParallelGHistBuilder.targeted_hists_ b1 =
    caller_targets (ParallelGHistBuilder.nodes_ b1) nbins ∧
  scratch_inv (ParallelGHistBuilder.tid_nid_to_hist_ b1) total ∧
  (∀ nid, (nid < ParallelGHistBuilder.nodes_ b1)%nat →
     node_assigned (ParallelGHistBuilder.tid_nid_to_hist_ b1) (touching b1 nid) nid) ∧
  buffer_rows hb total ∧
  (total ≤ length (HistCollection.data_ hb))%nat ∧
  Z.of_nat total ≤ u32_max ∧
  HistCollection.nbins_ hb = Z.of_nat nbins ∧
  HistCollection.contiguous_allocation_ hb = false ∧
  rows_sized nbins (HistCollection.data_ hb).

(** The work items of a pass are well-formed: each thread has a block of
    its chunk, of a node below [N], with bins below [nbins]. *)
Definition items_ok (gmat : nat → list nat) (space : list Block) (nbins T N : nat)
    (items : list (nat * Block)) : Prop :=
  Forall (λ item : nat * Block,
            (item.1 < T)%nat ∧ (block_nid item.2 < N)%nat ∧
            chunk_touches space (chunck_size (length space) T) item.1 (block_nid item.2) ∧
            Forall (λ r, Forall (λ bin, bin < nbins)%nat (gmat r)) (block_rows item.2))
    items.

(** The first work item of the example pass: thread 0 and the first
    block of node 1. *)
Definition items_first : list (nat * Block) :=
  [(0%nat, {| block_nid := 1; block_rows := [0%nat; 1%nat] |})].

(** Five blocks over the nodes 0, 0, 1, 2, 2. *)
Definition space_five : list Block :=
  [ {| block_nid := 0; block_rows := [0%nat] |};
    {| block_nid := 0; block_rows := [1%nat] |};
    {| block_nid := 1; block_rows := [2%nat] |};
    {| block_nid := 2; block_rows := [3%nat] |};
    {| block_nid := 2; block_rows := [4%nat] |} ].

(** The builder of integer sums after a pass of two threads over the
    work space [space_node1]: thread 1 has accumulated its block of node
    1 in the scratch row 0. *)
Definition builder4_used : ParallelGHistBuilder.t (Z * Z) :=
  {| ParallelGHistBuilder.nbins_ := 4;
     ParallelGHistBuilder.nthreads_ := 2;
     ParallelGHistBuilder.nodes_ := 2;
     ParallelGHistBuilder.hist_buffer_ :=
       {| HistCollection.nbins_ := 4; HistCollection.n_nodes_added_ := 1;
          HistCollection.contiguous_allocation_ := false;
          HistCollection.data_ := [[(0, 0); (0, 0); (3, 1); (4, 1)]];
          HistCollection.row_ptr_ := [0] |};
     ParallelGHistBuilder.hist_was_used_ := [false; true; false; true];
     ParallelGHistBuilder.threads_to_nids_map_ := [false; true; false; true];
     ParallelGHistBuilder.targeted_hists_ := caller_targets 2 4;
     ParallelGHistBuilder.tid_nid_to_hist_ :=
       {[ (0%nat, 1%nat) := -1; (1%nat, 1%nat) := 0 ]} |}.

(** ** Stack allocator *)

(** [MemStackAllocator<T, MaxStackSize>]: an array that lives in the
    object itself ("in the stack") when it is small, on the heap
    otherwise. *)
Module MemStackAllocator.

(** A pointer is null, the array [stack_mem_] of the object, or a block
    of the heap. *)
Inductive Ptr :=
  | Null
  | StackMem
  | HeapBlock (k : nat).

#[global] Instance Ptr_eq_dec : EqDecision Ptr.
Proof. solve_decision. Defined.

(** The heap of the C library: the blocks that are live, the next fresh
    block, and the largest size [malloc] grants; beyond it [malloc]
    returns null. *)
Record Heap := {
  live : list nat;
  next_block : nat;
  max_block : Z
}.

Definition malloc (h : Heap) (size : Z) : Ptr * Heap :=
  if decide (size ≤ max_block h)
  then (HeapBlock (next_block h),
        {| live := next_block h :: live h; next_block := S (next_block h);
           max_block := max_block h |})
  else (Null, h).

(** [free] of a null pointer does nothing. *)
Definition free (h : Heap) (p : Ptr) : Heap :=
  match p with
  | HeapBlock k =>
      {| live := filter (λ j, j ≠ k) (live h); next_block := next_block h;
         max_block := max_block h |}
  | _ => h
  end.

Record t := {
  ptr_ : Ptr;
  do_free_ : bool;
  required_size_ : Z
}.

(** The constructor. *)
Definition new (required_size : Z) : t :=
  {| ptr_ := Null; do_free_ := false; required_size_ := required_size |}.

Section Allocator.
(** The template parameter [MaxStackSize] and [sizeof(T)]. *)
Variables MaxStackSize sizeof_T : Z.

Definition Get (a : t) (h : Heap) : Ptr * t * Heap :=
  if decide (ptr_ a = Null) then
    if decide (required_size_ a ≤ MaxStackSize) then
      (StackMem,
       {| ptr_ := StackMem; do_free_ := do_free_ a;
          required_size_ := required_size_ a |}, h)
    else
      let r := malloc h (usize (required_size_ a * sizeof_T)) in
      (r.1, {| ptr_ := r.1; do_free_ := true; required_size_ := required_size_ a |},
       r.2)
  else (ptr_ a, a, h).

(** The destructor. *)
Definition destroy (a : t) (h : Heap) : Heap :=
  if do_free_ a then free h (ptr_ a) else h.

(** [n] calls of [Get] in a row. *)
Fixpoint Gets (n : nat) (a : t) (h : Heap) : t * Heap :=
  match n with
  | O => (a, h)
  | S n' => let r := Get a h in Gets n' r.1.2 r.2
  end.

End Allocator.
End MemStackAllocator.

(** A heap whose live blocks are older than the next fresh block. *)
Definition heap_fresh (h : MemStackAllocator.Heap) : Prop :=
  Forall (λ k, k < MemStackAllocator.next_block h)%nat (MemStackAllocator.live h).

(** A heap with two live blocks that grants blocks of up to 1000 bytes. *)
Definition heap_two : MemStackAllocator.Heap :=
  {| MemStackAllocator.live := [1%nat; 0%nat]; MemStackAllocator.next_block := 2;
     MemStackAllocator.max_block := 1000 |}.

(** What [Get] keeps, from the heap [h0] of the construction on: the
    pointer is null until a [Get] has succeeded; after that it is the
    array of the object and nothing is to be freed, or it is the block
    that [Get] has added to the heap. *)
Definition alloc_inv (MaxStackSize : Z) (h0 : MemStackAllocator.Heap)
    (a : MemStackAllocator.t) (h : MemStackAllocator.Heap) : Prop :=
  (MemStackAllocator.do_free_ a = false ∨
   MaxStackSize < MemStackAllocator.required_size_ a) ∧
  ((MemStackAllocator.ptr_ a = MemStackAllocator.Null ∧ h = h0) ∨
   (MemStackAllocator.ptr_ a = MemStackAllocator.StackMem ∧
    MemStackAllocator.do_free_ a = false ∧ h = h0 ∧
    MemStackAllocator.required_size_ a ≤ MaxStackSize) ∨
   (MemStackAllocator.ptr_ a
      = MemStackAllocator.HeapBlock (MemStackAllocator.next_block h0) ∧
    MemStackAllocator.do_free_ a = true ∧
    MaxStackSize < MemStackAllocator.required_size_ a ∧
    MemStackAllocator.live h
      = MemStackAllocator.next_block h0 :: MemStackAllocator.live h0)).

(** The row that has the bins of [new] in [begin, end_) and the bins of
    [old] elsewhere. *)
Definition range_row {A} (begin end_ : nat) (new old : list A) : list A :=
  imap (λ i x, if decide (begin ≤ i < end_)%nat then default x (new !! i) else x) old.

(** The target row while [ReduceHist(nid, begin, end_)] runs over the
    threads [tids]. *)
Definition reduce_row_range {GP : Type} `{GradientPairOps GP}
    (b : ParallelGHistBuilder.t GP) (acc : nat → nat → list GP) (nid begin end_ : nat)
    (h : list GP) (tids : list nat) : list GP :=
  foldl (λ h tid,
           if ParallelGHistBuilder.was_used b tid nid then
             match ParallelGHistBuilder.tid_nid_to_hist_ b !! (tid, nid) with
             | Some idx => if decide (idx = -1) then h
                           else range_row begin end_ (zip_with gp_add h (acc tid nid)) h
             | None => h
             end
           else h) h tids.

(** The histogram a thread accumulates for a node: the rows of the blocks
    of the node in its chunk, in order, added to zeros. *)
Definition thread_hist {GP : Type} `{GradientPairOps GP} (gpair : nat → GP)
    (gmat : nat → list nat) (space : list Block) (T nbins tid nid : nat) : list GP :=
  build_rows gpair gmat (replicate nbins gp_zero)
    (node_rows (thread_blocks space T tid) nid).

(** The chunk of the thread has a block of the node. *)
Definition thread_works (space : list Block) (T tid nid : nat) : bool :=
  existsb (λ blk, bool_decide (block_nid blk = nid)) (thread_blocks space T tid).

(** The histograms of the threads that work on a node, added up in the
    order of the threads, starting from the histogram of the first one;
    zeros when no thread works on the node. *)
Definition thread_sums {GP : Type} `{GradientPairOps GP} (gpair : nat → GP)
    (gmat : nat → list nat) (space : list Block) (T nbins nid : nat) : list GP :=
  match filter (λ tid, thread_works space T tid nid) (seq 0 T) with
  | [] => replicate nbins gp_zero
  | t0 :: rest =>
      foldl (λ h t, zip_with gp_add h (thread_hist gpair gmat space T nbins t nid))
        (thread_hist gpair gmat space T nbins t0 nid) rest
  end.

(* ================================================================== *)
(** * Properties *)
(* ================================================================== *)

(** ** Float comparison *)

Lemma SFltb_finite_trans (s1 s2 s3 : bool) (m1 m2 m3 : positive) (e1 e2 e3 : Z) :
  SFltb (S754_finite s1 m1 e1) (S754_finite s2 m2 e2) = true →
  SFltb (S754_finite s2 m2 e2) (S754_finite s3 m3 e3) = true →
  SFltb (S754_finite s1 m1 e1) (S754_finite s3 m3 e3) = true.
Proof.
  unfold SFltb, SFcompare.
  change (Pos.compare_cont Eq) with Pos.compare.
  destruct s1, s2, s3; try discriminate; try reflexivity;
    destruct (Z.compare_spec e1 e2), (Z.compare_spec e2 e3),
      (Z.compare_spec e1 e3); try discriminate; try reflexivity; try lia;
    destruct (Pos.compare_spec m1 m2), (Pos.compare_spec m2 m3),
      (Pos.compare_spec m1 m3); simpl; try discriminate; try reflexivity; lia.
Qed.

Lemma SFltb_trans (x y z : spec_float) :
  SFltb x y = true → SFltb y z = true → SFltb x z = true.
Proof.
  destruct x as [sx|sx| |sx mx ex], y as [sy|sy| |sy my ey],
    z as [sz|sz| |sz mz ez];
    try apply SFltb_finite_trans;
    unfold SFltb, SFcompare;
    repeat match goal with s : bool |- _ => destruct s end;
    try discriminate; try reflexivity.
Qed.

(** ** The bisection loop *)

Lemma upper_bound_loop_bisect values value fuel first len :
  upper_bound_loop values value fuel first len =
  bisect_loop (λ m, negb (SFltb value (values !!! Z.to_nat m))) fuel first len.
Proof.
  revert first len. induction fuel as [|fuel IH]; intros first len; simpl; [done|].
  case_decide; [|done]. destruct (SFltb _ _); simpl; apply IH.
Qed.

Lemma lower_bound_loop_bisect values value fuel first len :
  lower_bound_loop values value fuel first len =
  bisect_loop (λ m, SFltb (values !!! Z.to_nat m) value) fuel first len.
Proof.
  revert first len. induction fuel as [|fuel IH]; intros first len; simpl; [done|].
  case_decide; [|done]. destruct (SFltb _ _); simpl; apply IH.
Qed.

Lemma half_bounds (len : Z) : 0 < len → 0 ≤ len / 2 < len.
Proof. intros ?. split; [apply Z.div_pos; lia | apply Z.div_lt; lia]. Qed.

(** Whatever [adv] is, the loop stays inside [first, first + len]. *)
Lemma bisect_loop_range adv fuel first len :
  0 ≤ len →
  first ≤ bisect_loop adv fuel first len ≤ first + len.
Proof.
  revert first len. induction fuel as [|fuel IH]; intros first len Hlen; simpl; [lia|].
  case_decide as Hpos; [|lia].
  pose proof (half_bounds len Hpos) as Hh.
  destruct (adv _).
  - specialize (IH (first + len / 2 + 1) (len - len / 2 - 1)). lia.
  - specialize (IH first (len / 2)). lia.
Qed.

(** On a range where the positions with [adv] come first, the loop returns
    the partition point. *)
Lemma bisect_loop_partition adv fuel first len :
  0 ≤ len → (Z.to_nat len ≤ fuel)%nat →
  (∀ i j, first ≤ i → i ≤ j → j < first + len → adv j = true → adv i = true) →
  let r := bisect_loop adv fuel first len in
  (∀ i, first ≤ i < r → adv i = true) ∧
  (∀ i, r ≤ i < first + len → adv i = false).
Proof.
  revert first len. induction fuel as [|fuel IH]; intros first len Hlen Hfuel Hmono; simpl.
  { split; intros; lia. }
  case_decide as Hpos; [|split; intros; lia].
  pose proof (half_bounds len Hpos) as Hh.
  destruct (adv (first + len / 2)) eqn:Hadv.
  - destruct (IH (first + len / 2 + 1) (len - len / 2 - 1)) as [IH1 IH2];
      [lia | lia | intros; apply (Hmono i j); auto; lia |].
    split; [|intros; apply IH2; lia].
    intros i Hi. destruct (decide (i ≤ first + len / 2)).
    + apply (Hmono i (first + len / 2)); auto; lia.
    + apply IH1. lia.
  - destruct (IH first (len / 2)) as [IH1 IH2];
      [lia | lia | intros; apply (Hmono i j); auto; lia |].
    split; [intros; apply IH1; lia|].
    intros i Hi. destruct (decide (i < first + len / 2)); [apply IH2; lia|].
    destruct (adv i) eqn:Hi'; [|done].
    rewrite <- Hadv. symmetry. apply (Hmono (first + len / 2) i); auto; lia.
Qed.

(** ** Sorted slices *)

Lemma ascending_cons x l :
  ascending (x :: l) = true →
  ascending l = true ∧ ∀ y, y ∈ l → SFltb x y = true.
Proof.
  revert x. induction l as [|y l IH]; intros x H.
  - split; [done|]. intros y Hy. inversion Hy.
  - simpl in H. apply andb_true_iff in H as [Hxy Hl].
    split; [done|]. intros z Hz. apply elem_of_cons in Hz as [->|Hz]; [done|].
    eapply SFltb_trans; [exact Hxy|]. by apply (IH y).
Qed.

Lemma ascending_lookup l (i j : nat) x y :
  ascending l = true → l !! i = Some x → l !! j = Some y → (i < j)%nat →
  SFltb x y = true.
Proof.
  revert i j. induction l as [|z l IH]; intros i j Hasc Hi Hj Hij; [done|].
  apply ascending_cons in Hasc as [Hl Hz].
  destruct i as [|i], j as [|j]; simpl in *; try lia.
  - simplify_eq. apply Hz. by eapply list_elem_of_lookup_2.
  - apply (IH i j); auto; lia.
Qed.

Lemma slice_lookup {A} `{Inhabited A} (l : list A) (first last i : Z) :
  0 ≤ first → first ≤ i < last → last ≤ Z.of_nat (length l) →
  slice l first last !! Z.to_nat (i - first) = Some (l !!! Z.to_nat i).
Proof.
  intros Hf Hi Hl. unfold slice.
  rewrite lookup_take_lt by lia. rewrite lookup_drop.
  replace (Z.to_nat first + Z.to_nat (i - first))%nat with (Z.to_nat i) by lia.
  apply list_lookup_lookup_total_lt. lia.
Qed.

Lemma ascending_slice values first last i j :
  ascending (slice values first last) = true →
  0 ≤ first → last ≤ Z.of_nat (length values) → first ≤ i → i < j → j < last →
  SFltb (values !!! Z.to_nat i) (values !!! Z.to_nat j) = true.
Proof.
  intros Hasc Hf Hl Hi Hij Hj.
  apply (ascending_lookup _ (Z.to_nat (i - first)) (Z.to_nat (j - first)) _ _ Hasc);
    [apply slice_lookup; lia | apply slice_lookup; lia | lia].
Qed.

Lemma at_lookup_total {A} `{Inhabited A} (l : list A) (i : Z) (x : A) :
  at_ l i = Some x → l !!! Z.to_nat i = x.
Proof.
  unfold at_. case_decide; [|done]. intros Hl.
  by apply list_lookup_total_correct.
Qed.

Lemma u32_small (z : Z) : 0 ≤ z ≤ u32_max → u32 z = z.
Proof. unfold u32, u32_max. intros ?. apply Z.mod_small. lia. Qed.

Lemma u32_range (z : Z) : 0 ≤ u32 z ≤ u32_max.
Proof.
  unfold u32, u32_max. pose proof (Z.mod_pos_bound z (2 ^ 32)). lia.
Qed.

(** [std::upper_bound] on a sorted slice: the first position whose
    element is greater than [value]. *)
Lemma upper_bound_spec values first last value :
  0 ≤ first → first ≤ last → last ≤ Z.of_nat (length values) →
  ascending (slice values first last) = true →
  let r := upper_bound values first last value in
  first ≤ r ≤ last ∧
  (∀ i, first ≤ i < r → SFltb value (values !!! Z.to_nat i) = false) ∧
  (∀ i, r ≤ i < last → SFltb value (values !!! Z.to_nat i) = true).
Proof.
  intros Hf Hfl Hl Hasc. unfold upper_bound. rewrite upper_bound_loop_bisect.
  set (adv := λ m, negb (SFltb value (values !!! Z.to_nat m))).
  pose proof (bisect_loop_range adv (Z.to_nat (last - first)) first (last - first)).
  destruct (bisect_loop_partition adv (Z.to_nat (last - first)) first (last - first))
    as [H1 H2]; [lia | lia | |].
  { unfold adv. intros i j Hi Hij Hj Hadv.
    destruct (decide (i = j)) as [->|Hne]; [done|].
    apply negb_true_iff in Hadv. apply negb_true_iff.
    destruct (SFltb value (values !!! Z.to_nat i)) eqn:Hvi; [|done].
    rewrite <- Hadv. symmetry.
    eapply SFltb_trans; [exact Hvi|].
    apply (ascending_slice values first last); auto; lia. }
  cbv zeta. fold adv.
  set (r := bisect_loop adv _ _ _) in *. split; [lia|]. split.
  - intros i Hi. specialize (H1 i Hi). unfold adv in H1.
    by apply negb_true_iff in H1.
  - intros i Hi. specialize (H2 i). unfold adv in H2.
    apply negb_false_iff. apply H2. lia.
Qed.

(** [std::lower_bound] on a sorted slice: the first position whose
    element is not less than [value]. *)
Lemma lower_bound_spec values first last value :
  0 ≤ first → first ≤ last → last ≤ Z.of_nat (length values) →
  ascending (slice values first last) = true →
  let r := lower_bound values first last value in
  first ≤ r ≤ last ∧
  (∀ i, first ≤ i < r → SFltb (values !!! Z.to_nat i) value = true) ∧
  (∀ i, r ≤ i < last → SFltb (values !!! Z.to_nat i) value = false).
Proof.
  intros Hf Hfl Hl Hasc. unfold lower_bound. rewrite lower_bound_loop_bisect.
  set (adv := λ m, SFltb (values !!! Z.to_nat m) value).
  pose proof (bisect_loop_range adv (Z.to_nat (last - first)) first (last - first)).
  destruct (bisect_loop_partition adv (Z.to_nat (last - first)) first (last - first))
    as [H1 H2]; [lia | lia | |].
  { unfold adv. intros i j Hi Hij Hj Hadv.
    destruct (decide (i = j)) as [->|Hne]; [done|].
    eapply SFltb_trans; [|exact Hadv].
    apply (ascending_slice values first last); auto; lia. }
  cbv zeta. fold adv.
  set (r := bisect_loop adv _ _ _) in *. split; [lia|]. split.
  - intros i Hi. apply (H1 i Hi).
  - intros i Hi. apply H2. lia.
Qed.

Section SearchBin.
Import HistogramCuts.
Variable c : HistogramCuts.t.
Variables column_id beg end_ : Z.
Hypothesis Hbeg : at_ (cut_ptrs_ c) column_id = Some beg.
Hypothesis Hend : at_ (cut_ptrs_ c) (u32 (column_id + 1)) = Some end_.
Hypothesis Hbeg0 : 0 ≤ beg.
Hypothesis Hbegend : beg ≤ end_.
Hypothesis Hend32 : end_ ≤ u32_max.
Hypothesis Hvalues : end_ ≤ Z.of_nat (length (cut_values_ c)).

Lemma SearchBin_unfold value :
  SearchBin c value column_id =
  let idx := upper_bound (cut_values_ c) beg end_ value in
  Some (if decide (idx = end_) then u32 (idx - 1) else idx).
Proof using Hbeg Hend Hbeg0 Hbegend Hend32.
  unfold SearchBin. rewrite Hbeg, Hend. simpl.
  unfold upper_bound. rewrite upper_bound_loop_bisect.
  pose proof (bisect_loop_range
    (λ m, negb (SFltb value (cut_values_ c !!! Z.to_nat m)))
    (Z.to_nat (end_ - beg)) beg (end_ - beg)).
  rewrite u32_small by lia. done.
Qed.

Lemma SearchCatBin_unfold e :
  index e = column_id →
  SearchCatBin c e =
  let idx := lower_bound (cut_values_ c) beg end_
               (float_of_Z (AsCat (fvalue e))) in
  Some (if decide (idx = end_) then u32 (idx - 1) else idx).
Proof using Hbeg Hend Hbeg0 Hbegend Hend32.
  intros He. unfold SearchCatBin. rewrite He, Hend. simpl.
  rewrite (at_lookup_total _ _ _ Hbeg).
  unfold lower_bound. rewrite lower_bound_loop_bisect.
  pose proof (bisect_loop_range
    (λ m, SFltb (cut_values_ c !!! Z.to_nat m) (float_of_Z (AsCat (fvalue e))))
    (Z.to_nat (end_ - beg)) beg (end_ - beg)).
  case_decide; [done|]. rewrite u32_small by lia. done.
Qed.
End SearchBin.

(** ** Bin search (claims C2, C7 and C10) *)

(** C2, as the code has it.  On a feature whose slice
    [cut_values_[beg, end_)] is sorted, [SearchBin value column_id] is the
    position of the first boundary strictly greater than [value], and the
    feature's last bin [end_ - 1] when no boundary is greater.  For the
    boundaries 2.0, 5.0, 9.0 this gives bin 0 for 1.0, bin 1 for 2.0 (the
    first boundary strictly greater than 2.0 is 5.0), bin 2 for 5.5 and
    bin 2 for 100.0. *)
Theorem SearchBin_first_greater_or_last
    (c : HistogramCuts.t) (value : spec_float) (column_id beg end_ : Z) :
  at_ (HistogramCuts.cut_ptrs_ c) column_id = Some beg →
  at_ (HistogramCuts.cut_ptrs_ c) (u32 (column_id + 1)) = Some end_ →
  0 ≤ beg → beg ≤ end_ → end_ ≤ u32_max →
  end_ ≤ Z.of_nat (length (HistogramCuts.cut_values_ c)) →
  ascending (slice (HistogramCuts.cut_values_ c) beg end_) = true →
  (∃ idx, HistogramCuts.SearchBin c value column_id = Some idx ∧
     ((beg ≤ idx < end_ ∧
       SFltb value (HistogramCuts.cut_values_ c !!! Z.to_nat idx) = true ∧
       ∀ i, beg ≤ i < idx →
         SFltb value (HistogramCuts.cut_values_ c !!! Z.to_nat i) = false)
      ∨ (idx = u32 (end_ - 1) ∧
         ∀ i, beg ≤ i < end_ →
           SFltb value (HistogramCuts.cut_values_ c !!! Z.to_nat i) = false)))
  ∧ HistogramCuts.SearchBin cuts_2_5_9 (float_of_Z 1) 0 = Some 0
  ∧ HistogramCuts.SearchBin cuts_2_5_9 (float_of_Z 2) 0 = Some 1
  ∧ HistogramCuts.SearchBin cuts_2_5_9 (float_of_bits 11 (-1)) 0 = Some 2
  ∧ HistogramCuts.SearchBin cuts_2_5_9 (float_of_Z 100) 0 = Some 2.
Proof.
  intros Hbeg Hend Hbeg0 Hbegend Hend32 Hvalues Hasc.
  split; [|by vm_compute].
  rewrite (SearchBin_unfold c column_id beg end_) by done. cbv zeta.
  destruct (upper_bound_spec (HistogramCuts.cut_values_ c) beg end_ value)
    as (Hr & Hlow & Hhigh); [done..|].
  set (r := upper_bound _ _ _ _) in *.
  eexists; split; [reflexivity|]. case_decide as Hre.
  - right. split; [by rewrite Hre|]. intros i Hi. apply Hlow. lia.
  - left. split; [lia|]. split; [apply Hhigh; lia | done].
Qed.

Lemma SearchBin_first_greater_or_last_witness :
  ∃ idx, HistogramCuts.SearchBin cuts_2_5_9 (float_of_bits 11 (-1)) 0 = Some idx ∧
    ((0 ≤ idx < 3 ∧
      SFltb (float_of_bits 11 (-1))
        (HistogramCuts.cut_values_ cuts_2_5_9 !!! Z.to_nat idx) = true ∧
      ∀ i, 0 ≤ i < idx →
        SFltb (float_of_bits 11 (-1))
          (HistogramCuts.cut_values_ cuts_2_5_9 !!! Z.to_nat i) = false)
     ∨ (idx = u32 (3 - 1) ∧
        ∀ i, 0 ≤ i < 3 →
          SFltb (float_of_bits 11 (-1))
            (HistogramCuts.cut_values_ cuts_2_5_9 !!! Z.to_nat i) = false)).
Proof.
  apply (SearchBin_first_greater_or_last cuts_2_5_9 (float_of_bits 11 (-1)) 0 0 3);
    [reflexivity | reflexivity | lia | lia | by vm_compute | simpl; lia
    | by vm_compute].
Defined.

(** C2 as the specification words it fails on its second example: 2.0 is
    not strictly below the boundary 2.0, so it falls into bin 1, not 0. *)
Lemma SearchBin_boundary_value_not_bin_0 :
  HistogramCuts.SearchBin cuts_2_5_9 (float_of_Z 2) 0 ≠ Some 0.
Proof. by vm_compute. Qed.

(** C7.  On a feature whose slice is sorted, [SearchCatBin] is the position
    of the first (smallest) boundary that is not less than the truncated,
    integer-valued category, and the feature's last bin when every boundary
    is less.  For the categories 1, 3, 7 the category 3 gets the bin whose
    boundary is 3 and the category 8 the last bin. *)
Theorem SearchCatBin_first_not_less_or_last
    (c : HistogramCuts.t) (e : HistogramCuts.Entry) (beg end_ : Z) :
  at_ (HistogramCuts.cut_ptrs_ c) (HistogramCuts.index e) = Some beg →
  at_ (HistogramCuts.cut_ptrs_ c) (u32 (HistogramCuts.index e + 1)) = Some end_ →
  0 ≤ beg → beg ≤ end_ → end_ ≤ u32_max →
  end_ ≤ Z.of_nat (length (HistogramCuts.cut_values_ c)) →
  ascending (slice (HistogramCuts.cut_values_ c) beg end_) = true →
  let v := float_of_Z (AsCat (HistogramCuts.fvalue e)) in
  (∃ idx, HistogramCuts.SearchCatBin c e = Some idx ∧
     ((beg ≤ idx < end_ ∧
       SFltb (HistogramCuts.cut_values_ c !!! Z.to_nat idx) v = false ∧
       ∀ i, beg ≤ i < idx →
         SFltb (HistogramCuts.cut_values_ c !!! Z.to_nat i) v = true)
      ∨ (idx = u32 (end_ - 1) ∧
         ∀ i, beg ≤ i < end_ →
           SFltb (HistogramCuts.cut_values_ c !!! Z.to_nat i) v = true)))
  ∧ HistogramCuts.SearchCatBin cuts_1_3_7
      {| HistogramCuts.index := 0; HistogramCuts.fvalue := float_of_Z 3 |} = Some 1
  ∧ HistogramCuts.cut_values_ cuts_1_3_7 !!! 1%nat = float_of_Z 3
  ∧ HistogramCuts.SearchCatBin cuts_1_3_7
      {| HistogramCuts.index := 0; HistogramCuts.fvalue := float_of_Z 8 |} = Some 2.
Proof.
  intros Hbeg Hend Hbeg0 Hbegend Hend32 Hvalues Hasc v.
  split; [|by vm_compute].
  rewrite (SearchCatBin_unfold c (HistogramCuts.index e) beg end_) by done.
  cbv zeta. fold v.
  destruct (lower_bound_spec (HistogramCuts.cut_values_ c) beg end_ v)
    as (Hr & Hlow & Hhigh); [done..|].
  set (r := lower_bound _ _ _ _) in *.
  eexists; split; [reflexivity|]. case_decide as Hre.
  - right. split; [by rewrite Hre|]. intros i Hi. apply Hlow. lia.
  - left. split; [lia|]. split; [apply Hhigh; lia | done].
Qed.

Lemma SearchCatBin_first_not_less_or_last_witness :
  let e := {| HistogramCuts.index := 0;
              HistogramCuts.fvalue := float_of_bits 7 (-1) |} in
  let v := float_of_Z (AsCat (HistogramCuts.fvalue e)) in
  ∃ idx, HistogramCuts.SearchCatBin cuts_1_3_7 e = Some idx ∧
    ((0 ≤ idx < 3 ∧
      SFltb (HistogramCuts.cut_values_ cuts_1_3_7 !!! Z.to_nat idx) v = false ∧
      ∀ i, 0 ≤ i < idx →
        SFltb (HistogramCuts.cut_values_ cuts_1_3_7 !!! Z.to_nat i) v = true)
     ∨ (idx = u32 (3 - 1) ∧
        ∀ i, 0 ≤ i < 3 →
          SFltb (HistogramCuts.cut_values_ cuts_1_3_7 !!! Z.to_nat i) v = true)).
Proof.
  intros e v.
  apply (SearchCatBin_first_not_less_or_last cuts_1_3_7 e 0 3);
    [reflexivity | reflexivity | lia | lia | by vm_compute | simpl; lia
    | by vm_compute].
Defined.

(** C10.  For a feature with a non-empty slice [beg < end_] the result of
    [SearchBin] lies in [beg, end_), whatever the value and the boundaries
    are.  On an empty slice [beg = end_] the result is [beg - 1] reduced to
    32 bits, which is outside the (empty) range of the feature. *)
Theorem SearchBin_in_feature_range
    (c : HistogramCuts.t) (value : spec_float) (column_id beg end_ : Z) :
  at_ (HistogramCuts.cut_ptrs_ c) column_id = Some beg →
  at_ (HistogramCuts.cut_ptrs_ c) (u32 (column_id + 1)) = Some end_ →
  0 ≤ beg → beg ≤ end_ → end_ ≤ u32_max →
  ∃ idx, HistogramCuts.SearchBin c value column_id = Some idx ∧
    (beg < end_ → beg ≤ idx < end_) ∧
    (beg = end_ → idx = u32 (beg - 1) ∧ ¬ (beg ≤ idx < end_)).
Proof.
  intros Hbeg Hend Hbeg0 Hbegend Hend32.
  rewrite (SearchBin_unfold c column_id beg end_) by done. cbv zeta.
  unfold upper_bound. rewrite upper_bound_loop_bisect.
  pose proof (bisect_loop_range
    (λ m, negb (SFltb value (HistogramCuts.cut_values_ c !!! Z.to_nat m)))
    (Z.to_nat (end_ - beg)) beg (end_ - beg)) as Hr.
  set (r := bisect_loop _ _ _ _) in *.
  eexists; split; [reflexivity|]. split.
  - intros Hne. case_decide as Hre.
    + subst r. rewrite Hre. rewrite u32_small by lia. lia.
    + lia.
  - intros ->. assert (r = end_) as -> by lia.
    rewrite decide_True by done. split; [done|]. lia.
Qed.

Lemma SearchBin_in_feature_range_witness :
  ∃ idx, HistogramCuts.SearchBin cuts_2_5_9 (float_of_Z 100) 0 = Some idx ∧
    (0 < 3 → 0 ≤ idx < 3) ∧
    (0 = 3 → idx = u32 (0 - 1) ∧ ¬ (0 ≤ idx < 3)).
Proof.
  apply (SearchBin_in_feature_range cuts_2_5_9 (float_of_Z 100) 0 0 3);
    [reflexivity | reflexivity | lia | lia | by vm_compute].
Defined.

(** An empty first feature: the result wraps to the largest 32-bit value. *)
Example SearchBin_empty_slice_wraps :
  HistogramCuts.SearchBin
    {| HistogramCuts.cut_values_ := [float_of_Z 2];
       HistogramCuts.cut_ptrs_ := [0; 0; 1];
       HistogramCuts.min_vals_ := [] |} (float_of_Z 1) 0 = Some u32_max.
Proof. by vm_compute. Qed.

(** ** Compressed bin index (claims C3 and C8) *)

Lemma take_drop_inserts {A} (l k : list A) (i : nat) :
  (i + length k ≤ length l)%nat →
  take (length k) (drop i (list_inserts i k l)) = k.
Proof.
  intros Hlen. apply list_eq. intros j.
  destruct (decide (j < length k)%nat) as [Hj|Hj].
  - rewrite lookup_take_lt by done. rewrite lookup_drop.
    rewrite list_lookup_inserts by lia. f_equal. lia.
  - rewrite lookup_take_ge by lia. symmetry. apply lookup_ge_None. lia.
Qed.

Lemma get_uint_set_uint (size : Z) (t t' : list Z) (i v : Z) :
  0 < size → 0 ≤ v < 2 ^ (8 * size) →
  Index.set_uint size t i v = Some t' →
  Index.get_uint size t' i = Some v.
Proof.
  intros Hsize Hv. unfold Index.set_uint, Index.get_uint.
  case_decide as Hi; [|done]. intros [= <-].
  pose proof (length_Z_to_little_endian size 8 v ltac:(lia)) as Hlen.
  replace (Z.to_nat size) with (length (Z_to_little_endian size 8 v)) by lia.
  rewrite take_drop_inserts by nia.
  rewrite decide_True by (split; [lia | done]).
  rewrite little_endian_to_Z_to_little_endian by lia.
  f_equal. apply Z.mod_small. rewrite Z.mul_comm. done.
Qed.

Lemma SetBinTypeSize_configured (x x' : Index.t) (b : Z) :
  Index.SetBinTypeSize x b = Some x' → Index.configured x'.
Proof.
  unfold Index.SetBinTypeSize, Index.configured.
  repeat case_decide; intros [= <-]; subst; simpl; try done;
    (split; [|reflexivity]); auto.
Qed.

Lemma Resize_configured (x : Index.t) (n : Z) :
  Index.configured x → Index.configured (Index.Resize x n).
Proof. done. Qed.

Lemma ResizeOffset_configured (x : Index.t) (n : Z) :
  Index.configured x → Index.configured (Index.ResizeOffset x n).
Proof. done. Qed.

Lemma Size_bound (x : Index.t) (i : Z) :
  0 < Index.binTypeSize_ x → i < Index.Size x →
  (i + 1) * Index.binTypeSize_ x ≤ Z.of_nat (length (Index.data_ x)).
Proof.
  unfold Index.Size. intros Hw Hi.
  pose proof (Z.mul_div_le (Z.of_nat (length (Index.data_ x)))
                (Index.binTypeSize_ x) Hw). nia.
Qed.

Lemma SetBinTypeSize_width (x : Index.t) (b : Z) :
  b = Index.kUint8BinsTypeSize ∨ b = Index.kUint16BinsTypeSize
    ∨ b = Index.kUint32BinsTypeSize →
  ∃ x', Index.SetBinTypeSize x b = Some x' ∧ Index.binTypeSize_ x' = b ∧
        Index.data_ x' = Index.data_ x ∧ Index.offset_ x' = Index.offset_ x ∧
        Index.p_ x' = Index.p_ x ∧ Index.offset_ptr_ x' = Index.offset_ptr_ x.
Proof.
  unfold Index.SetBinTypeSize.
  intros [-> | [-> | ->]]; repeat case_decide; try done; by eexists.
Qed.

Lemma write_read (x : Index.t) (i v : Z) :
  Index.configured x →
  0 ≤ i →
  (i + 1) * Index.binTypeSize_ x ≤ Z.of_nat (length (Index.data_ x)) →
  0 ≤ v < 2 ^ (8 * Index.binTypeSize_ x) →
  ∃ x', Index.write x i v = Some x' ∧
    (Index.offset_ptr_ x = false → Index.get x' i = Some v) ∧
    (Index.offset_ptr_ x = true →
     ∀ o, 0 < Index.p_ x →
       at_ (Index.offset_ x) (i mod Index.p_ x) = Some o →
       Index.get x' i = Some (u32 (v + o))).
Proof.
  intros [Hsz Hfunc] Hi Hlen Hv.
  assert (0 < Index.binTypeSize_ x) as Hpos by lia.
  unfold Index.write, Index.set_uint.
  rewrite decide_True by done. simpl. eexists. split; [reflexivity|].
  assert (Index.get_uint (Index.binTypeSize_ x)
            (list_inserts (Z.to_nat (i * Index.binTypeSize_ x))
               (Z_to_little_endian (Index.binTypeSize_ x) 8 v) (Index.data_ x)) i
          = Some v) as Hget.
  { apply (get_uint_set_uint _ (Index.data_ x)); [done..|].
    unfold Index.set_uint. by rewrite decide_True. }
  split.
  - intros Hnull. unfold Index.get. simpl. rewrite Hnull, Hfunc. exact Hget.
  - intros Hptr o Hp Ho.
    unfold Index.get. simpl. rewrite Hptr, Hfunc, Hget. simpl.
    rewrite decide_False by lia. by rewrite Ho.
Qed.

(** C3 as the specification words it fails: a 32-bit index with one
    feature whose offset is 1.  The largest 32-bit value is written at
    position 0; the read adds the offset in [uint32_t] and returns 0, not
    the sum of the stored value and the offset. *)
Lemma Index_offset_sum_wraps :
  (x ← Index.run Index.new
         [Index.CallResizeOffset 1; Index.CallSetBinTypeSize 4; Index.CallResize 4];
   x1 ← Index.write_offset x 0 1;
   x' ← Index.write x1 0 u32_max;
   Index.get x' 0) = Some 0 ∧
  Some 0 ≠ Some (u32_max + 1).
Proof. split; [by vm_compute | by vm_compute]. Qed.

(** C3, as the code has it.  For each of the widths 1, 2 and 4 bytes,
    [SetBinTypeSize] followed by [Resize] gives an index of that width
    whose size is the number of whole elements in the buffer.  Writing a
    value that fits the width at a position below the size and reading
    the position back through [operator[]] returns the value when there
    is no offset table, and the [uint32_t] sum of the value and
    [offset_[i mod p_]] when there is one; that sum is the plain sum
    whenever the plain sum fits 32 bits. *)
Theorem Index_write_read_roundtrip (x0 : Index.t) (b n : Z) :
  b = Index.kUint8BinsTypeSize ∨ b = Index.kUint16BinsTypeSize
    ∨ b = Index.kUint32BinsTypeSize →
  0 ≤ n →
  ∃ x, Index.run x0 [Index.CallSetBinTypeSize b; Index.CallResize n] = Some x ∧
    Index.GetBinTypeSize x = b ∧ Index.Size x = n / b ∧
    ∀ i v, 0 ≤ i < Index.Size x → 0 ≤ v < 2 ^ (8 * b) →
      ∃ x', Index.write x i v = Some x' ∧
        (Index.offset_ptr_ x = false → Index.get x' i = Some v) ∧
        (Index.offset_ptr_ x = true →
         ∀ o, 0 < Index.p_ x →
           at_ (Index.offset_ x) (i mod Index.p_ x) = Some o →
           Index.get x' i = Some (u32 (v + o)) ∧
           (0 ≤ o → v + o ≤ u32_max → Index.get x' i = Some (v + o))).
Proof.
  intros Hb Hn.
  destruct (SetBinTypeSize_width x0 b Hb) as (x1 & Hset & Hw & _).
  pose proof (SetBinTypeSize_configured _ _ _ Hset) as Hconf.
  exists (Index.Resize x1 n). split; [simpl; by rewrite Hset|].
  assert (Index.binTypeSize_ (Index.Resize x1 n) = b) as Hw' by done.
  assert (0 < b) as Hpos.
  { unfold Index.kUint8BinsTypeSize, Index.kUint16BinsTypeSize,
      Index.kUint32BinsTypeSize in Hb. lia. }
  split; [done|]. split.
  { unfold Index.Size. simpl. rewrite length_resize, Hw. f_equal. lia. }
  intros i v Hi Hv.
  destruct (write_read (Index.Resize x1 n) i v) as (x' & Hwrite & Hnull & Hoff).
  - by apply Resize_configured.
  - lia.
  - apply Size_bound; [rewrite Hw'|]; lia.
  - by rewrite Hw'.
  - exists x'. split; [done|]. split; [done|].
    intros Hptr o Hp Ho. specialize (Hoff Hptr o Hp Ho). split; [done|].
    intros Ho0 Hfit. rewrite Hoff. f_equal. apply u32_small. lia.
Qed.

Lemma Index_write_read_roundtrip_witness :
  ∃ x x', Index.run index16_offsets [Index.CallSetBinTypeSize 4; Index.CallResize 16]
            = Some x ∧
          Index.write x 1 70000 = Some x' ∧
          Index.get x' 1 = Some (70000 + 256).
Proof.
  destruct (Index_write_read_roundtrip index16_offsets 4 16)
    as (x & Hrun & _ & Hsize & Hrw); [right; right; reflexivity | lia |].
  destruct (Hrw 1 70000) as (x' & Hwrite & _ & Hoff);
    [rewrite Hsize; by vm_compute | by vm_compute |].
  exists x, x'. split; [exact Hrun|]. split; [exact Hwrite|].
  injection Hrun as <-.
  destruct (Hoff eq_refl 256) as [_ Hplain]; [simpl; lia | reflexivity |].
  apply Hplain; [lia | by vm_compute].
Defined.

(** The three widths, without offsets: the largest value of each width. *)
Example Index_roundtrip_widths :
  (x ← Index.run Index.new [Index.CallSetBinTypeSize 1; Index.CallResize 3];
   x' ← Index.write x 2 255; Index.get x' 2) = Some 255 ∧
  (x ← Index.run Index.new [Index.CallSetBinTypeSize 2; Index.CallResize 6];
   x' ← Index.write x 2 65535; Index.get x' 2) = Some 65535 ∧
  (x ← Index.run Index.new [Index.CallSetBinTypeSize 4; Index.CallResize 12];
   x' ← Index.write x 2 u32_max; Index.get x' 2) = Some u32_max.
Proof. by vm_compute. Qed.

(** C8 as the specification words it fails: the offset table is resized
    to 2 features and the data buffer to 3 one-byte elements; both calls
    succeed and leave 3 elements over 2 features. *)
Lemma Index_Resize_mismatch_accepted :
  ∃ x, Index.run Index.new [Index.CallResizeOffset 2; Index.CallResize 3] = Some x ∧
       Index.Size x = 3 ∧ Index.OffsetSize x = 2 ∧
       Index.same_topology x = false.
Proof. eexists. by vm_compute. Qed.

(** C8, as the code has it.  [Resize] and [ResizeOffset] accept every size
    and check nothing: [Resize] sets the length of the data buffer and
    leaves the offset table, its pointer and [p_] as they are;
    [ResizeOffset] sets the length of the offset table and [p_] and leaves
    the data buffer as it is. *)
Theorem Index_Resize_ResizeOffset_independent (x : Index.t) (n : Z) :
  Index.step x (Index.CallResize n) = Some (Index.Resize x n) ∧
  length (Index.data_ (Index.Resize x n)) = Z.to_nat n ∧
  Index.offset_ (Index.Resize x n) = Index.offset_ x ∧
  Index.offset_ptr_ (Index.Resize x n) = Index.offset_ptr_ x ∧
  Index.p_ (Index.Resize x n) = Index.p_ x ∧
  Index.step x (Index.CallResizeOffset n) = Some (Index.ResizeOffset x n) ∧
  length (Index.offset_ (Index.ResizeOffset x n)) = Z.to_nat n ∧
  Index.p_ (Index.ResizeOffset x n) = n ∧
  Index.data_ (Index.ResizeOffset x n) = Index.data_ x.
Proof.
  simpl. rewrite !length_resize. done.
Qed.

(** ** Binary search of a sparse row (claim C9) *)

Lemma usize_small (z : Z) : 0 ≤ z ≤ size_max → usize z = z.
Proof. unfold usize, size_max. intros ?. apply Z.mod_small. lia. Qed.

Lemma i32_of_u32_small (z : Z) : z < 2 ^ 31 → i32_of_u32 z = z.
Proof. intros ?. unfold i32_of_u32. by rewrite decide_True. Qed.

Lemma BinarySearchBin_loop_result data fidx_begin fidx_end fuel begin end_ prev :
  0 ≤ begin → begin ≤ end_ → end_ ≤ size_max →
  (Z.to_nat (end_ - begin) + 2 ≤ fuel)%nat ∨
  (end_ - begin = 1 ∧ prev = begin ∧ (1 ≤ fuel)%nat) ∨
  (end_ = begin ∧ (1 ≤ fuel)%nat) →
  ∃ r, BinarySearchBin_loop data fidx_begin fidx_end fuel begin end_ prev = Some r ∧
       BinarySearchBin_result data fidx_begin fidx_end begin end_ r.
Proof.
  revert begin end_ prev.
  induction fuel as [|fuel IH]; intros begin end_ prev Hb Hbe He Hfuel.
  { exfalso. lia. }
  simpl. case_decide as Hne; [|eexists; split; [done|by left]].
  assert (0 < end_ - begin) as Hlen by lia.
  pose proof (half_bounds _ Hlen) as Hh.
  rewrite (usize_small (end_ - begin)) by lia.
  rewrite usize_small by lia.
  set (middle := begin + (end_ - begin) / 2).
  case_decide as Hprev; [eexists; split; [done|by left]|].
  case_decide as Hin.
  { eexists; split; [done|]. right. exists middle. subst middle.
    split; [lia|]. split; [lia|done]. }
  assert ((end_ - begin = 1 → middle = begin) ∧
          (1 < end_ - begin → begin < middle)) as [Hone Hmore].
  { subst middle. split; intros Hl.
    - rewrite Hl. change (1 / 2) with 0. lia.
    - assert (1 ≤ (end_ - begin) / 2); [|lia].
      apply Z.div_le_lower_bound; lia. }
  case_decide as Hlt.
  - destruct (IH middle end_ middle) as (r & Hr & Hres); [lia | lia | lia | |].
    { destruct (decide (end_ - begin = 1)); [right; left|left]; lia. }
    exists r. split; [done|].
    destruct Hres as [->|(m & Hm & Hd & ->)]; [by left|].
    right. exists m. split; [lia|done].
  - destruct (IH begin middle middle) as (r & Hr & Hres); [lia | lia | lia | |].
    { destruct (decide (end_ - begin = 1)); [right; right|left]; lia. }
    exists r. split; [done|].
    destruct Hres as [->|(m & Hm & Hd & ->)]; [by left|].
    right. exists m. split; [lia|done].
Qed.

(** C9, as the code has it.  For [begin ≤ end_] the search terminates and
    returns -1 or the [int32_t] conversion of an element [gidx] of
    [data[begin, end_)] with [fidx_begin ≤ gidx < fidx_end]; when
    [fidx_end] is at most [2^31] the conversion changes nothing, the
    result is [gidx] itself and lies in [fidx_begin, fidx_end). *)
Theorem BinarySearchBin_terminates_in_range
    (begin end_ : Z) (data : Z → Z) (fidx_begin fidx_end : Z) :
  0 ≤ begin → begin ≤ end_ → end_ ≤ size_max →
  ∃ r, BinarySearchBin begin end_ data fidx_begin fidx_end = Some r ∧
    (r = -1 ∨
     ∃ m, begin ≤ m < end_ ∧ fidx_begin ≤ data m < fidx_end ∧
          r = i32_of_u32 (data m)) ∧
    (fidx_end ≤ 2 ^ 31 →
     r = -1 ∨ (fidx_begin ≤ r < fidx_end ∧ ∃ m, begin ≤ m < end_ ∧ data m = r)).
Proof.
  intros Hb Hbe He.
  destruct (BinarySearchBin_loop_result data fidx_begin fidx_end
              (Z.to_nat (end_ - begin) + 2) begin end_ size_max)
    as (r & Hr & Hres); [done.. | left; lia |].
  exists r. split; [exact Hr|]. split; [exact Hres|].
  intros Hfe. destruct Hres as [->|(m & Hm & Hd & ->)]; [by left|].
  right. rewrite i32_of_u32_small by lia. split; [done|]. by exists m.
Qed.

Lemma BinarySearchBin_terminates_in_range_witness :
  ∃ r, BinarySearchBin 0 4 (λ i, 10 * i) 15 25 = Some r ∧
    (r = -1 ∨
     ∃ m, 0 ≤ m < 4 ∧ 15 ≤ 10 * m < 25 ∧ r = i32_of_u32 (10 * m)) ∧
    (25 ≤ 2 ^ 31 →
     r = -1 ∨ (15 ≤ r < 25 ∧ ∃ m, 0 ≤ m < 4 ∧ 10 * m = r)).
Proof.
  apply (BinarySearchBin_terminates_in_range 0 4 (λ i, 10 * i) 15 25);
    [lia | lia | by vm_compute].
Defined.

(** C9 as the specification words it fails for bin indices from [2^31]
    on: the conversion to [int32_t] makes them negative. *)
Lemma BinarySearchBin_large_index_negative :
  ∃ r, BinarySearchBin 0 1 (λ _, 2 ^ 31) (2 ^ 31) (2 ^ 31 + 1) = Some r ∧
       r ≠ -1 ∧ ¬ (2 ^ 31 ≤ r < 2 ^ 31 + 1).
Proof. exists (- 2 ^ 31). split; [by vm_compute|]. lia. Qed.

(** ** Histogram collection (claim C6) *)

Section HistCollectionFacts.
Context {GP : Type} `{GradientPairOps GP}.
Implicit Types c : HistCollection.t GP.

Lemma at_Some_range {A} (l : list A) (i : Z) (x : A) :
  at_ l i = Some x → 0 ≤ i < Z.of_nat (length l).
Proof.
  unfold at_. case_decide; [|done]. intros Hl%lookup_lt_Some. lia.
Qed.

Lemma HistCollection_Init_inv c nbins :
  HistCollection_inv nbins (HistCollection.Init c nbins).
Proof. split; [done|]. simpl. by vm_compute. Qed.

Lemma HistCollection_AddHistRow_inv nbins c c' nid :
  HistCollection_inv nbins c → HistCollection.AddHistRow c nid = Some c' →
  HistCollection_inv nbins c' ∧ 0 ≤ nid < u32_max.
Proof.
  intros [Hn Hlen]. unfold HistCollection.AddHistRow.
  destruct (at_ _ nid) as [r|] eqn:Hr; simpl; [|done].
  destruct (decide (r = HistCollection.kMax)); [|done]. intros [= <-].
  apply at_Some_range in Hr. pose proof (u32_range (nid + 1)).
  unfold HistCollection_inv. simpl. rewrite length_insert.
  case_decide; rewrite ?length_resize in *; lia.
Qed.

Lemma HistCollection_step_inv nbins c c' k :
  HistCollection_inv nbins c → HistCollection.step c k = Some c' →
  HistCollection_inv nbins c'.
Proof.
  intros Hinv. destruct k as [nid|nid|]; simpl.
  - intros Hadd. by destruct (HistCollection_AddHistRow_inv nbins c c' nid).
  - unfold HistCollection.AllocateData.
    destruct (at_ _ nid) as [r|]; simpl; [|done].
    destruct (at_ _ r) as [d|]; simpl; [|done].
    case_decide; intros [= <-]; done.
  - unfold HistCollection.AllocateAllData.
    destruct (_ !! 0%nat); simpl; [|done]. intros [= <-]. done.
Qed.

Lemma HistCollection_run_inv nbins c c' ks :
  HistCollection_inv nbins c → HistCollection.run c ks = Some c' →
  HistCollection_inv nbins c' ∧
  ∀ nid, HistCollection.CallAddHistRow nid ∈ ks → 0 ≤ nid < u32_max.
Proof.
  revert c. induction ks as [|k ks IH]; intros c Hinv; simpl.
  - intros [= <-]. split; [done|]. intros nid Hin. inversion Hin.
  - destruct (HistCollection.step c k) as [c1|] eqn:Hstep; simpl; [|done].
    intros Hrun.
    destruct (IH c1 (HistCollection_step_inv _ _ _ _ Hinv Hstep) Hrun) as [Hinv' Hks].
    split; [done|]. intros nid [Heq|Hin]%elem_of_cons; [subst k|by apply Hks].
    simpl in Hstep. by destruct (HistCollection_AddHistRow_inv nbins c c1 nid).
Qed.

Lemma HistCollection_AddHistRow_fresh c nid :
  HistCollection.row_ptr_ c = [] → HistCollection.n_nodes_added_ c = 0 →
  0 ≤ nid < u32_max →
  ∃ c', HistCollection.AddHistRow c nid = Some c' ∧
        HistCollection.RowExists c' nid = true.
Proof.
  intros Hrow Hadded Hnid. unfold HistCollection.AddHistRow.
  rewrite Hrow, Hadded. simpl.
  destruct (decide (Z.of_nat 0 ≤ nid)); [|lia].
  assert (u32 (nid + 1) = nid + 1) as -> by (apply u32_small; lia).
  assert (Z.to_nat nid < length (replicate (Z.to_nat (nid + 1)) HistCollection.kMax))%nat
    as Hlt by (rewrite length_replicate; lia).
  rewrite resize_nil.
  assert (at_ (replicate (Z.to_nat (nid + 1)) HistCollection.kMax) nid
          = Some HistCollection.kMax) as ->.
  { unfold at_. rewrite decide_True by lia. apply lookup_replicate_2. lia. }
  simpl. destruct (decide (HistCollection.kMax = HistCollection.kMax)); [|done].
  eexists. split; [done|].
  unfold HistCollection.RowExists. simpl.
  apply bool_decide_eq_true. rewrite length_insert. split; [lia|].
  rewrite list_lookup_total_insert_eq by done. by vm_compute.
Qed.

(** C6.  [Init nbins], any calls on the collection, and [Init nbins]
    again: the second [Init] leaves the backing storage [data_] as it is,
    no node (an unsigned id) has a row any more, and every node added in
    between can be added again. *)
Theorem HistCollection_Init_twice c0 nbins ks c2 :
  HistCollection.run (HistCollection.Init c0 nbins) ks = Some c2 →
  let c3 := HistCollection.Init c2 nbins in
  HistCollection.data_ c3 = HistCollection.data_ c2 ∧
  (∀ nid, 0 ≤ nid → HistCollection.RowExists c3 nid = false) ∧
  (∀ nid, HistCollection.CallAddHistRow nid ∈ ks →
     ∃ c4, HistCollection.AddHistRow c3 nid = Some c4 ∧
           HistCollection.RowExists c4 nid = true).
Proof.
  intros Hrun c3.
  destruct (HistCollection_run_inv nbins _ _ _
              (HistCollection_Init_inv c0 nbins) Hrun) as [[Hn _] Hks].
  split; [|split].
  - simpl. by rewrite decide_False by (by rewrite Hn; intros []).
  - intros nid Hnid. apply bool_decide_eq_false. simpl. lia.
  - intros nid Hin. by apply HistCollection_AddHistRow_fresh; [| |apply Hks].
Qed.

End HistCollectionFacts.

Lemma HistCollection_Init_twice_witness :
  ∃ c2 : HistCollection.t (Z * Z),
    HistCollection.run (HistCollection.Init HistCollection.new 4)
      hist_calls_example = Some c2 ∧
    HistCollection.data_ c2 = [[(0, 0); (0, 0); (0, 0); (0, 0)]; []; []] ∧
    HistCollection.data_ (HistCollection.Init c2 4) = HistCollection.data_ c2 ∧
    (∀ nid, 0 ≤ nid →
       HistCollection.RowExists (HistCollection.Init c2 4) nid = false) ∧
    (∀ nid, HistCollection.CallAddHistRow nid ∈ hist_calls_example →
       ∃ c4, HistCollection.AddHistRow (HistCollection.Init c2 4) nid = Some c4 ∧
             HistCollection.RowExists c4 nid = true).
Proof.
  eexists. split; [by vm_compute|]. split; [reflexivity|].
  apply (HistCollection_Init_twice HistCollection.new 4 hist_calls_example).
  by vm_compute.
Defined.

(** ** Parallel histogram builder: Reset (claim C5) *)

Section ResetFacts.
Context {GP : Type} `{GradientPairOps GP}.
Implicit Types b : ParallelGHistBuilder.t GP.
Implicit Types m : gmap (nat * nat) Z.

Lemma count_fold (P : nat → bool) (l : list nat) (n : nat) :
  foldl (λ n tid, if P tid then S n else n) n l = (n + length (filter P l))%nat.
Proof.
  revert n. induction l as [|x l IH]; intros n; simpl; [lia|].
  rewrite IH. destruct (P x) eqn:Hx.
  - rewrite filter_cons_True by (by rewrite Hx). simpl. lia.
  - rewrite filter_cons_False by (rewrite Hx; by intros []). done.
Qed.

Lemma nthreads_for_nid_touching b nid :
  ParallelGHistBuilder.nthreads_for_nid b nid = length (touching b nid).
Proof. unfold ParallelGHistBuilder.nthreads_for_nid. by rewrite count_fold. Qed.

Lemma match_thread_fold b nid l m n fh :
  foldl (ParallelGHistBuilder.match_thread b nid) (m, n, fh) l =
  (assign_node nid (filter (λ tid, ParallelGHistBuilder.touches b tid nid) l) m n fh,
   fh && bool_decide (filter (λ tid, ParallelGHistBuilder.touches b tid nid) l = [])).
Proof.
  revert m n fh. induction l as [|x l IH]; intros m n fh; simpl.
  { by rewrite andb_true_r. }
  destruct (ParallelGHistBuilder.touches b x nid) eqn:Hx.
  - rewrite filter_cons_True by (by rewrite Hx).
    destruct fh; rewrite IH; simpl.
    + destruct (filter _ l); done.
    + destruct (filter _ l); done.
  - rewrite filter_cons_False by (rewrite Hx; by intros []). apply IH.
Qed.


Lemma scratch_inv_insert_sentinel m n k :
  scratch_inv m n → scratch_inv (<[k := -1]> m) n.
Proof.
  intros [Hrange Hinj]. split.
  - intros k' v. rewrite lookup_insert. case_decide.
    + intros [= <-]. by left.
    + apply Hrange.
  - intros k1 k2 v Hv. rewrite !lookup_insert. repeat case_decide.
    + intros [= <-]. lia.
    + intros [= <-]. lia.
    + intros _ [= <-]. lia.
    + by apply Hinj.
Qed.

Lemma scratch_inv_insert_next m n k :
  scratch_inv m n → scratch_inv (<[k := Z.of_nat n]> m) (S n).
Proof.
  intros [Hrange Hinj]. split.
  - intros k' v. rewrite lookup_insert. case_decide.
    + intros [= <-]. right. lia.
    + intros Hk'. destruct (Hrange _ _ Hk'); [by left|right; lia].
  - intros k1 k2 v Hv. rewrite !lookup_insert. repeat case_decide.
    + congruence.
    + intros [= <-] Hk2. destruct (Hrange _ _ Hk2); lia.
    + intros Hk1 [= <-]. destruct (Hrange _ _ Hk1); lia.
    + by apply Hinj.
Qed.

Lemma assign_rest_spec nid ts m n :
  scratch_inv m n →
  let r := assign_rest nid ts m n in
  scratch_inv r.1 r.2 ∧
  r.2 = (n + length ts)%nat ∧
  (∀ t nid', (nid' ≠ nid ∨ t ∉ ts) → r.1 !! (t, nid') = m !! (t, nid')) ∧
  (∀ t, t ∈ ts → ∃ v, r.1 !! (t, nid) = Some v ∧ 0 ≤ v).
Proof.
  revert m n. induction ts as [|t0 ts IH]; intros m n Hinv; simpl.
  { split; [done|]. split; [lia|]. split; [done|]. intros t Ht. inversion Ht. }
  destruct (IH (<[(t0, nid) := Z.of_nat n]> m) (S n)
              (scratch_inv_insert_next _ _ _ Hinv)) as (Hinv' & Hn & Hother & Hin).
  split; [done|]. split; [lia|]. split.
  - intros t nid' Hne. rewrite Hother.
    + apply lookup_insert_ne. intros [= -> ->].
      destruct Hne as [?|Hne]; [done|]. apply Hne. by left.
    + destruct Hne as [?|Hne]; [by left|right]. intros ?. apply Hne. by right.
  - intros t Ht. destruct (decide (t ∈ ts)) as [Hts|Hts]; [by apply Hin|].
    apply elem_of_cons in Ht as [->|?]; [|done].
    rewrite Hother by (by right). rewrite lookup_insert_eq.
    eexists; split; [done|lia].
Qed.


Lemma assign_node_spec nid ts m n :
  NoDup ts → scratch_inv m n → (∀ t, m !! (t, nid) = None) →
  let r := assign_node nid ts m n true in
  scratch_inv r.1 r.2 ∧
  r.2 = (n + (length ts - 1))%nat ∧
  (∀ t nid', nid' ≠ nid → r.1 !! (t, nid') = m !! (t, nid')) ∧
  node_assigned r.1 ts nid.
Proof.
  intros Hnd Hinv Hfresh. destruct ts as [|t0 rest]; simpl.
  { split; [done|]. split; [lia|]. split; [done|]. split; [done|]. intros; apply Hfresh. }
  apply NoDup_cons in Hnd as [Ht0 Hnd].
  destruct (assign_rest_spec nid rest (<[(t0, nid) := -1]> m) n
              (scratch_inv_insert_sentinel _ _ _ Hinv)) as (Hinv' & Hn & Hother & Hin).
  split; [done|]. split; [lia|]. split; [|split; [split|]].
  - intros t nid' Hne. rewrite Hother by (by left).
    apply lookup_insert_ne. congruence.
  - rewrite Hother by (by right). apply lookup_insert_eq.
  - done.
  - intros t Ht. apply not_elem_of_cons in Ht as [Hne Ht].
    rewrite Hother by (by right). rewrite lookup_insert_ne by congruence.
    apply Hfresh.
Qed.

Lemma match_node_assign b m n nid :
  ParallelGHistBuilder.match_node b (m, n) nid =
  assign_node nid (touching b nid) m n true.
Proof.
  unfold ParallelGHistBuilder.match_node. simpl. by rewrite match_thread_fold.
Qed.

Lemma NoDup_touching b nid : NoDup (touching b nid).
Proof. apply NoDup_filter, NoDup_seq. Qed.

Lemma match_node_fold b l m n :
  NoDup l → scratch_inv m n → (∀ t nid, nid ∈ l → m !! (t, nid) = None) →
  let r := foldl (ParallelGHistBuilder.match_node b) (m, n) l in
  scratch_inv r.1 r.2 ∧
  r.2 = foldl (λ a nid, (a + (ParallelGHistBuilder.nthreads_for_nid b nid - 1))%nat) n l ∧
  (∀ t nid, nid ∉ l → r.1 !! (t, nid) = m !! (t, nid)) ∧
  (∀ nid, nid ∈ l → node_assigned r.1 (touching b nid) nid).
Proof.
  revert m n. induction l as [|nid0 l IH]; intros m n Hnd Hinv Hfresh; simpl.
  { split; [done|]. split; [done|]. split; [done|]. intros nid Hin. inversion Hin. }
  apply NoDup_cons in Hnd as [Hnid0 Hnd].
  rewrite match_node_assign.
  destruct (assign_node_spec nid0 (touching b nid0) m n (NoDup_touching b nid0) Hinv)
    as (Hinv1 & Hn1 & Hother1 & Hassigned1).
  { intros t. apply Hfresh. by left. }
  destruct (assign_node nid0 (touching b nid0) m n true) as [m1 n1] eqn:Hr1.
  simpl in *.
  destruct (IH m1 n1 Hnd Hinv1) as (Hinv2 & Hn2 & Hother2 & Hassigned2).
  { intros t nid Hin. rewrite Hother1 by (intros ->; done).
    apply Hfresh. by right. }
  split; [done|]. split.
  { rewrite Hn2, Hn1, nthreads_for_nid_touching. done. }
  split.
  - intros t nid Hnid. apply not_elem_of_cons in Hnid as [Hne Hnid].
    rewrite Hother2 by done. by apply Hother1.
  - intros nid Hin. destruct (decide (nid ∈ l)) as [Hl|Hl]; [by apply Hassigned2|].
    apply elem_of_cons in Hin as [->|?]; [|done].
    unfold node_assigned in *. destruct Hassigned1 as [Hts Hnone].
    split.
    + destruct (touching b nid0) as [|t0 rest]; [done|].
      destruct Hts as [Hfirst Hrest]. split.
      * by rewrite Hother2.
      * intros t Ht. rewrite Hother2 by done. by apply Hrest.
    + intros t Ht. rewrite Hother2 by done. by apply Hnone.
Qed.


Lemma AddHistRow_next (hb : HistCollection.t GP) (k : nat) :
  buffer_rows hb k → Z.of_nat k < u32_max →
  ∃ hb', HistCollection.AddHistRow hb (u32 (Z.of_nat k)) = Some hb' ∧
    buffer_rows hb' (S k) ∧
    HistCollection.nbins_ hb' = HistCollection.nbins_ hb ∧
    HistCollection.contiguous_allocation_ hb' = HistCollection.contiguous_allocation_ hb ∧
    HistCollection.data_ hb' =
      (if decide (length (HistCollection.data_ hb) < S k)%nat
       then resize (S k) [] (HistCollection.data_ hb)
       else HistCollection.data_ hb).
Proof.
  intros [Hrow Hadded] Hk. unfold HistCollection.AddHistRow.
  rewrite (u32_small (Z.of_nat k)) by lia.
  rewrite (u32_small (Z.of_nat k + 1)) by lia.
  rewrite Hrow, length_fmap, length_seq.
  destruct (decide (Z.of_nat k ≤ Z.of_nat k)); [|lia].
  replace (Z.to_nat (Z.of_nat k + 1)) with (S k) by lia.
  rewrite (resize_ge (Z.of_nat <$> seq 0 k))
    by (rewrite length_fmap, length_seq; lia).
  rewrite length_fmap, length_seq. replace (S k - k)%nat with 1%nat by lia.
  assert (at_ ((Z.of_nat <$> seq 0 k) ++ replicate 1 HistCollection.kMax) (Z.of_nat k)
          = Some HistCollection.kMax) as ->.
  { unfold at_. rewrite decide_True by lia. rewrite Nat2Z.id.
    rewrite lookup_app_r by (rewrite length_fmap, length_seq; lia).
    rewrite length_fmap, length_seq. by rewrite Nat.sub_diag. }
  simpl. destruct (decide (HistCollection.kMax = HistCollection.kMax)); [|done].
  eexists. split; [reflexivity|].
  unfold buffer_rows.
  cbn [HistCollection.row_ptr_ HistCollection.n_nodes_added_ HistCollection.nbins_
       HistCollection.contiguous_allocation_ HistCollection.data_].
  split; [split|].
  - rewrite Nat2Z.id.
    replace k with (length (Z.of_nat <$> seq 0 k) + 0)%nat at 1
      by (rewrite length_fmap, length_seq; lia).
    rewrite insert_app_r. cbn [replicate]. rewrite Hadded.
    rewrite seq_S, fmap_app. done.
  - rewrite Hadded. rewrite u32_small by lia. lia.
  - split; [done|]. split; [done|].
    destruct (decide (Z.of_nat (length (HistCollection.data_ hb)) < Z.of_nat k + 1));
      destruct (decide (length (HistCollection.data_ hb) < S k)%nat); try lia; done.
Qed.

Lemma Forall_resize_nil (P : list GP → Prop) (data : list (list GP)) (n : nat) :
  P [] → Forall P data → Forall P (resize n [] data).
Proof.
  intros Hnil Hdata. rewrite resize_spec.
  apply Forall_app. split; [by apply Forall_take|].
  by apply Forall_replicate.
Qed.

Lemma add_hist_rows_spec (P : list GP → Prop) (hb : HistCollection.t GP) (k j : nat) :
  P [] →
  buffer_rows hb k → Z.of_nat (k + j) ≤ u32_max →
  Forall P (HistCollection.data_ hb) →
  ∃ hb', ParallelGHistBuilder.add_hist_rows hb (seq k j) = Some hb' ∧
    buffer_rows hb' (k + j) ∧
    HistCollection.nbins_ hb' = HistCollection.nbins_ hb ∧
    HistCollection.contiguous_allocation_ hb' = HistCollection.contiguous_allocation_ hb ∧
    Forall P (HistCollection.data_ hb') ∧
    (length (HistCollection.data_ hb) ≤ length (HistCollection.data_ hb'))%nat ∧
    (j = 0 ∨ k + j ≤ length (HistCollection.data_ hb'))%nat.
Proof.
  intros Hnil.
  revert hb k. induction j as [|j IH]; intros hb k Hrows Hk Hdata; simpl.
  { exists hb. rewrite Nat.add_0_r. repeat split; try done; try apply Hrows. by left. }
  destruct (AddHistRow_next hb k Hrows) as (hb1 & Hadd & Hrows1 & Hn1 & Hc1 & Hd1); [lia|].
  rewrite Hadd. simpl.
  assert (length (HistCollection.data_ hb) ≤ length (HistCollection.data_ hb1) ∧
          S k ≤ length (HistCollection.data_ hb1))%nat as [Hle1 Hk1].
  { rewrite Hd1. case_decide; rewrite ?length_resize; lia. }
  destruct (IH hb1 (S k) Hrows1)
    as (hb2 & Hadd2 & Hrows2 & Hn2 & Hc2 & Hd2 & Hle2 & Hlen2); [lia| |].
  { rewrite Hd1. case_decide; [by apply Forall_resize_nil|done]. }
  rewrite Hadd2.
  exists hb2. replace (k + S j)%nat with (S k + j)%nat by lia.
  split; [done|]. split; [done|]. split; [congruence|]. split; [congruence|].
  split; [done|]. split; [lia|]. right. lia.
Qed.


Lemma hist_allocated_fold_bound b (l : list nat) (n : nat) :
  (foldl (λ a nid, (a + (ParallelGHistBuilder.nthreads_for_nid b nid - 1))%nat) n l
   ≤ n + ParallelGHistBuilder.nthreads_ b * length l)%nat.
Proof.
  revert n. induction l as [|nid l IH]; intros n; simpl; [lia|].
  etrans; [apply IH|].
  assert (ParallelGHistBuilder.nthreads_for_nid b nid ≤ ParallelGHistBuilder.nthreads_ b)%nat.
  { rewrite nthreads_for_nid_touching. unfold touching.
    etrans; [apply length_filter|]. by rewrite length_seq. }
  lia.
Qed.

Lemma hist_allocated_bound b :
  (ParallelGHistBuilder.hist_allocated_additionally b
   ≤ ParallelGHistBuilder.nthreads_ b * ParallelGHistBuilder.nodes_ b)%nat.
Proof.
  unfold ParallelGHistBuilder.hist_allocated_additionally.
  etrans; [apply hist_allocated_fold_bound|]. rewrite length_seq. lia.
Qed.

Lemma scratch_inv_empty : scratch_inv ∅ 0.
Proof. split; intros *; by rewrite ?lookup_empty. Qed.

(** The state [Reset] builds. *)
Lemma Reset_spec (P : list GP → Prop) b (nthreads nodes : nat) (space : list Block)
    (targeted_hists : list GHistRow) :
  nthreads ≠ 0%nat → nodes = length targeted_hists →
  Z.of_nat (nthreads * nodes) ≤ u32_max →
  P [] →
  (HistCollection.nbins_ (ParallelGHistBuilder.hist_buffer_ b)
     = u32 (ParallelGHistBuilder.nbins_ b) →
   Forall P (HistCollection.data_ (ParallelGHistBuilder.hist_buffer_ b))) →
  ∃ b', ParallelGHistBuilder.Reset b nthreads nodes space targeted_hists = Some b' ∧
    ParallelGHistBuilder.nbins_ b' = ParallelGHistBuilder.nbins_ b ∧
    ParallelGHistBuilder.nthreads_ b' = nthreads ∧
    ParallelGHistBuilder.nodes_ b' = nodes ∧
    ParallelGHistBuilder.targeted_hists_ b' = targeted_hists ∧
    ParallelGHistBuilder.hist_was_used_ b' = replicate (nthreads * nodes) false ∧
    ParallelGHistBuilder.threads_to_nids_map_ b' =
      foldl (ParallelGHistBuilder.mark_thread nodes space
               (chunck_size (length space) nthreads))
        (replicate (nthreads * nodes) false) (seq 0 nthreads) ∧
    let total := ParallelGHistBuilder.hist_allocated_additionally b' in
    let hb := ParallelGHistBuilder.hist_buffer_ b' in
    let m := ParallelGHistBuilder.tid_nid_to_hist_ b' in
    buffer_rows hb total ∧
    HistCollection.nbins_ hb = u32 (ParallelGHistBuilder.nbins_ b) ∧
    HistCollection.contiguous_allocation_ hb =
      HistCollection.contiguous_allocation_ (ParallelGHistBuilder.hist_buffer_ b) ∧
    Forall P (HistCollection.data_ hb) ∧
    (total ≤ length (HistCollection.data_ hb))%nat ∧
    scratch_inv m total ∧
    (∀ nid, (nid < nodes)%nat → node_assigned m (touching b' nid) nid) ∧
    (∀ t nid, (nodes ≤ nid)%nat → m !! (t, nid) = None).
Proof.
  intros HT HN Hbound Hnil Hdata. unfold ParallelGHistBuilder.Reset.
  rewrite decide_True by done.
  unfold ParallelGHistBuilder.MatchThreadsToNodes.
  cbn [ParallelGHistBuilder.nthreads_ ParallelGHistBuilder.nodes_
       ParallelGHistBuilder.threads_to_nids_map_].
  rewrite decide_False by done. rewrite resize_nil.
  cbn [mbind option_bind].
  set (b2 := ParallelGHistBuilder.set_threads_to_nids_map _ _).
  unfold ParallelGHistBuilder.AllocateAdditionalHistograms.
  pose proof (hist_allocated_bound b2) as Htotal.
  destruct (add_hist_rows_spec P (ParallelGHistBuilder.hist_buffer_ b2) 0
              (ParallelGHistBuilder.hist_allocated_additionally b2) Hnil)
    as (hb & Hadd & Hrows & Hnb & Hc & HP & Hle & Hlen).
  { split; reflexivity. }
  { rewrite Nat.add_0_l. etrans; [|exact Hbound]. apply Nat2Z.inj_le. exact Htotal. }
  { subst b2. simpl. case_decide as Hn; [constructor|].
    apply Hdata. by destruct (decide (HistCollection.nbins_ (ParallelGHistBuilder.hist_buffer_ b) = u32 (ParallelGHistBuilder.nbins_ b))). }
  rewrite Hadd. cbn [mbind option_bind].
  eexists. split; [reflexivity|].
  destruct (match_node_fold (ParallelGHistBuilder.set_hist_buffer b2 hb)
              (seq 0 nodes) ∅ 0%nat (NoDup_seq 0 nodes) scratch_inv_empty)
    as (Hinv & Hn & Hother & Hassigned).
  { intros. apply lookup_empty. }
  split; [done|]. split; [done|]. split; [done|]. split; [done|].
  split; [done|]. split; [done|].
  cbv zeta.
  split; [exact Hrows|]. split; [exact Hnb|]. split; [exact Hc|].
  split; [exact HP|]. split.
  { change (ParallelGHistBuilder.hist_allocated_additionally b2
            ≤ length (HistCollection.data_ hb))%nat.
    destruct Hlen as [Hz|?]; lia. }
  split.
  { rewrite Hn in Hinv. exact Hinv. }
  split.
  - intros nid Hnid. apply Hassigned. apply elem_of_seq. lia.
  - intros t nid Hnid. simpl. rewrite Hother; [apply lookup_empty|].
    rewrite elem_of_seq. lia.
Qed.


Lemma filter_seq_head (P : nat → bool) (a n t0 : nat) (rest : list nat) :
  filter P (seq a n) = t0 :: rest →
  P t0 = true ∧ (a ≤ t0 < a + n)%nat ∧ ∀ t, (a ≤ t < t0)%nat → P t = false.
Proof.
  revert a. induction n as [|n IH]; intros a; simpl; [done|].
  destruct (P a) eqn:Ha.
  - rewrite filter_cons_True by (by rewrite Ha). intros [= <- <-].
    split; [done|]. split; [lia|]. intros; lia.
  - rewrite filter_cons_False by (rewrite Ha; by intros []). intros Hf.
    destruct (IH _ Hf) as (Ht0 & Hr & Hlt). split; [done|]. split; [lia|].
    intros t Ht. destruct (decide (t = a)) as [->|]; [done|]. apply Hlt. lia.
Qed.

(** C5, as the code has it.  After [Reset], for every node: when no thread
    touches it, no (thread, node) pair has a row; otherwise the first
    (smallest) touching thread, and only this one, maps to the sentinel
    -1, and each of the other [count - 1] touching threads maps to a
    scratch row that [AllocateAdditionalHistograms] has reserved.  The
    scratch rows of different pairs are different, and the number of rows
    reserved is the sum over the nodes of [max(0, count - 1)]. *)
Theorem Reset_thread_node_assignment b (nthreads nodes : nat)
    (space : list Block) (targeted_hists : list GHistRow) :
  nthreads ≠ 0%nat → nodes = length targeted_hists →
  Z.of_nat (nthreads * nodes) ≤ u32_max →
  ∃ b', ParallelGHistBuilder.Reset b nthreads nodes space targeted_hists = Some b' ∧
    let m := ParallelGHistBuilder.tid_nid_to_hist_ b' in
    let reserved :=
      HistCollection.n_nodes_added_ (ParallelGHistBuilder.hist_buffer_ b') in
    (∀ nid, (nid < nodes)%nat →
       match touching b' nid with
       | [] => ∀ tid, m !! (tid, nid) = None
       | t0 :: rest =>
           (∀ t, (t < t0)%nat → ParallelGHistBuilder.touches b' t nid = false) ∧
           m !! (t0, nid) = Some (-1) ∧
           (∀ tid, m !! (tid, nid) = Some (-1) → tid = t0) ∧
           (∀ tid, tid ∈ rest → ∃ v, m !! (tid, nid) = Some v ∧ 0 ≤ v < reserved) ∧
           (∀ tid, tid ∉ t0 :: rest → m !! (tid, nid) = None) ∧
           length rest = (ParallelGHistBuilder.nthreads_for_nid b' nid - 1)%nat
       end) ∧
    (∀ k1 k2 v, 0 ≤ v → m !! k1 = Some v → m !! k2 = Some v → k1 = k2) ∧
    reserved =
      Z.of_nat (foldl (λ a nid, (a + (ParallelGHistBuilder.nthreads_for_nid b' nid - 1))%nat)
                  0%nat (seq 0 nodes)).
Proof.
  intros HT HN Hbound.
  destruct (Reset_spec (λ _, True) b nthreads nodes space targeted_hists)
    as (b' & HReset & _ & HT' & HN' & _ & _ & _ & Hspec); [done..| |].
  { intros _. by apply Forall_true. }
  cbv zeta in Hspec.
  destruct Hspec as ([_ Hadded] & _ & _ & _ & _ & [Hrange Hinj] & Hassigned & _).
  exists b'. split; [exact HReset|]. cbv zeta. split; [|split; [exact Hinj|]].
  - intros nid Hnid. specialize (Hassigned nid Hnid).
    pose proof (nthreads_for_nid_touching b' nid) as Hcount.
    unfold node_assigned in Hassigned.
    destruct (touching b' nid) as [|t0 rest] eqn:Hts.
    { destruct Hassigned as [_ Hnone]. intros tid. apply Hnone. inversion 1. }
    destruct Hassigned as [[Hfirst Hrest] Hnone].
    destruct (filter_seq_head _ _ _ _ _ Hts) as (_ & _ & Hlt).
    split; [intros t Ht; apply Hlt; lia|]. split; [exact Hfirst|]. split; [|split; [|split]].
    + intros tid Htid. destruct (decide (tid = t0)) as [|Hne]; [done|].
      destruct (decide (tid ∈ rest)) as [Hin|Hnin].
      * destruct (Hrest tid Hin) as (v & Hv & Hv0). rewrite Hv in Htid.
        injection Htid as ->. lia.
      * rewrite Hnone in Htid; [done|]. by apply not_elem_of_cons.
    + intros tid Hin. destruct (Hrest tid Hin) as (v & Hv & Hv0).
      exists v. split; [done|]. rewrite Hadded.
      destruct (Hrange _ _ Hv); lia.
    + exact Hnone.
    + rewrite Hcount. simpl. lia.
  - rewrite Hadded. f_equal. unfold ParallelGHistBuilder.hist_allocated_additionally.
    by rewrite HN'.
Qed.

End ResetFacts.

Lemma Reset_thread_node_assignment_witness :
  ∃ b' : ParallelGHistBuilder.t (Z * Z),
    ParallelGHistBuilder.Reset builder4
      2 2 space_node1 (caller_targets 2 4) = Some b' ∧
    ParallelGHistBuilder.tid_nid_to_hist_ b' !! (0%nat, 1%nat) = Some (-1) ∧
    ParallelGHistBuilder.tid_nid_to_hist_ b' !! (1%nat, 1%nat) = Some 0.
Proof.
  destruct (Reset_thread_node_assignment
              builder4
              2 2 space_node1 (caller_targets 2 4))
    as (b' & HReset & _); [done | done | by vm_compute |].
  exists b'. split; [exact HReset|].
  vm_compute in HReset. injection HReset as <-. by vm_compute.
Defined.

(** C5 as the specification words it fails for a node that no thread
    touches: node 0 has no rows in the work space, and after [Reset] no
    pair of node 0 maps to -1. *)
Lemma Reset_untouched_node_no_sentinel :
  ∃ b' : ParallelGHistBuilder.t (Z * Z),
    ParallelGHistBuilder.Reset builder4
      2 2 space_node1 (caller_targets 2 4) = Some b' ∧
    ∀ tid, ParallelGHistBuilder.tid_nid_to_hist_ b' !! (tid, 0%nat) ≠ Some (-1).
Proof.
  destruct (Reset_spec (λ _, True)
              builder4
              2 2 space_node1 (caller_targets 2 4))
    as (b' & HReset & _ & _ & _ & _ & _ & Hmap & Hspec);
    [done | done | by vm_compute | done | intros _; by apply Forall_true |].
  cbv zeta in Hspec. destruct Hspec as (_ & _ & _ & _ & _ & _ & Hassigned & _).
  exists b'. split; [exact HReset|]. intros tid.
  destruct (Hassigned 0%nat) as [_ Hnone]; [lia|].
  assert (touching b' 0 = []) as Hts.
  { vm_compute in HReset. injection HReset as <-. by vm_compute. }
  rewrite Hnone; [done|]. rewrite Hts. inversion 1.
Qed.

(** ** Parallel histogram builder: memory of the histogram rows *)

Section MemoryFacts.
Context {GP : Type} `{GradientPairOps GP}.
Implicit Types m : Mem GP.

Lemma mem_array_set_eq m a l :
  is_Some (mem_array m a) → mem_array (mem_set_array m a l) a = Some l.
Proof.
  destruct a as [r|k]; simpl; intros [x Hx];
    apply list_lookup_insert_eq; by eapply lookup_lt_Some.
Qed.

Lemma mem_array_set_ne m a a' l :
  a ≠ a' → mem_array (mem_set_array m a l) a' = mem_array m a'.
Proof.
  destruct a as [r|k], a' as [r'|k']; simpl; intros Hne; try done;
    apply list_lookup_insert_ne; congruence.
Qed.

Lemma length_add_row gpair gmat (hist : list GP) row :
  length (add_row gpair gmat hist row) = length hist.
Proof.
  unfold add_row. generalize (gmat row). intros bins. revert hist.
  induction bins as [|bin bins IH]; intros hist; simpl; [done|].
  rewrite IH. apply length_alter.
Qed.

Lemma length_build_rows gpair gmat (hist : list GP) rows :
  length (build_rows gpair gmat hist rows) = length hist.
Proof.
  unfold build_rows. revert hist.
  induction rows as [|row rows IH]; intros hist; simpl; [done|].
  rewrite IH. apply length_add_row.
Qed.

Lemma build_rows_app gpair gmat (hist : list GP) rows1 rows2 :
  build_rows gpair gmat hist (rows1 ++ rows2) =
  build_rows gpair gmat (build_rows gpair gmat hist rows1) rows2.
Proof. unfold build_rows. apply foldl_app. Qed.

Lemma list_inserts_all {A} (l k : list A) :
  length k = length l → list_inserts 0 k l = k.
Proof.
  intros Hlen. rewrite <- (app_nil_r k) at 1.
  apply list_inserts_0_l. done.
Qed.

Lemma take_drop_all {A} (l : list A) (n : nat) :
  length l = n → take n (drop 0 l) = l.
Proof. intros <-. rewrite drop_0. apply firstn_all. Qed.

Lemma InitilizeHistByZeroes_whole m a (row : list GP) nbins :
  mem_array m a = Some row → length row = nbins →
  InitilizeHistByZeroes m (whole_row a nbins) 0 nbins =
  Some (mem_set_array m a (replicate nbins gp_zero)).
Proof.
  intros Ha Hlen. unfold InitilizeHistByZeroes. simpl. rewrite Ha. simpl.
  rewrite decide_True by lia. rewrite Nat.sub_0_r.
  rewrite list_inserts_all by (rewrite length_replicate; lia). done.
Qed.

Lemma BuildHist_whole gpair gmat m a (row : list GP) nbins rows :
  mem_array m a = Some row → length row = nbins →
  Forall (λ r, Forall (λ bin, bin < nbins)%nat (gmat r)) rows →
  BuildHist gpair gmat m rows (whole_row a nbins) =
  Some (mem_set_array m a (build_rows gpair gmat row rows)).
Proof.
  intros Ha Hlen Hbins. unfold BuildHist. simpl. rewrite Ha. simpl.
  rewrite decide_True by (split; [lia|done]).
  rewrite take_drop_all by done.
  rewrite list_inserts_all by (by rewrite length_build_rows). done.
Qed.

Lemma IncrementHist_whole m a a' (d s : list GP) nbins :
  mem_array m a = Some d → mem_array m a' = Some s →
  length d = nbins → length s = nbins →
  IncrementHist m (whole_row a nbins) (whole_row a' nbins) 0 nbins =
  Some (mem_set_array m a (zip_with gp_add d s)).
Proof.
  intros Ha Ha' Hd Hs. unfold IncrementHist. simpl. rewrite Ha, Ha'. simpl.
  rewrite decide_True by lia. rewrite Nat.sub_0_r.
  rewrite !take_drop_all by done.
  rewrite list_inserts_all by (rewrite length_zip_with; lia). done.
Qed.

End MemoryFacts.

(** ** The chunks of the threads *)

Lemma index_inj (N tid nid tid' nid' : nat) :
  (nid < N)%nat → (nid' < N)%nat →
  (tid * N + nid = tid' * N + nid')%nat → tid = tid' ∧ nid = nid'.
Proof.
  intros Hn Hn' Heq.
  assert (tid = tid') as ->.
  { destruct (Nat.lt_trichotomy tid tid') as [Hlt|[?|Hlt]]; [|done|]; nia. }
  split; [done|lia].
Qed.

Lemma chunck_size_covers (size T : nat) :
  T ≠ 0%nat → (size ≤ chunck_size size T * T)%nat.
Proof.
  intros HT. unfold chunck_size.
  pose proof (Nat.div_mod_eq size T) as Hdm.
  pose proof (Nat.mod_upper_bound size T HT) as Hmod.
  case_decide; nia.
Qed.

Lemma thread_blocks_lookup (space : list Block) (T tid k : nat) blk :
  thread_blocks space T tid !! k = Some blk ↔
  space !! (chunck_size (length space) T * tid + k)%nat = Some blk ∧
  (chunck_size (length space) T * tid + k
   < (chunck_size (length space) T * tid + chunck_size (length space) T)
     `min` length space)%nat.
Proof.
  unfold thread_blocks. set (cs := chunck_size (length space) T).
  rewrite lookup_take_Some, lookup_drop. split.
  - intros [Hl Hk]. split; [done|]. apply lookup_lt_Some in Hl. lia.
  - intros [Hl Hk]. split; [done|]. lia.
Qed.

Lemma work_items_blocks (space : list Block) (T : nat) :
  T ≠ 0%nat → (work_items space T).*2 = space.
Proof.
  intros HT. unfold work_items.
  set (cs := chunck_size (length space) T).
  assert (∀ k, (seq 0 k ≫= λ tid, (λ blk, (tid, blk)) <$> thread_blocks space T tid).*2
               = take (cs * k) space) as Hk.
  { induction k as [|k IH]; [by rewrite Nat.mul_0_r|].
    rewrite seq_S, bind_app, fmap_app, IH. simpl. rewrite app_nil_r.
    rewrite <- list_fmap_compose.
    assert (∀ l : list Block, (snd ∘ (λ blk, (k, blk))) <$> l = l) as ->
      by (intros l; exact (list_fmap_id l)).
    unfold thread_blocks. fold cs.
    apply list_eq. intros i.
    destruct (decide (i < cs * k)%nat) as [Hi|Hi].
    - destruct (decide (i < length space)%nat).
      + rewrite lookup_app_l by (rewrite length_take; lia).
        rewrite !lookup_take_lt by lia. done.
      + rewrite lookup_app_r by (rewrite length_take; lia).
        rewrite lookup_take_ge, lookup_take_lt by (rewrite ?length_take, ?length_drop; lia).
        rewrite !lookup_ge_None_2 by (rewrite ?length_drop; lia). done.
    - destruct (decide (cs * k ≤ length space)%nat).
      + rewrite lookup_app_r by (rewrite length_take; lia).
        rewrite length_take, Nat.min_l by lia.
        destruct (decide (i < cs * S k)%nat).
        * rewrite (lookup_take_lt space) by lia.
          destruct (decide (i < length space)%nat).
          -- rewrite lookup_take_lt by lia. rewrite lookup_drop. f_equal. lia.
          -- rewrite lookup_take_ge by lia. symmetry. apply lookup_ge_None_2. lia.
        * rewrite !lookup_take_ge by lia. done.
      + rewrite lookup_app_r by (rewrite length_take; lia).
        rewrite lookup_take_ge by lia.
        destruct (decide (i < cs * S k)%nat).
        * rewrite lookup_take_lt by lia. symmetry. apply lookup_ge_None_2. lia.
        * rewrite lookup_take_ge by lia. done. }
  rewrite Hk. apply take_ge. pose proof (chunck_size_covers (length space) T HT).
  fold cs in H. lia.
Qed.

Lemma mark_fold_length (N tid : nat) (l : list nat) (map : list bool) :
  length (foldl (λ m nid, <[(tid * N + nid)%nat := true]> m) map l) = length map.
Proof.
  revert map. induction l as [|nid l IH]; intros map; simpl; [done|].
  rewrite IH. apply length_insert.
Qed.

Lemma mark_fold_lookup (N tid : nat) (l : list nat) (map : list bool) (j : nat) :
  (j < length map)%nat →
  foldl (λ m nid, <[(tid * N + nid)%nat := true]> m) map l !!! j = true ↔
  (∃ nid, nid ∈ l ∧ j = (tid * N + nid)%nat) ∨ map !!! j = true.
Proof.
  revert map. induction l as [|nid l IH]; intros map Hj; simpl.
  { split; [by right|]. intros [(nid & Hin & _)|?]; [inversion Hin|done]. }
  rewrite IH by (by rewrite length_insert).
  destruct (decide (j = tid * N + nid)%nat) as [->|Hne].
  - rewrite list_lookup_total_insert_eq by done. split; [|by right].
    intros _. left. exists nid. split; [by left|done].
  - rewrite list_lookup_total_insert_ne by done. split.
    + intros [(nid' & Hin & ->)|?]; [|by right]. left. exists nid'. split; [by right|done].
    + intros [(nid' & Hin & ->)|?]; [|by right]. left. exists nid'. split; [|done].
      apply elem_of_cons in Hin as [->|?]; done.
Qed.

Lemma mark_thread_length (N : nat) space cs map tid :
  length (ParallelGHistBuilder.mark_thread N space cs map tid) = length map.
Proof.
  unfold ParallelGHistBuilder.mark_thread, ParallelGHistBuilder.mark_nodes.
  case_decide; [apply mark_fold_length|done].
Qed.

Lemma mark_threads_length (N : nat) space cs map (l : list nat) :
  length (foldl (ParallelGHistBuilder.mark_thread N space cs) map l) = length map.
Proof.
  revert map. induction l as [|tid l IH]; intros map; simpl; [done|].
  rewrite IH. apply mark_thread_length.
Qed.

Lemma mark_threads_lookup (N : nat) space cs map (l : list nat) (j : nat) :
  (j < length map)%nat →
  foldl (ParallelGHistBuilder.mark_thread N space cs) map l !!! j = true ↔
  (∃ tid nid, tid ∈ l ∧ chunk_touches space cs tid nid ∧ j = (tid * N + nid)%nat)
  ∨ map !!! j = true.
Proof.
  revert map. induction l as [|tid l IH]; intros map Hj; simpl.
  { split; [by right|]. intros [(tid & nid & Hin & _)|?]; [inversion Hin|done]. }
  rewrite IH by (by rewrite mark_thread_length).
  unfold ParallelGHistBuilder.mark_thread at 1, ParallelGHistBuilder.mark_nodes.
  unfold chunk_touches.
  case_decide as Hbegin.
  - rewrite mark_fold_lookup by done. split.
    + intros [(tid' & nid & Hin & Ht & ->)|[(nid & Hin & ->)|?]]; [| |by right].
      * left. exists tid', nid. split; [by right|done].
      * left. exists tid, nid. split; [by left|]. split; [|done].
        apply elem_of_seq in Hin. split; [done|]. lia.
    + intros [(tid' & nid & Hin & Ht & ->)|?]; [|by right; right].
      apply elem_of_cons in Hin as [->|Hin].
      * right. left. exists nid. split; [|done]. apply elem_of_seq.
        destruct Ht as (_ & ? & ?). lia.
      * left. by exists tid', nid.
  - split.
    + intros [(tid' & nid & Hin & Ht & ->)|?]; [|by right].
      left. exists tid', nid. split; [by right|done].
    + intros [(tid' & nid & Hin & Ht & ->)|?]; [|by right].
      apply elem_of_cons in Hin as [->|Hin]; [destruct Ht; lia|].
      left. by exists tid', nid.
Qed.

(** ** The assignment of rows, as the pass uses it *)

Section AssignmentFacts.
Context {GP : Type} `{GradientPairOps GP}.
Variable b1 : ParallelGHistBuilder.t GP.
Variable total : nat.
Let m1 := ParallelGHistBuilder.tid_nid_to_hist_ b1.
Let T := ParallelGHistBuilder.nthreads_ b1.
Let N := ParallelGHistBuilder.nodes_ b1.
Hypothesis Hinv : scratch_inv m1 total.
Hypothesis Hassigned : ∀ nid, (nid < N)%nat → node_assigned m1 (touching b1 nid) nid.

Lemma elem_of_touching tid nid :
  tid ∈ touching b1 nid ↔
  (tid < T)%nat ∧ ParallelGHistBuilder.touches b1 tid nid = true.
Proof.
  unfold touching. rewrite list_elem_of_filter, elem_of_seq.
  rewrite Is_true_true. subst T. split; intros [? ?]; split; auto; lia.
Qed.

Lemma assigned_touches tid nid :
  (tid < T)%nat → (nid < N)%nat →
  ParallelGHistBuilder.touches b1 tid nid = true →
  ∃ idx, m1 !! (tid, nid) = Some idx ∧ (idx = -1 ∨ 0 ≤ idx < Z.of_nat total).
Proof using Hinv Hassigned.
  intros Htid Hnid Htouch.
  assert (tid ∈ touching b1 nid) as Hin by (by apply elem_of_touching).
  destruct (Hassigned nid Hnid) as [Hts _].
  destruct (touching b1 nid) as [|t0 rest]; [inversion Hin|].
  destruct Hts as [Hfirst Hrest].
  apply elem_of_cons in Hin as [->|Hin].
  - exists (-1). split; [done|by left].
  - destruct (Hrest tid Hin) as (v & Hv & Hv0). exists v. split; [done|].
    destruct Hinv as [Hrange _]. apply (Hrange _ _ Hv).
Qed.

Lemma assigned_is_touching tid nid idx :
  (nid < N)%nat → m1 !! (tid, nid) = Some idx →
  (tid < T)%nat ∧ ParallelGHistBuilder.touches b1 tid nid = true.
Proof using Hassigned.
  intros Hnid Hidx. apply elem_of_touching.
  destruct (Hassigned nid Hnid) as [_ Hnone].
  destruct (decide (tid ∈ touching b1 nid)) as [|Hnin]; [done|].
  rewrite Hnone in Hidx by done. done.
Qed.

Lemma sentinel_is_first tid nid :
  (nid < N)%nat → m1 !! (tid, nid) = Some (-1) →
  ∃ rest, touching b1 nid = tid :: rest.
Proof using Hassigned.
  intros Hnid Hidx.
  destruct (assigned_is_touching tid nid (-1) Hnid Hidx) as [Htid Htouch].
  assert (tid ∈ touching b1 nid) as Hin by (by apply elem_of_touching).
  destruct (Hassigned nid Hnid) as [Hts _].
  destruct (touching b1 nid) as [|t0 rest]; [inversion Hin|].
  destruct Hts as [Hfirst Hrest]. exists rest. f_equal.
  apply elem_of_cons in Hin as [->|Hin]; [done|].
  destruct (Hrest tid Hin) as (v & Hv & Hv0). rewrite Hidx in Hv.
  injection Hv as <-. lia.
Qed.

Lemma first_is_sentinel tid nid rest :
  (nid < N)%nat → touching b1 nid = tid :: rest → m1 !! (tid, nid) = Some (-1).
Proof using Hassigned.
  intros Hnid Hts. destruct (Hassigned nid Hnid) as [Hn _].
  rewrite Hts in Hn. by destruct Hn.
Qed.

Lemma hist_array_inj tid nid idx tid' nid' idx' :
  (nid < N)%nat → (nid' < N)%nat →
  m1 !! (tid, nid) = Some idx → m1 !! (tid', nid') = Some idx' →
  hist_array nid idx = hist_array nid' idx' → tid = tid' ∧ nid = nid'.
Proof using Hinv Hassigned.
  intros Hnid Hnid' Hidx Hidx'. unfold hist_array.
  destruct Hinv as [Hrange Hinj].
  destruct (Hrange _ _ Hidx) as [->|Hr], (Hrange _ _ Hidx') as [->|Hr'];
    repeat case_decide; try lia; intros [= Heq].
  - subst nid'. split; [|done].
    destruct (sentinel_is_first _ _ Hnid Hidx) as [rest Hts].
    destruct (sentinel_is_first _ _ Hnid Hidx') as [rest' Hts'].
    congruence.
  - assert (idx = idx') as -> by lia.
    assert ((tid, nid) = (tid', nid')) as [= -> ->]; [|done].
    apply (Hinj _ _ idx'); [lia|done..].
Qed.

End AssignmentFacts.

(** ** Rows of the buffer *)

Section BufferFacts.
Context {GP : Type} `{GradientPairOps GP}.
Variable hb : HistCollection.t GP.
Variables (total nbins : nat) (idx : Z).
Hypothesis Hrows : buffer_rows hb total.
Hypothesis Hidx : 0 ≤ idx < Z.of_nat total.
Hypothesis Htotal : Z.of_nat total ≤ u32_max.
Hypothesis Hnbins : HistCollection.nbins_ hb = Z.of_nat nbins.

Lemma buffer_rows_at : at_ (HistCollection.row_ptr_ hb) idx = Some idx.
Proof using Hrows Hidx.
  clear Hnbins Htotal.
  destruct Hrows as [-> _]. unfold at_. rewrite decide_True by lia.
  rewrite list_lookup_fmap, lookup_seq_lt by lia. simpl. f_equal. lia.
Qed.

Lemma set_data_id : HistCollection.set_data hb (HistCollection.data_ hb) = hb.
Proof using Type. clear. by destruct hb. Qed.

Lemma AllocateData_row :
  (total ≤ length (HistCollection.data_ hb))%nat →
  rows_sized nbins (HistCollection.data_ hb) →
  ∃ d d', HistCollection.data_ hb !! Z.to_nat idx = Some d ∧
    d' = (if decide (length d = 0%nat) then replicate nbins gp_zero else d) ∧
    length d' = nbins ∧
    HistCollection.AllocateData hb (u32 idx) =
      Some (HistCollection.set_data hb (<[Z.to_nat idx := d']> (HistCollection.data_ hb))).
Proof using Hrows Hidx Htotal Hnbins.
  intros Hlen Hsized. unfold HistCollection.AllocateData.
  rewrite (u32_small idx) by lia. rewrite buffer_rows_at. simpl.
  destruct (HistCollection.data_ hb !! Z.to_nat idx) as [d|] eqn:Hd;
    [|apply lookup_ge_None in Hd; lia].
  assert (at_ (HistCollection.data_ hb) idx = Some d) as ->
    by (unfold at_; by rewrite decide_True by lia).
  simpl. exists d. eexists. split; [done|]. split; [reflexivity|].
  unfold rows_sized in Hsized. rewrite Forall_lookup in Hsized.
  specialize (Hsized _ _ Hd). rewrite Hnbins, Nat2Z.id.
  case_decide as Hz.
  - split; [by rewrite length_replicate|]. rewrite resize_ge by lia.
    apply length_zero_iff_nil in Hz. subst d. simpl. by rewrite Nat.sub_0_r.
  - split; [lia|]. rewrite list_insert_id by done. by rewrite set_data_id.
Qed.

Lemma get_buffer_row (data' : list (list GP)) :
  HistCollection.contiguous_allocation_ hb = false →
  (total ≤ length data')%nat →
  HistCollection.get (HistCollection.set_data hb data') (u32 idx) =
  Some (whole_row (BufferRow (Z.to_nat idx)) nbins).
Proof using Hrows Hidx Htotal Hnbins.
  intros Hc Hlen. unfold HistCollection.get. simpl.
  rewrite (u32_small idx) by lia. rewrite buffer_rows_at. simpl.
  rewrite decide_False by (unfold HistCollection.kMax; lia). rewrite Hc.
  destruct (data' !! Z.to_nat idx) as [d|] eqn:Hd;
    [|apply lookup_ge_None in Hd; lia].
  assert (at_ data' idx = Some d) as -> by (unfold at_; by rewrite decide_True by lia).
  simpl. by rewrite Hnbins, Nat2Z.id.
Qed.

End BufferFacts.

Lemma caller_targets_lookup (nodes nbins nid : nat) :
  (nid < nodes)%nat →
  caller_targets nodes nbins !! nid = Some (whole_row (CallerRow nid) nbins).
Proof.
  intros Hnid. unfold caller_targets.
  rewrite list_lookup_fmap, lookup_seq_lt by done. done.
Qed.

(** ** The accumulation pass *)

Section PassFacts.
Context {GP : Type} `{GradientPairOps GP}.
Variable gpair : nat → GP.
Variable gmat : nat → list nat.
Variable b1 : ParallelGHistBuilder.t GP.
Variables total nbins : nat.
Let m1 := ParallelGHistBuilder.tid_nid_to_hist_ b1.
Let T := ParallelGHistBuilder.nthreads_ b1.
Let N := ParallelGHistBuilder.nodes_ b1.
Let hb1 := ParallelGHistBuilder.hist_buffer_ b1.
Hypothesis Hinv : scratch_inv m1 total.
Hypothesis Hassigned : ∀ nid, (nid < N)%nat → node_assigned m1 (touching b1 nid) nid.
Hypothesis Hths : ParallelGHistBuilder.targeted_hists_ b1 = caller_targets N nbins.
Hypothesis Hrows1 : buffer_rows hb1 total.
Hypothesis Hlen1 : (total ≤ length (HistCollection.data_ hb1))%nat.
Hypothesis Htot32 : Z.of_nat total ≤ u32_max.

Implicit Types b : ParallelGHistBuilder.t GP.
Implicit Types c : list (list GP).

Lemma mem_of_with_mem b (m : Mem GP) :
  ParallelGHistBuilder.mem_of (ParallelGHistBuilder.with_mem b m).1
    (ParallelGHistBuilder.with_mem b m).2 = m.
Proof using Type. by destruct m. Qed.

Lemma pass_struct_set b c a (l : list GP) :
  pass_struct b1 nbins (b, c) → length l = nbins →
  pass_struct b1 nbins
    (ParallelGHistBuilder.with_mem b
       (mem_set_array (ParallelGHistBuilder.mem_of b c) a l)).
Proof using Type.
  clear Hinv Hassigned Hths Hrows1 Hlen1 Htot32.
  unfold pass_struct. simpl.
  intros (H1 & H2 & H3 & H4 & H5 & H6 & H7 & H8 & H9 & H10 & H11 & H12 & H13) Hl.
  destruct a as [r|k]; simpl; repeat split; try done.
  - by rewrite length_insert.
  - apply Forall_insert; [done|by right].
  - by rewrite length_insert.
  - by apply Forall_insert.
Qed.

Lemma pass_struct_buffer b c d :
  pass_struct b1 nbins (b, c) →
  length d = length (HistCollection.data_ (ParallelGHistBuilder.hist_buffer_ b)) →
  rows_sized nbins d →
  pass_struct b1 nbins
    (ParallelGHistBuilder.set_hist_buffer b
       (HistCollection.set_data (ParallelGHistBuilder.hist_buffer_ b) d), c).
Proof using Type.
  clear Hinv Hassigned Hths Hrows1 Hlen1 Htot32.
  unfold pass_struct. simpl.
  intros (H1 & H2 & H3 & H4 & H5 & H6 & H7 & H8 & H9 & H10 & H11 & H12 & H13) Hl Hd.
  repeat split; try done. congruence.
Qed.

Lemma pass_struct_flag b c (i : nat) :
  pass_struct b1 nbins (b, c) →
  pass_struct b1 nbins
    (ParallelGHistBuilder.set_hist_was_used b
       (<[i := true]> (ParallelGHistBuilder.hist_was_used_ b)), c).
Proof using Type.
  clear Hinv Hassigned Hths Hrows1 Hlen1 Htot32.
  unfold pass_struct. simpl.
  intros (H1 & H2 & H3 & H4 & H5 & H6 & H7 & H8 & H9 & H10 & H11 & H12 & H13).
  repeat split; try done. by rewrite length_insert.
Qed.

Lemma was_used_set b c (tid nid t n : nat) :
  pass_struct b1 nbins (b, c) →
  (tid < T)%nat → (nid < N)%nat → (t < T)%nat → (n < N)%nat →
  ParallelGHistBuilder.was_used
    (ParallelGHistBuilder.set_hist_was_used b
       (<[(tid * N + nid)%nat := true]> (ParallelGHistBuilder.hist_was_used_ b))) t n
  = true ↔
  ParallelGHistBuilder.was_used b t n = true ∨ (t = tid ∧ n = nid).
Proof using Type.
  clear Hinv Hassigned Hths Hrows1 Hlen1 Htot32.
  unfold pass_struct. simpl.
  intros (H1 & H2 & H3 & H4 & H5 & H6 & H7 & H8 & H9 & H10 & H11 & H12 & H13).
  intros Htid Hnid Ht Hn. unfold ParallelGHistBuilder.was_used. simpl.
  fold N T in H2, H13 |- *. rewrite H2.
  destruct (decide ((tid * N + nid) = (t * N + n))%nat) as [Heq|Hne].
  - destruct (index_inj N tid nid t n Hnid Hn Heq) as [-> ->].
    rewrite list_lookup_total_insert_eq by (rewrite H13; nia).
    split; [by right; split|done].
  - rewrite list_lookup_total_insert_ne by done.
    split; [by left|]. intros [?|[-> ->]]; done.
Qed.

Lemma GetInitializedHist_spec b c (tid nid : nat) (idx : Z) :
  pass_struct b1 nbins (b, c) →
  (tid < T)%nat → (nid < N)%nat →
  m1 !! (tid, nid) = Some idx → (idx = -1 ∨ 0 ≤ idx < Z.of_nat total) →
  ∃ b' c' h0,
    ParallelGHistBuilder.GetInitializedHist b c tid nid
      = Some (whole_row (hist_array nid idx) nbins, (b', c')) ∧
    pass_struct b1 nbins (b', c') ∧
    (∀ t n, (t < T)%nat → (n < N)%nat →
       ParallelGHistBuilder.was_used b' t n = true ↔
       ParallelGHistBuilder.was_used b t n = true ∨ (t = tid ∧ n = nid)) ∧
    mem_array (ParallelGHistBuilder.mem_of b' c') (hist_array nid idx) = Some h0 ∧
    length h0 = nbins ∧
    (ParallelGHistBuilder.was_used b tid nid = false → h0 = replicate nbins gp_zero) ∧
    (∀ h, ParallelGHistBuilder.was_used b tid nid = true →
       mem_array (ParallelGHistBuilder.mem_of b c) (hist_array nid idx) = Some h →
       length h = nbins → h0 = h) ∧
    (∀ a, a ≠ hist_array nid idx →
       mem_array (ParallelGHistBuilder.mem_of b' c') a
       = mem_array (ParallelGHistBuilder.mem_of b c) a).
Proof.
  intros Hstruct Htid Hnid Hidx Hrange.
  pose proof Hstruct as
    (S1 & S2 & S3 & S4 & S5 & S6 & S7 & S8 & S9 & S10 & S11 & S12 & S13).
  simpl in S1, S2, S3, S4, S5, S6, S7, S8, S9, S10, S11, S12, S13.
  fold T in S1. fold N in S2, S11, S13. fold m1 in S4.
  assert (buffer_rows (ParallelGHistBuilder.hist_buffer_ b) total) as Hrows.
  { destruct Hrows1 as [Hr Ha]. unfold hb1 in Hr, Ha. split; congruence. }
  assert (total ≤ length (HistCollection.data_ (ParallelGHistBuilder.hist_buffer_ b)))%nat
    as Hlenb by (rewrite S9; exact Hlen1).
  unfold ParallelGHistBuilder.GetInitializedHist.
  rewrite S1, S2, S4, Hidx. rewrite decide_True by done. cbn [mbind option_bind].
  (* the row after [AllocateData], and its array *)
  assert (∃ hb' d0,
    (if decide (0 ≤ idx)
     then HistCollection.AllocateData (ParallelGHistBuilder.hist_buffer_ b) (u32 idx)
     else Some (ParallelGHistBuilder.hist_buffer_ b)) = Some hb' ∧
    ParallelGHistBuilder.hist_of b hb' nid idx
      = Some (whole_row (hist_array nid idx) nbins) ∧
    pass_struct b1 nbins (ParallelGHistBuilder.set_hist_buffer b hb', c) ∧
    mem_array (ParallelGHistBuilder.mem_of
                 (ParallelGHistBuilder.set_hist_buffer b hb') c) (hist_array nid idx)
      = Some d0 ∧ length d0 = nbins ∧
    (∀ h, mem_array (ParallelGHistBuilder.mem_of b c) (hist_array nid idx) = Some h →
          length h = nbins → d0 = h) ∧
    (∀ a, a ≠ hist_array nid idx →
       mem_array (ParallelGHistBuilder.mem_of
                    (ParallelGHistBuilder.set_hist_buffer b hb') c) a
       = mem_array (ParallelGHistBuilder.mem_of b c) a))
    as (hb' & d0 & Halloc & Hhist & Hstruct' & Hd0 & Hlen0 & Hold & Hframe).
  { unfold ParallelGHistBuilder.hist_of, hist_array.
    destruct Hrange as [->|Hrange].
    - rewrite decide_False by lia. rewrite !decide_True by done.
      destruct (c !! nid) as [row|] eqn:Hrow;
        [|apply lookup_ge_None in Hrow; lia].
      exists (ParallelGHistBuilder.hist_buffer_ b), row.
      split; [done|]. split.
      { rewrite S3, Hths. by apply caller_targets_lookup. }
      split.
      { replace (ParallelGHistBuilder.set_hist_buffer b (ParallelGHistBuilder.hist_buffer_ b))
          with (ParallelGHistBuilder.set_hist_buffer b
                  (HistCollection.set_data (ParallelGHistBuilder.hist_buffer_ b)
                     (HistCollection.data_ (ParallelGHistBuilder.hist_buffer_ b))))
          by (by rewrite set_data_id).
        by apply pass_struct_buffer. }
      split; [exact Hrow|]. split.
      { rewrite Forall_lookup in S12. by apply (S12 nid). }
      split; [simpl; congruence|done].
    - rewrite decide_True by lia. rewrite !decide_False by lia.
      destruct (AllocateData_row (ParallelGHistBuilder.hist_buffer_ b) total nbins idx
                  Hrows Hrange Htot32 S7) as (d & d' & Hd & Hd' & Hlen' & Halloc);
        [lia | done |].
      eexists. exists d'. split; [exact Halloc|].
      assert (Z.to_nat idx < length (HistCollection.data_ (ParallelGHistBuilder.hist_buffer_ b)))%nat
        as Hlt by lia.
      split.
      { rewrite decide_False by lia.
        apply (get_buffer_row _ total); try done. rewrite length_insert. lia. }
      split.
      { apply pass_struct_buffer; [done | by rewrite length_insert |].
        apply Forall_insert; [done|by right]. }
      split; [simpl; by apply list_lookup_insert_eq|]. split; [done|]. split.
      + simpl. intros h Hh Hlenh. rewrite Hd in Hh. injection Hh as <-.
        rewrite Hd'. case_decide as Hz; [|done].
        apply length_zero_iff_nil in Hz. subst d. simpl in Hlenh. by rewrite <- Hlenh.
      + intros [r|k] Hne; simpl; [|done].
        apply list_lookup_insert_ne. congruence. }
  rewrite Halloc. cbn [mbind option_bind].
  rewrite Hhist. cbn [mbind option_bind].
  destruct (ParallelGHistBuilder.was_used b tid nid) eqn:Hused.
  - exists (ParallelGHistBuilder.set_hist_buffer b hb'), c, d0.
    split; [done|]. split; [done|]. split.
    { intros t n Ht Hn. change (ParallelGHistBuilder.was_used
        (ParallelGHistBuilder.set_hist_buffer b hb') t n)
        with (ParallelGHistBuilder.was_used b t n).
      split; [by left|]. intros [?|[-> ->]]; done. }
    split; [done|]. split; [done|]. split; [done|]. split; [|done].
    intros h _. apply Hold.
  - change (span_size (whole_row (hist_array nid idx) nbins)) with nbins.
    rewrite (InitilizeHistByZeroes_whole _ _ d0) by done.
    cbn [mbind option_bind].
    set (X := ParallelGHistBuilder.set_hist_was_used
                (ParallelGHistBuilder.set_hist_buffer b hb')
                (<[(tid * N + nid)%nat := true]>
                   (ParallelGHistBuilder.hist_was_used_ b))).
    set (m' := mem_set_array
                 (ParallelGHistBuilder.mem_of
                    (ParallelGHistBuilder.set_hist_buffer b hb') c)
                 (hist_array nid idx) (replicate nbins gp_zero)).
    exists (ParallelGHistBuilder.with_mem X m').1,
           (ParallelGHistBuilder.with_mem X m').2, (replicate nbins gp_zero).
    split; [reflexivity|].
    split.
    { rewrite <- surjective_pairing.
      apply (pass_struct_set X c); [|by rewrite length_replicate].
      by apply (pass_struct_flag (ParallelGHistBuilder.set_hist_buffer b hb')). }
    split.
    { intros t n Ht Hn.
      exact (was_used_set (ParallelGHistBuilder.set_hist_buffer b hb') c
               tid nid t n Hstruct' Htid Hnid Ht Hn). }
    split.
    { rewrite mem_of_with_mem. apply mem_array_set_eq.
      change (is_Some (mem_array (ParallelGHistBuilder.mem_of
                (ParallelGHistBuilder.set_hist_buffer b hb') c) (hist_array nid idx))).
      by rewrite Hd0. }
    split; [by rewrite length_replicate|]. split; [done|]. split; [done|].
    intros a Hne. rewrite mem_of_with_mem.
    unfold m'. rewrite mem_array_set_ne by done. by apply Hframe.
Qed.

Lemma build_block_step (used : nat → nat → Prop) (acc : nat → nat → list GP) st
    (tid : nat) (blk : Block) :
  pass_inv b1 nbins used acc st →
  (tid < T)%nat → (block_nid blk < N)%nat →
  ParallelGHistBuilder.touches b1 tid (block_nid blk) = true →
  Forall (λ r, Forall (λ bin, bin < nbins)%nat (gmat r)) (block_rows blk) →
  (∀ t n, ¬ used t n → acc t n = replicate nbins gp_zero) →
  (∀ t n, length (acc t n) = nbins) →
  ∃ st', build_block gpair gmat st (tid, blk) = Some st' ∧
    pass_inv b1 nbins
      (λ t n, used t n ∨ (t = tid ∧ n = block_nid blk))
      (λ t n, if decide (t = tid ∧ n = block_nid blk)
              then build_rows gpair gmat (acc t n) (block_rows blk)
              else acc t n) st'.
Proof.
  destruct st as [b c]. intros (Hstruct & Hflags & Hcontent) Htid Hnid Htouch Hbins
    Hzero Hlen.
  destruct (assigned_touches b1 total Hinv Hassigned tid (block_nid blk) Htid Hnid Htouch)
    as (idx & Hidx & Hrange).
  destruct (GetInitializedHist_spec b c tid (block_nid blk) idx Hstruct Htid Hnid
              Hidx Hrange)
    as (b' & c' & h0 & HGet & Hstruct' & Hflags' & Hh0 & Hlen0 & Hfresh & Hsame & Hframe).
  set (a := hist_array (block_nid blk) idx) in *.
  assert (h0 = acc tid (block_nid blk)) as ->.
  { destruct (ParallelGHistBuilder.was_used b tid (block_nid blk)) eqn:Hused.
    - apply Hsame; [done| |apply Hlen]. by apply Hcontent.
    - rewrite Hfresh by done. symmetry. apply Hzero.
      intros Hu. apply Hflags in Hu; [|done..]. simpl in Hu. congruence. }
  unfold build_block. cbn [fst snd]. rewrite HGet. cbn [mbind option_bind fst snd].
  rewrite (BuildHist_whole _ _ _ _ (acc tid (block_nid blk))) by done.
  cbn [mbind option_bind].
  eexists. split; [reflexivity|].
  set (m' := mem_set_array _ _ _).
  split; [|split].
  - apply pass_struct_set; [done|]. by rewrite length_build_rows.
  - intros t n Ht Hn.
    change (ParallelGHistBuilder.was_used (ParallelGHistBuilder.with_mem b' m').1 t n)
      with (ParallelGHistBuilder.was_used b' t n).
    rewrite Hflags' by done. rewrite (Hflags t n) by done. done.
  - intros t n idx' Ht Hn Hused' Hidx'. rewrite mem_of_with_mem.
    change (ParallelGHistBuilder.was_used (ParallelGHistBuilder.with_mem b' m').1 t n)
      with (ParallelGHistBuilder.was_used b' t n) in Hused'.
    apply Hflags' in Hused'; [|done..].
    case_decide as Heq.
    + destruct Heq as [-> ->]. unfold m1 in Hidx. rewrite Hidx in Hidx'.
      injection Hidx' as <-. unfold m'. apply mem_array_set_eq.
      cbn [fst snd]. fold a. by rewrite Hh0.
    + destruct Hused' as [Hused'|?]; [|done].
      assert (hist_array n idx' ≠ a) as Hne.
      { intros Ha. destruct (hist_array_inj b1 total Hinv Hassigned
          t n idx' tid (block_nid blk) idx Hn Hnid Hidx' Hidx Ha) as [-> ->].
        by apply Heq. }
      unfold m'. rewrite mem_array_set_ne by done. cbn [fst snd].
      rewrite Hframe by done. by apply Hcontent.
Qed.

Lemma pass_inv_ext (used used' : nat → nat → Prop) (acc acc' : nat → nat → list GP) st :
  (∀ t n, used t n ↔ used' t n) → (∀ t n, acc t n = acc' t n) →
  pass_inv b1 nbins used acc st → pass_inv b1 nbins used' acc' st.
Proof using Type.
  clear Hinv Hassigned Hths Hrows1 Hlen1 Htot32.
  intros Hu Ha (Hstruct & Hflags & Hcontent). split; [done|]. split.
  - intros t n Ht Hn. rewrite <- Hu. by apply Hflags.
  - intros t n idx Ht Hn Hused Hidx. rewrite <- Ha. by apply Hcontent.
Qed.

Lemma item_used_snoc items item t n :
  item_used (items ++ [item]) t n ↔
  item_used items t n ∨ (t = item.1 ∧ n = block_nid item.2).
Proof using Type.
  unfold item_used. split.
  - intros (i & Hin & <- & <-). apply elem_of_app in Hin as [Hin|Hin].
    + left. by exists i.
    + apply list_elem_of_singleton in Hin as ->. by right.
  - intros [(i & Hin & <- & <-)|[-> ->]].
    + exists i. split; [|done]. apply elem_of_app. by left.
    + exists item. split; [|done]. apply elem_of_app. right. by apply list_elem_of_singleton.
Qed.

Lemma item_rows_unused items t n :
  ¬ item_used items t n → item_rows items t n = [].
Proof using Type.
  unfold item_used, item_rows. induction items as [|i items IH]; intros Hn; [done|].
  rewrite bind_cons. rewrite decide_False.
  - simpl. apply IH. intros (i' & Hin & ?). apply Hn. exists i'. split; [by right|done].
  - intros [? ?]. apply Hn. exists i. split; [by left|done].
Qed.

Lemma acc_items_snoc items item t n :
  acc_items gpair gmat nbins (items ++ [item]) t n =
  if decide (t = item.1 ∧ n = block_nid item.2)
  then build_rows gpair gmat (acc_items gpair gmat nbins items t n) (block_rows item.2)
  else acc_items gpair gmat nbins items t n.
Proof using Type.
  unfold acc_items, item_rows. rewrite bind_app, build_rows_app.
  rewrite bind_cons. change ([] ≫= _) with (@nil nat). rewrite app_nil_r.
  destruct (decide (item.1 = t ∧ block_nid item.2 = n)) as [[? ?]|Hne].
  - by rewrite decide_True by done.
  - rewrite decide_False by (intros [? ?]; by apply Hne). done.
Qed.

Lemma build_blocks_spec (items done : list (nat * Block)) st :
  pass_inv b1 nbins (item_used done) (acc_items gpair gmat nbins done) st →
  Forall (λ item, (item.1 < T)%nat ∧ (block_nid item.2 < N)%nat ∧
            ParallelGHistBuilder.touches b1 item.1 (block_nid item.2) = true ∧
            Forall (λ r, Forall (λ bin, bin < nbins)%nat (gmat r)) (block_rows item.2))
    items →
  ∃ st', build_blocks gpair gmat st items = Some st' ∧
    pass_inv b1 nbins (item_used (done ++ items)) (acc_items gpair gmat nbins (done ++ items)) st'.
Proof.
  revert done st. induction items as [|[tid blk] items IH]; intros done st Hpass Hitems.
  { exists st. split; [done|]. by rewrite app_nil_r. }
  apply Forall_cons in Hitems as [(Htid & Hnid & Htouch & Hbins) Hitems].
  simpl in Htid, Hnid, Htouch, Hbins.
  destruct (build_block_step _ _ st tid blk Hpass Htid Hnid Htouch Hbins)
    as (st1 & Hstep & Hpass1).
  { intros t n Hu. unfold acc_items. by rewrite item_rows_unused. }
  { intros t n. unfold acc_items. by rewrite length_build_rows, length_replicate. }
  destruct (IH (done ++ [(tid, blk)]) st1) as (st' & Hrest & Hpass'); [|done|].
  { eapply pass_inv_ext; [| |exact Hpass1].
    - intros t n. by rewrite item_used_snoc.
    - intros t n. by rewrite acc_items_snoc. }
  exists st'. simpl. rewrite Hstep. simpl. split; [done|].
  by rewrite <- app_assoc in Hpass'.
Qed.

End PassFacts.

(** ** Reducing the histograms of the threads *)

(** ** Parallel histogram builder: ReduceHist (claim C4) *)

Section ReduceZero.
Context {GP : Type} `{GradientPairOps GP}.
Implicit Types b : ParallelGHistBuilder.t GP.

Lemma reduce_thread_unused b nid dst (begin end_ : nat) (m : Mem GP) (tids : list nat) :
  Forall (λ tid, ParallelGHistBuilder.was_used b tid nid = false) tids →
  foldl (ParallelGHistBuilder.reduce_thread b nid dst begin end_)
    (Some (m, false)) tids = Some (m, false).
Proof.
  induction 1 as [|tid tids Htid _ IH]; simpl; [done|].
  rewrite Htid. exact IH.
Qed.

(** C4.  When no thread has used node [nid] in the pass (every flag
    [hist_was_used_[tid * nodes_ + nid]] is still unset),
    [ReduceHist(nid, begin, end)] succeeds and afterwards every bin of
    the target row in [begin, end) is zero, whatever the row held
    before. *)
Theorem ReduceHist_untouched_node_zero b (caller : list (list GP))
    (nid begin end_ : nat) (dst : GHistRow) (old : list GP) :
  (begin < end_)%nat →
  (nid < ParallelGHistBuilder.nodes_ b)%nat →
  ParallelGHistBuilder.targeted_hists_ b !! nid = Some dst →
  (∀ tid, (tid < ParallelGHistBuilder.nthreads_ b)%nat →
     ParallelGHistBuilder.was_used b tid nid = false) →
  span_read (ParallelGHistBuilder.mem_of b caller) dst = Some old →
  (end_ ≤ span_size dst)%nat →
  ∃ b' caller' row,
    ParallelGHistBuilder.ReduceHist b caller nid begin end_ = Some (b', caller') ∧
    span_read (ParallelGHistBuilder.mem_of b' caller') dst = Some row ∧
    ∀ i, (begin ≤ i < end_)%nat → row !! i = Some gp_zero.
Proof.
  intros Hbe Hnid Hdst Hunused Hold Hend.
  unfold ParallelGHistBuilder.ReduceHist.
  rewrite decide_True by done. rewrite Hdst. cbn [mbind option_bind].
  rewrite reduce_thread_unused
    by (apply Forall_forall; intros tid Htid%elem_of_seq; apply Hunused; lia).
  cbn [mbind option_bind fst snd].
  unfold span_read in Hold.
  destruct (mem_array (ParallelGHistBuilder.mem_of b caller) (span_array dst))
    as [l|] eqn:Hl; [|done].
  cbn [mbind option_bind] in Hold. case_decide as Hbound; [|done].
  unfold InitilizeHistByZeroes. rewrite Hl. cbn [mbind option_bind].
  rewrite decide_True by lia. cbn [mbind option_bind].
  set (l' := list_inserts _ _ l).
  set (m' := mem_set_array _ _ l').
  exists (ParallelGHistBuilder.with_mem b m').1, (ParallelGHistBuilder.with_mem b m').2.
  exists (take (span_size dst) (drop (span_off dst) l')).
  split; [reflexivity|]. split.
  - assert (ParallelGHistBuilder.mem_of (ParallelGHistBuilder.with_mem b m').1
              (ParallelGHistBuilder.with_mem b m').2 = m') as -> by (by destruct m').
    unfold span_read, m'.
    rewrite mem_array_set_eq by (by rewrite Hl). cbn [mbind option_bind].
    rewrite decide_True; [done|]. unfold l'. by rewrite length_inserts.
  - intros i Hi. rewrite lookup_take_lt by lia. rewrite lookup_drop.
    unfold l'. rewrite list_lookup_inserts by (rewrite ?length_replicate; lia).
    apply lookup_replicate_2. lia.
Qed.

End ReduceZero.

(** ** Parallel histogram builder: the reduction of a used node *)

Section ReduceFacts.
Context {GP : Type} `{GradientPairOps GP}.
Variable b1 : ParallelGHistBuilder.t GP.
Variables total nbins : nat.
Let m1 := ParallelGHistBuilder.tid_nid_to_hist_ b1.
Let T := ParallelGHistBuilder.nthreads_ b1.
Let N := ParallelGHistBuilder.nodes_ b1.
Let hb1 := ParallelGHistBuilder.hist_buffer_ b1.
Hypothesis Hinv : scratch_inv m1 total.
Hypothesis Hassigned : ∀ nid, (nid < N)%nat → node_assigned m1 (touching b1 nid) nid.
Hypothesis Hths : ParallelGHistBuilder.targeted_hists_ b1 = caller_targets N nbins.
Hypothesis Hrows1 : buffer_rows hb1 total.
Hypothesis Hlen1 : (total ≤ length (HistCollection.data_ hb1))%nat.
Hypothesis Htot32 : Z.of_nat total ≤ u32_max.
Variable used : nat → nat → Prop.
Variable acc : nat → nat → list GP.
Variable b2 : ParallelGHistBuilder.t GP.
Variable c2 : list (list GP).
Hypothesis Hpass : pass_inv b1 nbins used acc (b2, c2).
Hypothesis Hused_touch : ∀ t n, (t < T)%nat → (n < N)%nat → used t n →
  ParallelGHistBuilder.touches b1 t n = true.
Hypothesis Hacc_len : ∀ t n, length (acc t n) = nbins.

Implicit Types c : list (list GP).

Lemma set_hist_buffer_id (b : ParallelGHistBuilder.t GP) :
  ParallelGHistBuilder.set_hist_buffer b (ParallelGHistBuilder.hist_buffer_ b) = b.
Proof using Type. by destruct b. Qed.

Lemma with_mem_same_buffer (b : ParallelGHistBuilder.t GP) (m : Mem GP) :
  m_buffer m = HistCollection.data_ (ParallelGHistBuilder.hist_buffer_ b) →
  ParallelGHistBuilder.with_mem b m = (b, m_caller m).
Proof using Type.
  intros Hm. unfold ParallelGHistBuilder.with_mem. rewrite Hm.
  destruct b as [? ? ? hb ? ? ? ?]. simpl. by destruct hb.
Qed.

(** The loop of [ReduceHist] over the threads [tids]. *)
Lemma reduce_thread_fold (nid : nat) (tids : list nat) (m : Mem GP) (upd : bool)
    (h : list GP) :
  (nid < N)%nat → Forall (λ tid, tid < T)%nat tids →
  m_buffer m = HistCollection.data_ (ParallelGHistBuilder.hist_buffer_ b2) →
  m_caller m !! nid = Some h → length h = nbins →
  ∃ m', foldl (ParallelGHistBuilder.reduce_thread b2 nid
                 (whole_row (CallerRow nid) nbins) 0 nbins) (Some (m, upd)) tids
        = Some (m', upd || existsb (λ tid, ParallelGHistBuilder.was_used b2 tid nid) tids) ∧
    m_buffer m' = m_buffer m ∧
    m_caller m' = <[nid := reduce_row b2 acc nid h tids]> (m_caller m).
Proof.
  destruct Hpass as (Hstruct & Hflags & Hcontent).
  pose proof Hstruct as
    (S1 & S2 & S3 & S4 & S5 & S6 & S7 & S8 & S9 & S10 & S11 & S12 & S13).
  simpl in S1, S2, S3, S4, S5, S6, S7, S8, S9, S10, S11, S12, S13, Hflags, Hcontent.
  assert (buffer_rows (ParallelGHistBuilder.hist_buffer_ b2) total) as Hrows.
  { destruct Hrows1 as [Hr Ha]. unfold hb1 in Hr, Ha. split; congruence. }
  assert (total ≤ length (HistCollection.data_ (ParallelGHistBuilder.hist_buffer_ b2)))%nat
    as Hlenb by (rewrite S9; exact Hlen1).
  intros Hnid Htids. revert m upd h.
  induction Htids as [|tid tids Htid _ IH]; intros m upd h Hbuf Hrow Hlenh.
  { exists m. simpl. rewrite orb_false_r. split; [done|]. split; [done|].
    by rewrite list_insert_id. }
  cbn [foldl existsb]. unfold reduce_row. cbn [foldl]. fold (reduce_row b2 acc nid).
  unfold ParallelGHistBuilder.reduce_thread at 2. cbn [mbind option_bind fst snd].
  destruct (ParallelGHistBuilder.was_used b2 tid nid) eqn:Hused.
  2:{ destruct (IH m upd h Hbuf Hrow Hlenh) as (m' & Hfold & Hb' & Hc').
      exists m'. by rewrite Hfold. }
  assert (ParallelGHistBuilder.touches b1 tid nid = true) as Htouch.
  { apply Hused_touch; [done..|]. by apply Hflags. }
  destruct (assigned_touches b1 total Hinv Hassigned tid nid Htid Hnid Htouch)
    as (idx & Hidx & Hrange).
  assert (ParallelGHistBuilder.tid_nid_to_hist_ b2 !! (tid, nid) = Some idx) as Hidx2
    by (rewrite S4; exact Hidx).
  rewrite Hidx2. cbn [mbind option_bind].
  unfold ParallelGHistBuilder.hist_of.
  destruct Hrange as [->|Hrange].
  - rewrite !decide_True by done. rewrite S3, Hths.
    rewrite caller_targets_lookup by done. cbn [mbind option_bind].
    unfold same_data. rewrite bool_decide_true by done.
    destruct (IH m true h Hbuf Hrow Hlenh) as (m' & Hfold & Hb' & Hc').
    exists m'. rewrite Hfold. rewrite orb_true_r. done.
  - rewrite !decide_False by lia.
    replace (HistCollection.get (ParallelGHistBuilder.hist_buffer_ b2) (u32 idx))
      with (HistCollection.get
              (HistCollection.set_data (ParallelGHistBuilder.hist_buffer_ b2)
                 (HistCollection.data_ (ParallelGHistBuilder.hist_buffer_ b2))) (u32 idx))
      by (by rewrite set_data_id).
    rewrite (get_buffer_row _ total nbins) by done. cbn [mbind option_bind].
    unfold same_data. rewrite bool_decide_false by (simpl; intros [? _]; done).
    assert (m_buffer m !! Z.to_nat idx = Some (acc tid nid)) as Hsrc.
    { rewrite Hbuf. specialize (Hcontent tid nid idx Htid Hnid Hused Hidx).
      unfold hist_array in Hcontent. rewrite decide_False in Hcontent by lia.
      exact Hcontent. }
    rewrite (IncrementHist_whole m (CallerRow nid) (BufferRow (Z.to_nat idx))
               h (acc tid nid)) by done.
    cbn [mbind option_bind].
    set (h' := zip_with gp_add h (acc tid nid)).
    destruct (IH (mem_set_array m (CallerRow nid) h') true h')
      as (m' & Hfold & Hb' & Hc').
    + done.
    + simpl. apply list_lookup_insert_eq. by eapply lookup_lt_Some.
    + unfold h'. rewrite length_zip_with, Hlenh, Hacc_len. lia.
    + exists m'. rewrite Hfold. rewrite orb_true_r. split; [done|]. split; [done|].
      rewrite Hc'. simpl. by rewrite list_insert_insert_eq.
Qed.

Lemma length_reduce_row (nid : nat) (h : list GP) (tids : list nat) :
  length h = nbins → length (reduce_row b2 acc nid h tids) = nbins.
Proof.
  clear Hinv Hassigned Hths Hrows1 Hlen1 Htot32 Hpass Hused_touch.
  revert h. induction tids as [|tid tids IH]; intros h Hh; [done|].
  unfold reduce_row. cbn [foldl]. apply IH.
  destruct (ParallelGHistBuilder.was_used b2 tid nid); [|done].
  destruct (_ !! _) as [idx|]; [|done]. case_decide; [done|].
  rewrite length_zip_with, Hh, Hacc_len. lia.
Qed.

Lemma length_target_row (nid : nat) (h : list GP) :
  length h = nbins → length (target_row b2 acc nbins nid h) = nbins.
Proof.
  clear Hinv Hassigned Hths Hrows1 Hlen1 Htot32 Hpass Hused_touch.
  intros Hh. unfold target_row. destruct (existsb _ _).
  - by apply length_reduce_row.
  - apply length_replicate.
Qed.

Lemma ReduceHist_row c (nid : nat) :
  (nid < N)%nat → (0 < nbins)%nat →
  length c = N → Forall (λ row, length row = nbins) c →
  ParallelGHistBuilder.ReduceHist b2 c nid 0 nbins
  = Some (b2, <[nid := target_row b2 acc nbins nid (c !!! nid)]> c).
Proof.
  intros Hnid Hnb Hc Hrowsc.
  pose proof Hpass as (Hstruct & _ & _).
  pose proof Hstruct as
    (S1 & S2 & S3 & S4 & S5 & S6 & S7 & S8 & S9 & S10 & S11 & S12 & S13).
  simpl in S1, S2, S3.
  destruct (c !! nid) as [h|] eqn:Hh; [|apply lookup_ge_None in Hh; lia].
  assert (length h = nbins) as Hlenh.
  { rewrite Forall_lookup in Hrowsc. by apply (Hrowsc nid). }
  rewrite (list_lookup_total_correct _ _ _ Hh).
  unfold ParallelGHistBuilder.ReduceHist.
  rewrite S1, S2, S3, Hths. rewrite decide_True by done.
  rewrite caller_targets_lookup by done. cbn [mbind option_bind].
  destruct (reduce_thread_fold nid (seq 0 T) (ParallelGHistBuilder.mem_of b2 c) false h)
    as (m' & Hfold & Hbuf & Hcal); [done| |done|done|done|].
  { apply Forall_forall. intros tid Htid%elem_of_seq. lia. }
  fold T. rewrite Hfold. cbn [mbind option_bind fst snd orb].
  unfold target_row. rewrite S1. fold T.
  destruct (existsb _ (seq 0 T)).
  - cbn [mbind option_bind]. rewrite with_mem_same_buffer by done.
    by rewrite Hcal.
  - rewrite (InitilizeHistByZeroes_whole m' (CallerRow nid)
               (reduce_row b2 acc nid h (seq 0 T))).
    + cbn [mbind option_bind]. rewrite with_mem_same_buffer by done.
      simpl. rewrite Hcal. simpl. by rewrite list_insert_insert_eq.
    + simpl. rewrite Hcal. apply list_lookup_insert_eq. by eapply lookup_lt_Some.
    + by apply length_reduce_row.
Qed.

Lemma reduce_nodes_rows (nids : list nat) c :
  NoDup nids → Forall (λ nid, nid < N)%nat nids → (0 < nbins)%nat →
  length c = N → Forall (λ row, length row = nbins) c →
  ∃ c', reduce_nodes (b2, c) nids nbins = Some (b2, c') ∧
    length c' = N ∧ Forall (λ row, length row = nbins) c' ∧
    ∀ n, c' !! n =
         if decide (n ∈ nids) then Some (target_row b2 acc nbins n (c !!! n))
         else c !! n.
Proof.
  intros Hnd Hnids Hnb. revert c.
  induction Hnids as [|nid nids Hnid _ IH]; intros c Hc Hrowsc.
  { exists c. split; [done|]. split; [done|]. split; [done|].
    intros n. rewrite decide_False; [done|]. inversion 1. }
  apply NoDup_cons in Hnd as [Hnin Hnd].
  cbn [reduce_nodes fst snd]. rewrite ReduceHist_row by done.
  cbn [mbind option_bind].
  destruct (IH Hnd (<[nid := target_row b2 acc nbins nid (c !!! nid)]> c))
    as (c' & Hred & Hc' & Hrows' & Hlook).
  { by rewrite length_insert. }
  { apply Forall_insert; [done|]. apply length_target_row.
    apply (Forall_lookup_1 _ _ nid _ Hrowsc).
    apply list_lookup_lookup_total_lt. lia. }
  exists c'. split; [done|]. split; [done|]. split; [done|].
  intros n. rewrite Hlook.
  destruct (decide (n = nid)) as [->|Hne].
  - rewrite decide_False by done. rewrite decide_True by (by left).
    apply list_lookup_insert_eq. lia.
  - rewrite list_lookup_total_insert_ne by done.
    rewrite list_lookup_insert_ne by done.
    destruct (decide (n ∈ nids)).
    + rewrite decide_True by (by right). done.
    + rewrite decide_False; [done|]. by apply not_elem_of_cons.
Qed.

End ReduceFacts.

(** ** Sums of histograms in exact arithmetic *)

Section HistogramAlgebra.
Context {GP : Type} `{GradientPairMonoid GP}.
Variable gpair : nat → GP.
Variable gmat : nat → list nat.

Lemma zip_add_zero_r (h : list GP) (n : nat) :
  length h = n → zip_with gp_add h (replicate n gp_zero) = h.
Proof.
  revert n. induction h as [|x h IH]; intros n Hn; [by destruct n|].
  destruct n as [|n]; [done|]. simpl. rewrite gp_add_zero_r, IH; [done|].
  simpl in Hn. lia.
Qed.

Lemma zip_add_zero_l (h : list GP) (n : nat) :
  length h = n → zip_with gp_add (replicate n gp_zero) h = h.
Proof.
  revert n. induction h as [|x h IH]; intros n Hn; [by destruct n|].
  destruct n as [|n]; [done|]. simpl. rewrite gp_add_zero_l, IH; [done|].
  simpl in Hn. lia.
Qed.

Lemma alter_zip_add (g : GP) (i : nat) (h1 h2 : list GP) :
  alter (λ v, gp_add v g) i (zip_with gp_add h1 h2) =
  zip_with gp_add h1 (alter (λ v, gp_add v g) i h2).
Proof.
  revert i h2. induction h1 as [|x h1 IH]; intros i h2; [done|].
  destruct h2 as [|y h2]; [by destruct i|].
  destruct i as [|i]; simpl.
  - by rewrite gp_add_assoc.
  - f_equal. apply IH.
Qed.

Lemma add_row_zip (h1 h2 : list GP) (row : nat) :
  add_row gpair gmat (zip_with gp_add h1 h2) row =
  zip_with gp_add h1 (add_row gpair gmat h2 row).
Proof.
  unfold add_row. generalize (gmat row). intros bins. revert h2.
  induction bins as [|bin bins IH]; intros h2; simpl; [done|].
  rewrite alter_zip_add. apply IH.
Qed.

Lemma build_rows_zip (h1 h2 : list GP) (rows : list nat) :
  build_rows gpair gmat (zip_with gp_add h1 h2) rows =
  zip_with gp_add h1 (build_rows gpair gmat h2 rows).
Proof.
  unfold build_rows. revert h2.
  induction rows as [|row rows IH]; intros h2; simpl; [done|].
  rewrite add_row_zip. apply IH.
Qed.

(** Accumulating rows into [h] is adding their histogram to [h]. *)
Lemma build_rows_shift (h : list GP) (n : nat) (rows : list nat) :
  length h = n →
  build_rows gpair gmat h rows =
  zip_with gp_add h (build_rows gpair gmat (replicate n gp_zero) rows).
Proof.
  intros Hn. rewrite <- build_rows_zip. by rewrite zip_add_zero_r.
Qed.

(** The sum of the histograms of the parts is the histogram of the
    whole. *)
Lemma foldl_zip_build_rows (f : nat → list nat) (n : nat) (l : list nat)
    (rows : list nat) :
  foldl (λ h t, zip_with gp_add h (build_rows gpair gmat (replicate n gp_zero) (f t)))
    (build_rows gpair gmat (replicate n gp_zero) rows) l =
  build_rows gpair gmat (replicate n gp_zero) (rows ++ (l ≫= f)).
Proof.
  revert rows. induction l as [|t l IH]; intros rows.
  { simpl. change ([] ≫= f) with (@nil nat). by rewrite app_nil_r. }
  cbn [foldl]. rewrite <- build_rows_shift
    by (by rewrite length_build_rows, length_replicate).
  rewrite <- build_rows_app, IH. rewrite bind_cons. by rewrite app_assoc.
Qed.

Lemma foldl_ext_in {A B} (f g : A → B → A) (l : list B) (x : A) :
  (∀ a b, b ∈ l → f a b = g a b) → foldl f x l = foldl g x l.
Proof using Type.
  revert x. induction l as [|b l IH]; intros x Hfg; [done|].
  simpl. rewrite Hfg by (by left). apply IH. intros a b' Hb'. apply Hfg. by right.
Qed.

(** Skipping the thread [t0] whose row is the start value is the same as
    adding all rows to zeros, when no thread before [t0] contributes. *)
Lemma foldl_skip_first (a : nat → list GP) (n t0 T : nat) :
  (t0 < T)%nat → (∀ t, length (a t) = n) →
  (∀ t, (t < t0)%nat → a t = replicate n gp_zero) →
  foldl (λ h t, if decide (t = t0) then h else zip_with gp_add h (a t)) (a t0) (seq 0 T)
  = foldl (λ h t, zip_with gp_add h (a t)) (replicate n gp_zero) (seq 0 T).
Proof.
  intros Ht0 Hlen Hzero.
  replace T with (t0 + S (T - S t0))%nat by lia.
  rewrite seq_app, !foldl_app. cbn [seq foldl].
  rewrite decide_True by done.
  assert (∀ h, length h = n →
            foldl (λ h t, if decide (t = t0) then h else zip_with gp_add h (a t)) h (seq 0 t0)
            = h ∧
            foldl (λ h t, zip_with gp_add h (a t)) h (seq 0 t0) = h) as Hprefix.
  { intros h Hh. assert (∀ k, (k ≤ t0)%nat →
      foldl (λ h t, if decide (t = t0) then h else zip_with gp_add h (a t)) h (seq 0 k) = h ∧
      foldl (λ h t, zip_with gp_add h (a t)) h (seq 0 k) = h) as Hk.
    { induction k as [|k IHk]; intros Hle; [done|].
      rewrite seq_S, !foldl_app. cbn [foldl].
      destruct IHk as [-> ->]; [lia|]. simpl.
      rewrite decide_False by lia. rewrite Hzero by lia.
      by rewrite zip_add_zero_r. }
    by apply Hk. }
  destruct (Hprefix (a t0) (Hlen t0)) as [-> _].
  destruct (Hprefix (replicate n gp_zero) (length_replicate _ _)) as [_ ->].
  rewrite zip_add_zero_l by done.
  apply foldl_ext_in. intros h t Ht. apply elem_of_seq in Ht.
  rewrite decide_False by lia. done.
Qed.

End HistogramAlgebra.

(** ** The work items of the threads *)

Section WorkItems.
Variable space : list Block.
Variables T N : nat.
Hypothesis HT : T ≠ 0%nat.
Hypothesis Hnids : Forall (λ blk, block_nid blk < N)%nat space.
Hypothesis Hsorted : space_sorted space.
Let cs := chunck_size (length space) T.

Lemma GetFirstDimension_lookup (i : nat) blk :
  space !! i = Some blk → GetFirstDimension space i = block_nid blk.
Proof.
  intros Hi. unfold GetFirstDimension. by rewrite (list_lookup_total_correct _ _ _ Hi).
Qed.

Lemma elem_of_work_items (tid : nat) (blk : Block) :
  (tid, blk) ∈ work_items space T ↔
  (tid < T)%nat ∧ blk ∈ thread_blocks space T tid.
Proof.
  unfold work_items. rewrite list_elem_of_bind. split.
  - intros (t & Hin & Ht). apply elem_of_seq in Ht.
    apply list_elem_of_fmap in Hin as (blk' & [= -> ->] & Hblk). split; [lia|done].
  - intros [Ht Hblk]. exists tid. split; [|apply elem_of_seq; lia].
    apply list_elem_of_fmap. by exists blk.
Qed.

Lemma item_chunk_touches (tid : nat) (blk : Block) :
  blk ∈ thread_blocks space T tid → chunk_touches space cs tid (block_nid blk).
Proof.
  intros [k Hk]%list_elem_of_lookup. apply thread_blocks_lookup in Hk as [Hk Hlt].
  fold cs in Hk, Hlt. unfold chunk_touches.
  rewrite <- (GetFirstDimension_lookup _ _ Hk).
  split; [lia|]. split; apply Hsorted; lia.
Qed.

Lemma chunk_touches_used (tid nid : nat) :
  (tid < T)%nat → chunk_touches space cs tid nid →
  (∃ blk, blk ∈ space ∧ block_nid blk = nid) →
  item_used (work_items space T) tid nid.
Proof.
  intros Htid (Hbegin & Hlo & Hhi) (blk & [p Hp]%list_elem_of_lookup & Hblk).
  pose proof (lookup_lt_Some _ _ _ Hp) as Hplt.
  pose proof (GetFirstDimension_lookup _ _ Hp) as Hfd. rewrite Hblk in Hfd.
  set (e := ((cs * tid + cs) `min` length space)%nat) in *.
  assert (∃ k, (cs * tid ≤ k < e)%nat ∧ GetFirstDimension space k = nid) as (k & Hk & Hfk).
  { assert (0 < cs)%nat.
    { pose proof (chunck_size_covers (length space) T HT) as Hcov.
      fold cs in Hcov. destruct (decide (cs = 0)%nat) as [Hz|]; [|lia].
      rewrite Hz in Hcov, Hbegin. lia. }
    destruct (decide (p < cs * tid)%nat).
    - exists (cs * tid)%nat. split; [lia|].
      pose proof (Hsorted p (cs * tid)%nat ltac:(lia) ltac:(lia)). lia.
    - destruct (decide (p < e)%nat); [exists p; split; [lia|done]|].
      exists (e - 1)%nat. split; [lia|].
      pose proof (Hsorted (e - 1)%nat p ltac:(lia) ltac:(lia)). lia. }
  destruct (space !! k) as [blk'|] eqn:Hk'; [|apply lookup_ge_None in Hk'; lia].
  exists (tid, blk'). split; [|split; [done|]].
  - apply elem_of_work_items. split; [done|].
    apply list_elem_of_lookup. exists (k - cs * tid)%nat.
    apply thread_blocks_lookup. fold cs.
    replace (cs * tid + (k - cs * tid))%nat with k by lia. split; [done|]. lia.
  - simpl. by rewrite <- (GetFirstDimension_lookup _ _ Hk').
Qed.

Lemma item_rows_fmap (tid t n : nat) (blocks : list Block) :
  item_rows ((λ blk, (tid, blk)) <$> blocks) t n =
  if decide (tid = t) then node_rows blocks n else [].
Proof.
  unfold item_rows, node_rows. induction blocks as [|blk blocks IH].
  { by case_decide. }
  rewrite fmap_cons, !bind_cons, IH. simpl.
  destruct (decide (tid = t)) as [->|Hne].
  - destruct (decide (block_nid blk = n)).
    + by rewrite decide_True by done.
    + by rewrite decide_False by (by intros [_ ?]).
  - rewrite decide_False by (by intros [? _]). done.
Qed.

Lemma item_rows_bind (l : list nat) (t n : nat) :
  NoDup l →
  item_rows (l ≫= λ tid, (λ blk, (tid, blk)) <$> thread_blocks space T tid) t n =
  if decide (t ∈ l) then node_rows (thread_blocks space T t) n else [].
Proof.
  induction 1 as [|tid l Hnin Hnd IH].
  { rewrite decide_False; [done|]. inversion 1. }
  rewrite bind_cons. unfold item_rows at 1. rewrite bind_app.
  fold (item_rows ((λ blk, (tid, blk)) <$> thread_blocks space T tid) t n).
  fold (item_rows (l ≫= λ tid, (λ blk, (tid, blk)) <$> thread_blocks space T tid) t n).
  rewrite item_rows_fmap, IH.
  destruct (decide (tid = t)) as [->|Hne].
  - rewrite (decide_False (P := t ∈ l)) by done.
    rewrite decide_True by (by left). apply app_nil_r.
  - destruct (decide (t ∈ l)).
    + by rewrite decide_True by (by right).
    + rewrite decide_False; [done|]. apply not_elem_of_cons. split; [congruence|done].
Qed.

Lemma item_rows_work_items (t n : nat) :
  (t < T)%nat →
  item_rows (work_items space T) t n = node_rows (thread_blocks space T t) n.
Proof.
  intros Ht. unfold work_items. rewrite item_rows_bind by apply NoDup_seq.
  rewrite decide_True; [done|]. apply elem_of_seq. lia.
Qed.

Lemma node_rows_space (n : nat) :
  node_rows space n = seq 0 T ≫= λ t, node_rows (thread_blocks space T t) n.
Proof.
  rewrite <- (work_items_blocks space T HT) at 1. unfold work_items.
  generalize (seq 0 T). intros l. induction l as [|t l IH]; [done|].
  rewrite !bind_cons, fmap_app. unfold node_rows at 1. rewrite bind_app.
  fold (node_rows (((λ blk, (t, blk)) <$> thread_blocks space T t).*2) n).
  fold (node_rows ((l ≫= λ tid, (λ blk, (tid, blk)) <$> thread_blocks space T tid).*2) n).
  rewrite IH. f_equal. rewrite <- list_fmap_compose.
  f_equal. exact (list_fmap_id (thread_blocks space T t)).
Qed.

Lemma touches_chunk_touches {GP : Type} (b1 : ParallelGHistBuilder.t GP) (tid nid : nat) :
  ParallelGHistBuilder.nthreads_ b1 = T → ParallelGHistBuilder.nodes_ b1 = N →
  ParallelGHistBuilder.threads_to_nids_map_ b1 =
    foldl (ParallelGHistBuilder.mark_thread N space cs)
      (replicate (T * N) false) (seq 0 T) →
  (tid < T)%nat → (nid < N)%nat →
  ParallelGHistBuilder.touches b1 tid nid = true ↔ chunk_touches space cs tid nid.
Proof.
  intros HbT HbN Hmap Htid Hnid. unfold ParallelGHistBuilder.touches.
  rewrite Hmap, HbN.
  rewrite mark_threads_lookup by (rewrite length_replicate; nia).
  rewrite lookup_total_replicate_2 by nia. split.
  - intros [(tid' & nid' & Hin & Hch & Heq)|?]; [|done].
    assert (nid' < N)%nat.
    { destruct Hch as (Hb & _ & Hhi).
      set (e := ((cs * tid' + cs) `min` length space)%nat) in *.
      destruct (space !! (e - 1)%nat) as [blk|] eqn:Hblk.
      - rewrite (GetFirstDimension_lookup _ _ Hblk) in Hhi.
        rewrite Forall_lookup in Hnids. specialize (Hnids _ _ Hblk). simpl in Hnids. lia.
      - apply lookup_ge_None in Hblk.
        assert (0 < cs)%nat; [|lia].
        pose proof (chunck_size_covers (length space) T HT) as Hcov.
        fold cs in Hcov. destruct (decide (cs = 0)%nat) as [Hz|]; [|lia].
        rewrite Hz in Hcov, Hb. lia. }
    destruct (index_inj N tid nid tid' nid') as [-> ->]; done.
  - intros Hch. left. exists tid, nid. split; [apply elem_of_seq; lia|done].
Qed.

End WorkItems.

(** ** A full parallel pass (claim C1) *)

Lemma foldl_ext_inv {A B} (P : A → Prop) (f g : A → B → A) (l : list B) (x : A) :
  P x → (∀ a b, b ∈ l → P a → f a b = g a b ∧ P (g a b)) →
  foldl f x l = foldl g x l.
Proof.
  revert x. induction l as [|b l IH]; intros x Hx Hfg; [done|].
  simpl. destruct (Hfg x b) as [-> HP]; [by left|done|].
  apply IH; [done|]. intros a b' Hb'. apply Hfg. by right.
Qed.

Section ParallelBuild.
Context {GP : Type} `{GradientPairMonoid GP}.
Variable gpair : nat → GP.
Variable gmat : nat → list nat.
Variable space : list Block.
Variables T N nbins : nat.
Hypothesis HT : T ≠ 0%nat.
Hypothesis Hnids : Forall (λ blk, block_nid blk < N)%nat space.
Hypothesis Hsorted : space_sorted space.
Hypothesis Hbins :
  Forall (λ blk, Forall (λ r, Forall (λ bin, bin < nbins)%nat (gmat r)) (block_rows blk))
    space.

Variable b1 : ParallelGHistBuilder.t GP.
Variable total : nat.
Hypothesis HbT : ParallelGHistBuilder.nthreads_ b1 = T.
Hypothesis HbN : ParallelGHistBuilder.nodes_ b1 = N.
Hypothesis Hmap :
  ParallelGHistBuilder.threads_to_nids_map_ b1 =
    foldl (ParallelGHistBuilder.mark_thread N space (chunck_size (length space) T))
      (replicate (T * N) false) (seq 0 T).
Hypothesis Hinv : scratch_inv (ParallelGHistBuilder.tid_nid_to_hist_ b1) total.
Hypothesis Hassigned : ∀ nid, (nid < ParallelGHistBuilder.nodes_ b1)%nat →
  node_assigned (ParallelGHistBuilder.tid_nid_to_hist_ b1) (touching b1 nid) nid.

Let items := work_items space T.
Let acc := acc_items gpair gmat nbins items.

Lemma thread_block_in_space (tid : nat) (blk : Block) :
  blk ∈ thread_blocks space T tid → blk ∈ space.
Proof.
  intros [k Hk]%list_elem_of_lookup. apply thread_blocks_lookup in Hk as [Hk _].
  by eapply list_elem_of_lookup_2.
Qed.

Lemma work_items_ok :
  Forall (λ item, (item.1 < ParallelGHistBuilder.nthreads_ b1)%nat ∧
            (block_nid item.2 < ParallelGHistBuilder.nodes_ b1)%nat ∧
            ParallelGHistBuilder.touches b1 item.1 (block_nid item.2) = true ∧
            Forall (λ r, Forall (λ bin, bin < nbins)%nat (gmat r)) (block_rows item.2))
    items.
Proof.
  apply Forall_forall. intros [tid blk] [Htid Hblk]%(elem_of_work_items space T HT).
  pose proof (thread_block_in_space _ _ Hblk) as Hin.
  pose proof (proj1 (Forall_forall _ _) Hnids _ Hin) as Hn.
  pose proof (proj1 (Forall_forall _ _) Hbins _ Hin) as Hb.
  rewrite HbT, HbN. simpl.
  split; [done|]. split; [done|]. split; [|done].
  apply (touches_chunk_touches space T N HT Hnids b1); try done.
  by apply item_chunk_touches.
Qed.

Lemma used_touches (t n : nat) :
  item_used items t n →
  (t < T)%nat ∧ (n < N)%nat ∧ ParallelGHistBuilder.touches b1 t n = true ∧
  ∃ blk, blk ∈ space ∧ block_nid blk = n.
Proof.
  intros ([tid blk] & Hin & Ht & Hn). simpl in Ht, Hn. subst t n.
  pose proof work_items_ok as Hok. rewrite Forall_forall in Hok.
  destruct (Hok _ Hin) as (Htid & Hnid & Htouch & _). simpl in *.
  rewrite HbT in Htid. rewrite HbN in Hnid.
  split; [done|]. split; [done|]. split; [done|].
  exists blk. split; [|done]. apply (elem_of_work_items space T HT) in Hin as [_ Hin].
  by eapply thread_block_in_space.
Qed.

Lemma acc_unused (t n : nat) :
  ¬ item_used items t n → acc t n = replicate nbins gp_zero.
Proof. intros Hu. unfold acc, acc_items. by rewrite item_rows_unused. Qed.

Lemma length_acc (t n : nat) : length (acc t n) = nbins.
Proof. unfold acc, acc_items. by rewrite length_build_rows, length_replicate. Qed.

Lemma serial_hist_sum (nid : nat) :
  serial_hist gpair gmat space nbins nid =
  foldl (λ h t, zip_with gp_add h (acc t nid)) (replicate nbins gp_zero) (seq 0 T).
Proof.
  unfold serial_hist. rewrite (node_rows_space space T HT).
  pose proof (foldl_zip_build_rows gpair gmat
                (λ t, node_rows (thread_blocks space T t) nid) nbins (seq 0 T) [])
    as Hsum.
  simpl in Hsum. rewrite <- Hsum.
  apply foldl_ext_in. intros h t Ht%elem_of_seq.
  unfold acc, acc_items, items. rewrite item_rows_work_items by lia. done.
Qed.

Variable b2 : ParallelGHistBuilder.t GP.
Variable c2 : list (list GP).
Hypothesis Hpass : pass_inv b1 nbins (item_used items) acc (b2, c2).

Lemma target_row_serial (nid : nat) :
  (nid < N)%nat →
  target_row b2 acc nbins nid (c2 !!! nid) = serial_hist gpair gmat space nbins nid.
Proof.
  intros Hnid. rewrite serial_hist_sum.
  destruct Hpass as (Hstruct & Hflags & Hcontent).
  pose proof Hstruct as (S1 & _ & _ & S4 & _).
  simpl in S1, S4, Hflags, Hcontent. rewrite HbT in S1, Hflags, Hcontent.
  rewrite HbN in Hflags, Hcontent.
  unfold target_row. rewrite S1.
  destruct (existsb _ (seq 0 T)) eqn:Hany.
  - apply existsb_exists in Hany as (t & Ht%list_elem_of_In%elem_of_seq & Hused).
    assert (t < T)%nat as HtT by lia.
    apply (Hflags t nid HtT Hnid) in Hused.
    destruct (used_touches _ _ Hused) as (_ & _ & Htouch & Hblk).
    assert (t ∈ touching b1 nid) as Hin.
    { apply elem_of_touching. by rewrite HbT. }
    destruct (touching b1 nid) as [|t0 rest] eqn:Hts; [inversion Hin|].
    clear t Ht HtT Hused Htouch Hin.
    destruct (filter_seq_head _ _ _ _ _ Hts) as (Htouch0 & Ht0 & Hbefore).
    rewrite HbT in Ht0.
    assert (ParallelGHistBuilder.tid_nid_to_hist_ b1 !! (t0, nid) = Some (-1)) as Hidx0.
    { apply (first_is_sentinel b1 Hassigned t0 nid rest); [by rewrite HbN|done]. }
    assert (item_used items t0 nid) as Hused0.
    { apply (chunk_touches_used space T HT Hsorted); [lia| |done].
      apply (touches_chunk_touches space T N HT Hnids b1); try done. lia. }
    assert (c2 !!! nid = acc t0 nid) as ->.
    { apply list_lookup_total_correct.
      specialize (Hcontent t0 nid (-1) ltac:(lia) Hnid).
      unfold hist_array in Hcontent. rewrite decide_True in Hcontent by done.
      apply Hcontent; [|done]. apply Hflags; [lia|done..]. }
    rewrite <- (foldl_skip_first (λ t, acc t nid) nbins t0 T);
      [|lia|intros; apply length_acc|].
    2:{ intros t Ht. apply acc_unused. intros Hu.
        destruct (used_touches _ _ Hu) as (_ & _ & Htouch & _).
        rewrite Hbefore in Htouch by lia. done. }
    unfold reduce_row.
    apply (foldl_ext_inv (λ h, length h = nbins)); [apply length_acc|].
    intros h t Ht%elem_of_seq Hh. rewrite S4.
    destruct (ParallelGHistBuilder.was_used b2 t nid) eqn:Hu.
    + apply (Hflags t nid ltac:(lia) Hnid) in Hu.
      destruct (used_touches _ _ Hu) as (_ & _ & Htouch & _).
      destruct (assigned_touches b1 total Hinv Hassigned t nid) as (idx & Hidx & Hrange);
        [rewrite HbT; lia | by rewrite HbN | done |].
      rewrite Hidx.
      destruct (decide (t = t0)) as [->|Hne].
      * rewrite Hidx0 in Hidx. injection Hidx as <-. by rewrite decide_True.
      * rewrite decide_False.
        { split; [done|]. rewrite length_zip_with, Hh, length_acc. lia. }
        intros ->. destruct (sentinel_is_first b1 Hassigned t nid) as [rest' Hts'];
          [by rewrite HbN|done|]. congruence.
    + assert (¬ item_used items t nid) as Hnu.
      { intros Hu'. apply (Hflags t nid ltac:(lia) Hnid) in Hu'. congruence. }
      rewrite decide_False by (intros ->; done).
      rewrite acc_unused by done. rewrite zip_add_zero_r by done. done.
  - assert (∀ t, (t < T)%nat → acc t nid = replicate nbins gp_zero) as Hzero.
    { intros t Ht. apply acc_unused. intros Hu.
      apply (Hflags t nid Ht Hnid) in Hu.
      assert (existsb (λ tid, ParallelGHistBuilder.was_used b2 tid nid) (seq 0 T) = true);
        [|congruence].
      apply existsb_exists. exists t. split; [|done].
      apply list_elem_of_In, elem_of_seq. lia. }
    symmetry. transitivity (foldl (λ (h : list GP) (t : nat), h)
                              (replicate nbins gp_zero) (seq 0 T)).
    + apply (foldl_ext_inv (λ h, length h = nbins)); [apply length_replicate|].
      intros h t Ht%elem_of_seq Hh. rewrite Hzero by lia.
      by rewrite zip_add_zero_r.
    + generalize (seq 0 T). intros l. by induction l.
Qed.

End ParallelBuild.

Section ParallelPass.
Context {GP : Type} `{GradientPairMonoid GP}.

(** C1, as the code has it.  Where the addition of gradient pairs is associative with
    zero as identity, a full pass ([Reset], the accumulation of every
    thread's blocks through [GetInitializedHist], then
    [ReduceHist(nid, 0, nbins)] for every node) with at least one thread
    runs to its end and leaves, in the target of every node, the serial
    sum of the rows of that node in the order of the work space, whatever
    the number of threads. *)
Theorem parallel_build_equals_serial (gpair : nat → GP) (gmat : nat → list nat)
    (b : ParallelGHistBuilder.t GP) (caller : list (list GP))
    (nthreads nodes nbins : nat) (space : list Block) :
  nthreads ≠ 0%nat → (0 < nbins)%nat →
  Z.of_nat nbins ≤ u32_max → Z.of_nat (nthreads * nodes) ≤ u32_max →
  builder_ready nbins b →
  length caller = nodes → Forall (λ row, length row = nbins) caller →
  Forall (λ blk, (block_nid blk < nodes)%nat) space →
  space_sorted space →
  Forall (λ blk, Forall (λ r, Forall (λ bin, bin < nbins)%nat (gmat r)) (block_rows blk))
    space →
  ∃ b' caller',
    parallel_build gpair gmat b caller nthreads nodes space
      (caller_targets nodes nbins) nbins = Some (b', caller') ∧
    length caller' = nodes ∧
    ∀ nid, (nid < nodes)%nat →
      caller' !! nid = Some (serial_hist gpair gmat space nbins nid).
Proof.
  intros HT Hnb Hnb32 Hbound (R1 & R2 & R3 & R4) Hclen Hcrows Hnids Hsorted Hbins.
  assert (u32 (Z.of_nat nbins) = Z.of_nat nbins) as Hu32.
  { unfold u32. apply Z.mod_small. unfold u32_max in Hnb32. lia. }
  destruct (Reset_spec (λ row, length row = 0%nat ∨ length row = nbins) b nthreads nodes
              space (caller_targets nodes nbins) HT)
    as (b1 & HReset & B1 & B2 & B3 & B4 & B5 & B6 & B7 & B8 & B9 & B10 & B11 & B12
        & B13 & _).
  { unfold caller_targets. by rewrite length_fmap, length_seq. }
  { done. }
  { by left. }
  { intros _. exact R4. }
  rewrite R1, Hu32 in B8. rewrite R3 in B9.
  set (total := ParallelGHistBuilder.hist_allocated_additionally b1) in *.
  assert (Z.of_nat total ≤ u32_max) as Htot32.
  { etrans; [|exact Hbound]. apply Nat2Z.inj_le.
    pose proof (hist_allocated_bound b1) as Hle. rewrite B2, B3 in Hle. exact Hle. }
  assert (∀ nid, (nid < ParallelGHistBuilder.nodes_ b1)%nat →
            node_assigned (ParallelGHistBuilder.tid_nid_to_hist_ b1) (touching b1 nid) nid)
    as Hassigned.
  { intros nid Hnid. apply B13. by rewrite <- B3. }
  assert (ParallelGHistBuilder.targeted_hists_ b1 =
            caller_targets (ParallelGHistBuilder.nodes_ b1) nbins) as Hths.
  { by rewrite B3. }
  assert (pass_inv b1 nbins (item_used []) (acc_items gpair gmat nbins []) (b1, caller))
    as Hstart.
  { split; [|split].
    - repeat split; simpl; try done.
      + by rewrite B3.
      + by rewrite B5, length_replicate, B2, B3.
    - intros tid nid Htid Hnid. simpl. unfold ParallelGHistBuilder.was_used.
      rewrite B5, lookup_total_replicate_2 by (rewrite B2, B3 in *; nia).
      split; [done|]. intros (item & Hin & _). inversion Hin.
    - intros tid nid idx Htid Hnid. simpl. unfold ParallelGHistBuilder.was_used.
      rewrite B5, lookup_total_replicate_2 by (rewrite B2, B3 in *; nia). done. }
  destruct (build_blocks_spec gpair gmat b1 total nbins B12 Hassigned Hths B7 B11 Htot32
              (work_items space nthreads) [] (b1, caller) Hstart)
    as ([b2 c2] & Hbuild & Hpass).
  { apply (work_items_ok gmat space nthreads nodes nbins HT Hnids Hsorted Hbins b1);
      done. }
  rewrite app_nil_l in Hpass.
  pose proof Hpass as (Hstruct & _). destruct Hstruct as (_ & _ & _ & _ & _ & _ & _ & _ & _
    & _ & Hc2len & Hc2rows & _). simpl in Hc2len, Hc2rows.
  destruct (reduce_nodes_rows b1 total nbins B12 Hassigned Hths B7 B11 Htot32
              (item_used (work_items space nthreads))
              (acc_items gpair gmat nbins (work_items space nthreads)) b2 c2 Hpass)
    with (nids := seq 0 nodes) (c := c2) as (c' & Hreduce & Hc'len & _ & Hc').
  { intros t n Ht Hn Hu.
    by destruct (used_touches gmat space nthreads nodes nbins HT Hnids Hsorted Hbins
                   b1 B2 B3 B6 t n Hu) as (_ & _ & ? & _). }
  { intros t n. unfold acc_items. by rewrite length_build_rows, length_replicate. }
  { apply NoDup_seq. }
  { apply Forall_forall. intros n Hn%elem_of_seq. rewrite B3. lia. }
  { done. }
  { done. }
  { done. }
  exists b2, c'. split; [|split].
  - unfold parallel_build. rewrite HReset. simpl. rewrite Hbuild. simpl. exact Hreduce.
  - by rewrite Hc'len.
  - intros nid Hnid. rewrite Hc'. rewrite decide_True by (apply elem_of_seq; lia).
    f_equal.
    apply (target_row_serial gpair gmat space nthreads nodes nbins HT Hnids Hsorted Hbins
             b1 total B2 B3 B6 B12 Hassigned b2 c2 Hpass nid Hnid).
Qed.

End ParallelPass.

(** Integer sums are exact. *)
#[global] Instance Z_pair_monoid : GradientPairMonoid (Z * Z).
Proof.
  split.
  - intros [a1 a2] [b1 b2] [c1 c2]. simpl. f_equal; lia.
  - intros [a1 a2]. simpl. f_equal; lia.
  - intros [a1 a2]. simpl. f_equal; lia.
Defined.

Lemma space_node1_sorted : space_sorted space_node1.
Proof.
  intros i j Hij Hj. simpl in Hj.
  destruct j as [|[|j]]; [| |lia]; destruct i as [|[|i]]; try lia; by vm_compute.
Qed.

Lemma parallel_build_equals_serial_witness :
  ∃ b' caller',
    parallel_build gpair_count gmat_mod4 builder4 caller_stale 2 2 space_node1
      (caller_targets 2 4) 4 = Some (b', caller') ∧
    length caller' = 2%nat ∧
    ∀ nid, (nid < 2)%nat →
      caller' !! nid = Some (serial_hist gpair_count gmat_mod4 space_node1 4 nid).
Proof.
  apply parallel_build_equals_serial.
  - done.
  - lia.
  - by vm_compute.
  - by vm_compute.
  - repeat split; repeat constructor.
  - reflexivity.
  - repeat constructor.
  - repeat constructor.
  - exact space_node1_sorted.
  - repeat constructor.
Defined.

(** C1 as the specification words it fails for binary32 sums: with one
    node, one bin and the gradients 2^24, 1, 1, 1, one thread leaves the
    serial sum 2^24 in the target (each addition of 1 is rounded away),
    while two threads leave 2^24 + 2, the second thread having summed
    1 + 1 on its own. *)
Lemma parallel_build_binary32_depends_on_threads :
  snd <$> parallel_build gpair_big_small gmat_bin0 builder1f caller1f 1 1 space_blocks4
            (caller_targets 1 1) 1
    = Some [serial_hist gpair_big_small gmat_bin0 space_blocks4 1 0] ∧
  ∃ caller',
    snd <$> parallel_build gpair_big_small gmat_bin0 builder1f caller1f 2 1 space_blocks4
              (caller_targets 1 1) 1 = Some caller' ∧
    caller' !! 0%nat = Some [{| grad_ := float_of_Z (2 ^ 24 + 2); hess_ := float_of_Z 4 |}] ∧
    caller' !! 0%nat ≠ Some (serial_hist gpair_big_small gmat_bin0 space_blocks4 1 0).
Proof.
  split; [by vm_compute|].
  eexists. split; [by vm_compute|]. split; [by vm_compute|].
  vm_compute. intros Heq. discriminate Heq.
Qed.

Lemma ReduceHist_untouched_node_zero_witness :
  ∃ b b' caller' row,
    ParallelGHistBuilder.Reset builder4 2 2 space_node1 (caller_targets 2 4) = Some b ∧
    ParallelGHistBuilder.ReduceHist b caller_stale 0 0 4 = Some (b', caller') ∧
    span_read (ParallelGHistBuilder.mem_of b' caller') (whole_row (CallerRow 0) 4)
      = Some row ∧
    ∀ i, (0 ≤ i < 4)%nat → row !! i = Some (0, 0).
Proof.
  destruct (ParallelGHistBuilder.Reset builder4 2 2 space_node1 (caller_targets 2 4))
    as [b|] eqn:HReset; [|by vm_compute in HReset].
  vm_compute in HReset. injection HReset as <-.
  lazymatch goal with
  | |- context [Some ?b = Some _] =>
      exists b;
      destruct (ReduceHist_untouched_node_zero b caller_stale 0 0 4
                  (whole_row (CallerRow 0) 4) (replicate 4 (7, 7)))
        as (b' & caller' & row & HReduce & Hread & Hzero);
        [| | | | | |exists b', caller', row; split; [reflexivity|]; split; [exact HReduce|];
                   split; [exact Hread|exact Hzero]]
  end.
  - lia.
  - simpl. lia.
  - reflexivity.
  - intros tid Htid. simpl in Htid.
    destruct tid as [|[|tid]]; [reflexivity|reflexivity|lia].
  - reflexivity.
  - simpl. lia.
Defined.

(** ** More on the histogram cuts *)

Lemma SFltb_irrefl (x : spec_float) : SFltb x x = false.
Proof.
  destruct x as [s|s| |s m e]; try (by destruct s); [done|].
  unfold SFltb, SFcompare. rewrite Z.compare_refl.
  change (Pos.compare_cont Eq) with Pos.compare.
  rewrite Pos.compare_refl. by destruct s.
Qed.

Lemma SFleb_SFltb_trans (x y z : spec_float) :
  SFleb x y = true → SFltb y z = true → SFltb x z = true.
Proof.
  destruct x as [sx|sx| |sx mx ex], y as [sy|sy| |sy my ey],
    z as [sz|sz| |sz mz ez];
    unfold SFleb, SFltb, SFcompare;
    repeat match goal with s : bool |- _ => destruct s end;
    try discriminate; try reflexivity;
    change (Pos.compare_cont Eq) with Pos.compare;
    destruct (Z.compare_spec ex ey), (Z.compare_spec ey ez),
      (Z.compare_spec ex ez); try discriminate; try reflexivity; try lia;
    destruct (Pos.compare_spec mx my), (Pos.compare_spec my mz),
      (Pos.compare_spec mx mz); simpl; try discriminate; try reflexivity; lia.
Qed.

(** With a comparison that always advances the loop ends at the end of the
    range. *)
Lemma bisect_loop_all adv fuel first len :
  0 ≤ len → (Z.to_nat len ≤ fuel)%nat →
  (∀ i, first ≤ i < first + len → adv i = true) →
  bisect_loop adv fuel first len = first + len.
Proof.
  revert first len. induction fuel as [|fuel IH]; intros first len Hlen Hfuel Hadv; simpl.
  { lia. }
  case_decide as Hpos; [|lia].
  pose proof (half_bounds len Hpos) as Hh.
  rewrite Hadv by lia.
  rewrite IH; [lia | lia | lia |]. intros i Hi. apply Hadv. lia.
Qed.

(** X1.  Binning is monotone: on a feature whose slice of boundaries is
    sorted, a value that is less than or equal to another one never gets a
    larger bin. *)
Theorem SearchBin_monotone (c : HistogramCuts.t) (v1 v2 : spec_float)
    (column_id beg end_ : Z) :
  at_ (HistogramCuts.cut_ptrs_ c) column_id = Some beg →
  at_ (HistogramCuts.cut_ptrs_ c) (u32 (column_id + 1)) = Some end_ →
  0 ≤ beg → beg < end_ → end_ ≤ u32_max →
  end_ ≤ Z.of_nat (length (HistogramCuts.cut_values_ c)) →
  ascending (slice (HistogramCuts.cut_values_ c) beg end_) = true →
  SFleb v1 v2 = true →
  ∃ i1 i2, HistogramCuts.SearchBin c v1 column_id = Some i1 ∧
           HistogramCuts.SearchBin c v2 column_id = Some i2 ∧
           i1 ≤ i2.
Proof.
  intros Hbeg Hend Hbeg0 Hbegend Hend32 Hvalues Hasc Hle.
  rewrite !(SearchBin_unfold c column_id beg end_) by (done || lia). cbv zeta.
  destruct (upper_bound_spec (HistogramCuts.cut_values_ c) beg end_ v1)
    as (Hr1 & Hlow1 & Hhigh1); [done | lia | done..|].
  destruct (upper_bound_spec (HistogramCuts.cut_values_ c) beg end_ v2)
    as (Hr2 & Hlow2 & Hhigh2); [done | lia | done..|].
  set (r1 := upper_bound _ _ _ v1) in *. set (r2 := upper_bound _ _ _ v2) in *.
  assert (r1 ≤ r2) as Hr.
  { destruct (decide (r1 ≤ r2)) as [|Hgt]; [done|]. exfalso.
    specialize (Hlow1 r2 ltac:(lia)). specialize (Hhigh2 r2 ltac:(lia)).
    rewrite (SFleb_SFltb_trans _ _ _ Hle Hhigh2) in Hlow1. done. }
  eexists _, _. split; [reflexivity|]. split; [reflexivity|].
  destruct (decide (r1 = end_)) as [E1|E1], (decide (r2 = end_)) as [E2|E2];
    rewrite ?E1, ?E2, ?u32_small by lia; lia.
Qed.

Lemma SearchBin_monotone_witness :
  ∃ i1 i2, HistogramCuts.SearchBin cuts_2_5_9 (float_of_Z 2) 0 = Some i1 ∧
           HistogramCuts.SearchBin cuts_2_5_9 (float_of_Z 7) 0 = Some i2 ∧
           i1 ≤ i2.
Proof.
  apply (SearchBin_monotone cuts_2_5_9 (float_of_Z 2) (float_of_Z 7) 0 0 3);
    [reflexivity | reflexivity | lia | lia | by vm_compute | simpl; lia
    | by vm_compute | by vm_compute].
Defined.

(** X2.  A NaN is never less than a boundary, so [SearchBin] puts it into
    the last bin of the feature, sorted boundaries or not. *)
Theorem SearchBin_nan_last_bin (c : HistogramCuts.t) (column_id beg end_ : Z) :
  at_ (HistogramCuts.cut_ptrs_ c) column_id = Some beg →
  at_ (HistogramCuts.cut_ptrs_ c) (u32 (column_id + 1)) = Some end_ →
  0 ≤ beg → beg < end_ → end_ ≤ u32_max →
  HistogramCuts.SearchBin c S754_nan column_id = Some (end_ - 1).
Proof.
  intros Hbeg Hend Hbeg0 Hbegend Hend32.
  rewrite (SearchBin_unfold c column_id beg end_) by (done || lia). cbv zeta.
  unfold upper_bound. rewrite upper_bound_loop_bisect.
  rewrite bisect_loop_all by (done || lia).
  replace (beg + (end_ - beg)) with end_ by lia.
  rewrite decide_True by done. by rewrite u32_small by lia.
Qed.

Lemma SearchBin_nan_last_bin_witness :
  HistogramCuts.SearchBin cuts_two_features S754_nan 1 = Some (5 - 1).
Proof.
  apply (SearchBin_nan_last_bin cuts_two_features 1 3 5);
    [reflexivity | reflexivity | lia | lia | by vm_compute].
Defined.

(** X3.  A value equal to a boundary belongs to the next bin: on a sorted
    slice, [SearchBin] of the boundary at position [k] is [k + 1], and [k]
    itself only for the last boundary of the feature. *)
Theorem SearchBin_boundary_next_bin (c : HistogramCuts.t) (column_id beg end_ k : Z) :
  at_ (HistogramCuts.cut_ptrs_ c) column_id = Some beg →
  at_ (HistogramCuts.cut_ptrs_ c) (u32 (column_id + 1)) = Some end_ →
  0 ≤ beg → end_ ≤ u32_max →
  end_ ≤ Z.of_nat (length (HistogramCuts.cut_values_ c)) →
  ascending (slice (HistogramCuts.cut_values_ c) beg end_) = true →
  beg ≤ k < end_ →
  HistogramCuts.SearchBin c (HistogramCuts.cut_values_ c !!! Z.to_nat k) column_id
    = Some (if decide (k + 1 = end_) then k else k + 1).
Proof.
  intros Hbeg Hend Hbeg0 Hend32 Hvalues Hasc Hk.
  rewrite (SearchBin_unfold c column_id beg end_) by (done || lia). cbv zeta.
  destruct (upper_bound_spec (HistogramCuts.cut_values_ c) beg end_
              (HistogramCuts.cut_values_ c !!! Z.to_nat k))
    as (Hr & Hlow & Hhigh); [done | lia | done..|].
  set (r := upper_bound _ _ _ _) in *.
  assert (r = k + 1) as ->.
  { destruct (decide (r ≤ k)) as [Hle|Hgt].
    - specialize (Hhigh k ltac:(lia)). by rewrite SFltb_irrefl in Hhigh.
    - destruct (decide (k + 1 < r)) as [Hlt|]; [|lia].
      specialize (Hlow (k + 1) ltac:(lia)).
      rewrite (ascending_slice _ beg end_ k (k + 1)) in Hlow by (done || lia).
      done. }
  case_decide; [|done]. f_equal. rewrite u32_small by lia. lia.
Qed.

Lemma SearchBin_boundary_next_bin_witness :
  HistogramCuts.SearchBin cuts_two_features
    (HistogramCuts.cut_values_ cuts_two_features !!! Z.to_nat 3) 1
    = Some (if decide (3 + 1 = 5) then 3 else 3 + 1).
Proof.
  apply (SearchBin_boundary_next_bin cuts_two_features 1 3 5 3);
    [reflexivity | reflexivity | lia | by vm_compute | simpl; lia
    | by vm_compute | lia].
Defined.

(** X4.  A category that is among the sorted boundaries of its feature is
    found at its own position: when the boundary at position [k] is the
    truncated value of the entry, [SearchCatBin] returns [k]. *)
Theorem SearchCatBin_finds_category (c : HistogramCuts.t) (e : HistogramCuts.Entry)
    (beg end_ k : Z) :
  at_ (HistogramCuts.cut_ptrs_ c) (HistogramCuts.index e) = Some beg →
  at_ (HistogramCuts.cut_ptrs_ c) (u32 (HistogramCuts.index e + 1)) = Some end_ →
  0 ≤ beg → end_ ≤ u32_max →
  end_ ≤ Z.of_nat (length (HistogramCuts.cut_values_ c)) →
  ascending (slice (HistogramCuts.cut_values_ c) beg end_) = true →
  beg ≤ k < end_ →
  HistogramCuts.cut_values_ c !!! Z.to_nat k
    = float_of_Z (AsCat (HistogramCuts.fvalue e)) →
  HistogramCuts.SearchCatBin c e = Some k.
Proof.
  intros Hbeg Hend Hbeg0 Hend32 Hvalues Hasc Hk Hcat.
  rewrite (SearchCatBin_unfold c (HistogramCuts.index e) beg end_) by (done || lia).
  cbv zeta. rewrite <- Hcat.
  destruct (lower_bound_spec (HistogramCuts.cut_values_ c) beg end_
              (HistogramCuts.cut_values_ c !!! Z.to_nat k))
    as (Hr & Hlow & Hhigh); [done | lia | done..|].
  set (r := lower_bound _ _ _ _) in *.
  assert (r = k) as ->.
  { destruct (decide (k < r)) as [Hlt|Hge].
    - specialize (Hlow k ltac:(lia)). by rewrite SFltb_irrefl in Hlow.
    - destruct (decide (r < k)) as [Hlt|]; [|lia].
      specialize (Hhigh r ltac:(lia)).
      rewrite (ascending_slice _ beg end_ r k) in Hhigh by (done || lia).
      done. }
  rewrite decide_False by lia. done.
Qed.

Lemma SearchCatBin_finds_category_witness :
  HistogramCuts.SearchCatBin cuts_1_3_7
    {| HistogramCuts.index := 0; HistogramCuts.fvalue := float_of_bits 7 (-1) |}
    = Some 1.
Proof.
  apply (SearchCatBin_finds_category cuts_1_3_7 _ 0 3 1);
    [reflexivity | reflexivity | lia | by vm_compute | simpl; lia
    | by vm_compute | lia | by vm_compute].
Defined.

Lemma at_Some_lookup_total {A} `{Inhabited A} (l : list A) (i : Z) :
  0 ≤ i < Z.of_nat (length l) → at_ l i = Some (l !!! Z.to_nat i).
Proof.
  intros Hi. unfold at_. rewrite decide_True by lia.
  apply list_lookup_lookup_total_lt. lia.
Qed.

Lemma at_None_ge {A} (l : list A) (i : Z) :
  Z.of_nat (length l) ≤ i → at_ l i = None.
Proof.
  intros Hi. unfold at_. case_decide; [|done]. apply lookup_ge_None. lia.
Qed.

Lemma ptrs_ordered_range (ptrs : list Z) (i : nat) :
  ptrs_ordered ptrs → (i < length ptrs)%nat → 0 ≤ ptrs !!! i ≤ u32_max.
Proof.
  intros [_ Hall] Hi. rewrite Forall_forall in Hall. apply Hall.
  apply list_elem_of_lookup. exists i. by apply list_lookup_lookup_total_lt.
Qed.

Lemma FeatureBins_difference (c : HistogramCuts.t) (f : nat) :
  ptrs_ordered (HistogramCuts.cut_ptrs_ c) →
  (S f < length (HistogramCuts.cut_ptrs_ c))%nat →
  Z.of_nat (length (HistogramCuts.cut_ptrs_ c)) ≤ u32_max →
  HistogramCuts.FeatureBins c (Z.of_nat f) =
    Some (HistogramCuts.cut_ptrs_ c !!! S f - HistogramCuts.cut_ptrs_ c !!! f).
Proof.
  intros Hord Hf Hlen. unfold HistogramCuts.FeatureBins.
  rewrite u32_small by lia. rewrite at_Some_lookup_total by lia. simpl.
  replace (Z.to_nat (Z.of_nat f + 1)) with (S f) by lia. rewrite Nat2Z.id.
  f_equal. apply u32_small.
  pose proof (ptrs_ordered_range _ (S f) Hord ltac:(lia)).
  pose proof (ptrs_ordered_range _ f Hord ltac:(lia)).
  destruct Hord as [Hmono _].
  pose proof (Hmono f (S f) _ _ ltac:(lia)
    (list_lookup_lookup_total_lt (HistogramCuts.cut_ptrs_ c) f ltac:(lia))
    (list_lookup_lookup_total_lt (HistogramCuts.cut_ptrs_ c) (S f) ltac:(lia))). lia.
Qed.

Lemma sum_FeatureBins_partial (c : HistogramCuts.t) (n : nat) :
  ptrs_ordered (HistogramCuts.cut_ptrs_ c) →
  (n < length (HistogramCuts.cut_ptrs_ c))%nat →
  Z.of_nat (length (HistogramCuts.cut_ptrs_ c)) ≤ u32_max →
  sum_FeatureBins c n =
    Some (HistogramCuts.cut_ptrs_ c !!! n - HistogramCuts.cut_ptrs_ c !!! 0%nat).
Proof.
  intros Hord Hn Hlen. induction n as [|n IH]; simpl.
  { f_equal. lia. }
  rewrite IH by lia. simpl. rewrite FeatureBins_difference by (done || lia).
  simpl. f_equal. lia.
Qed.

(** X5.  When the offsets of the features never decrease, the bins of all
    the features add up to [TotalBins() - cut_ptrs_[0]], that is to
    [TotalBins()] when the first offset is 0, and [FeatureBins] of each
    feature is the plain difference of its two offsets. *)
Theorem FeatureBins_sum_TotalBins (c : HistogramCuts.t) (n : nat) :
  ptrs_ordered (HistogramCuts.cut_ptrs_ c) →
  length (HistogramCuts.cut_ptrs_ c) = S n →
  Z.of_nat (S n) ≤ u32_max →
  sum_FeatureBins c n =
    Some (HistogramCuts.TotalBins c - HistogramCuts.cut_ptrs_ c !!! 0%nat) ∧
  ∀ f, (f < n)%nat →
    HistogramCuts.FeatureBins c (Z.of_nat f) =
      Some (HistogramCuts.cut_ptrs_ c !!! S f - HistogramCuts.cut_ptrs_ c !!! f).
Proof.
  intros Hord Hlen Hn. split.
  - rewrite sum_FeatureBins_partial by (done || lia). do 2 f_equal.
    unfold HistogramCuts.TotalBins. rewrite last_lookup, Hlen. simpl.
    by rewrite (list_lookup_lookup_total_lt (HistogramCuts.cut_ptrs_ c) n) by lia.
  - intros f Hf. apply FeatureBins_difference; [done|lia|lia].
Qed.

Lemma cuts_two_features_ordered :
  ptrs_ordered (HistogramCuts.cut_ptrs_ cuts_two_features).
Proof.
  split.
  - intros i j x y Hij Hi Hj.
    destruct i as [|[|[|i]]], j as [|[|[|j]]]; simpl in *; simplify_eq; lia.
  - repeat constructor; by vm_compute.
Qed.

Lemma FeatureBins_sum_TotalBins_witness :
  sum_FeatureBins cuts_two_features 2 =
    Some (HistogramCuts.TotalBins cuts_two_features
          - HistogramCuts.cut_ptrs_ cuts_two_features !!! 0%nat) ∧
  ∀ f, (f < 2)%nat →
    HistogramCuts.FeatureBins cuts_two_features (Z.of_nat f) =
      Some (HistogramCuts.cut_ptrs_ cuts_two_features !!! S f
            - HistogramCuts.cut_ptrs_ cuts_two_features !!! f).
Proof.
  apply (FeatureBins_sum_TotalBins cuts_two_features 2);
    [exact cuts_two_features_ordered | reflexivity | by vm_compute].
Defined.

(** X6.  A feature without cuts is an error: for a feature index [f] with
    [f + 1] not below the size of [cut_ptrs_], the checked access
    [at(f + 1)] throws in [SearchBin], in [SearchCatBin] and in
    [FeatureBins]. *)
Theorem search_feature_without_cuts (c : HistogramCuts.t) (value : spec_float)
    (e : HistogramCuts.Entry) (f : Z) :
  0 ≤ f → f + 1 ≤ u32_max →
  Z.of_nat (length (HistogramCuts.cut_ptrs_ c)) ≤ f + 1 →
  HistogramCuts.index e = f →
  HistogramCuts.SearchBin c value f = None ∧
  HistogramCuts.SearchCatBin c e = None ∧
  HistogramCuts.FeatureBins c f = None.
Proof.
  intros Hf Hf32 Hlen He.
  assert (at_ (HistogramCuts.cut_ptrs_ c) (u32 (f + 1)) = None) as Hnone.
  { rewrite u32_small by lia. by apply at_None_ge. }
  unfold HistogramCuts.SearchBin, HistogramCuts.SearchCatBin,
    HistogramCuts.FeatureBins. rewrite He, Hnone.
  split; [|done]. by destruct (at_ _ f).
Qed.

Lemma search_feature_without_cuts_witness :
  HistogramCuts.SearchBin cuts_two_features (float_of_Z 1) 2 = None ∧
  HistogramCuts.SearchCatBin cuts_two_features
    {| HistogramCuts.index := 2; HistogramCuts.fvalue := float_of_Z 1 |} = None ∧
  HistogramCuts.FeatureBins cuts_two_features 2 = None.
Proof.
  apply (search_feature_without_cuts cuts_two_features);
    [lia | by vm_compute | simpl; lia | reflexivity].
Defined.

(** ** More on the compressed bin index *)

Lemma Index_new_wf : Index_wf Index.new.
Proof. repeat split; simpl; auto; done. Qed.

Lemma Index_step_wf (x x' : Index.t) (c : Index.call) :
  Index_wf x → Index.step x c = Some x' → Index_wf x'.
Proof.
  intros (Hconf & Hdata & Hoff & Hp). destruct c as [b|n|n]; simpl.
  - intros Hset. split; [by eapply SetBinTypeSize_configured|].
    unfold Index.SetBinTypeSize in Hset.
    repeat case_decide; simplify_eq; done.
  - intros [= <-]. split; [done|]. split; [|done]. simpl.
    apply Forall_resize; [lia|done].
  - intros [= <-]. split; [done|]. split; [done|]. split.
    + simpl. apply Forall_resize; [by vm_compute|done].
    + simpl. intros _ Hn. unfold Index.OffsetSize. simpl.
      rewrite length_resize. lia.
Qed.

Lemma Index_run_wf (x x' : Index.t) (cs : list Index.call) :
  Index_wf x → Index.run x cs = Some x' → Index_wf x'.
Proof.
  revert x. induction cs as [|c cs IH]; intros x Hwf; simpl.
  - by intros [= <-].
  - destruct (Index.step x c) as [x1|] eqn:Hstep; simpl; [|done].
    apply IH. by eapply Index_step_wf.
Qed.

Lemma get_uint_in_bounds (size : Z) (t : list Z) (i : Z) :
  0 < size → 0 ≤ i → (i + 1) * size ≤ Z.of_nat (length t) →
  Forall (λ b, 0 ≤ b < 256) t →
  ∃ v, Index.get_uint size t i = Some v ∧ 0 ≤ v < 2 ^ (8 * size).
Proof.
  intros Hsize Hi Hlen Hbytes. unfold Index.get_uint.
  set (bytes := take (Z.to_nat size) (drop (Z.to_nat (i * size)) t)).
  assert (Z.of_nat (length bytes) = size) as Hb.
  { unfold bytes. rewrite length_take, length_drop. nia. }
  rewrite decide_True by done. eexists. split; [reflexivity|].
  pose proof (little_endian_to_Z_bound 8 bytes ltac:(lia)) as Hbound.
  rewrite Hb in Hbound. rewrite (Z.mul_comm 8). apply Hbound.
  unfold bytes. by apply Forall_take, Forall_drop.
Qed.

(** A table of offsets shrunk to no entries keeps its pointer: the
    index has one element and [operator[]] divides by [p_ = 0]. *)
Example Index_offsets_shrunk :
  ∃ x, Index.run Index.new
         [Index.CallResize 1; Index.CallResizeOffset 2; Index.CallResizeOffset 0]
         = Some x ∧
       Index.offset_ptr_ x = true ∧ Index.p_ x = 0 ∧ Index.Size x = 1 ∧
       Index.get x 0 = None.
Proof. eexists. split; [reflexivity|]. by vm_compute. Qed.

(** X7.  From a well-formed index (the constructor gives one), the calls
    [SetBinTypeSize], [Resize] and [ResizeOffset] that succeed keep the
    index well-formed.  Then a position below [Size()] can be read
    without an offset table, with a result below [2^(8 * binTypeSize_)],
    and with an offset table of at least one entry, with a 32-bit
    result: [operator[]] stays inside the data buffer and inside the
    offset table.  When the pointer to the offset table is set and [p_]
    is 0 (the table was shrunk to no entries) no position can be read:
    [operator[]] divides by zero. *)
Theorem Index_get_below_Size (x x' : Index.t) (cs : list Index.call) (i : Z) :
  Index_wf x → Index.run x cs = Some x' → 0 ≤ i < Index.Size x' →
  Index_wf x' ∧
  (Index.offset_ptr_ x' = false →
   ∃ v, Index.get x' i = Some v ∧ 0 ≤ v < 2 ^ (8 * Index.binTypeSize_ x')) ∧
  (Index.offset_ptr_ x' = true → 0 < Index.p_ x' →
   ∃ v, Index.get x' i = Some v ∧ 0 ≤ v ≤ u32_max) ∧
  (Index.offset_ptr_ x' = true → Index.p_ x' = 0 → Index.get x' i = None).
Proof.
  intros Hwf Hrun Hi.
  pose proof (Index_run_wf _ _ _ Hwf Hrun) as Hwf'. split; [done|].
  destruct Hwf' as ([Hw Hfunc] & Hdata & Hoff & Hp).
  assert (0 < Index.binTypeSize_ x') as Hpos by lia.
  destruct (get_uint_in_bounds (Index.binTypeSize_ x') (Index.data_ x') i)
    as (v & Hv & Hvb); [done | lia | apply Size_bound; lia | done |].
  unfold Index.get. rewrite Hfunc, Hv.
  split; [|split].
  - intros ->. by exists v.
  - intros Hptr Hppos. rewrite Hptr. simpl.
    pose proof (Hp Hptr Hppos) as Hpsize.
    rewrite decide_False by lia.
    pose proof (Z.mod_pos_bound i (Index.p_ x') Hppos) as Hmod.
    unfold Index.OffsetSize in Hpsize.
    rewrite at_Some_lookup_total by lia. simpl.
    eexists. split; [reflexivity|]. apply u32_range.
  - intros -> Hp0. simpl. by rewrite decide_True.
Qed.

Lemma Index_get_below_Size_witness :
  (∃ x', Index.run Index.new
           [Index.CallSetBinTypeSize 2; Index.CallResizeOffset 3; Index.CallResize 16]
           = Some x' ∧
         Index_wf x' ∧ ∃ v, Index.get x' 7 = Some v ∧ 0 ≤ v ≤ u32_max) ∧
  (∃ x', Index.run Index.new
           [Index.CallResize 1; Index.CallResizeOffset 2; Index.CallResizeOffset 0]
           = Some x' ∧
         Index_wf x' ∧ Index.get x' 0 = None).
Proof.
  split.
  - eexists. split; [reflexivity|].
    destruct (Index_get_below_Size Index.new _
                [Index.CallSetBinTypeSize 2; Index.CallResizeOffset 3;
                 Index.CallResize 16] 7 Index_new_wf eq_refl)
      as (Hwf & _ & Hoff & _); [by vm_compute|].
    split; [exact Hwf|]. apply Hoff; [reflexivity | by vm_compute].
  - eexists. split; [reflexivity|].
    destruct (Index_get_below_Size Index.new _
                [Index.CallResize 1; Index.CallResizeOffset 2;
                 Index.CallResizeOffset 0] 0 Index_new_wf eq_refl)
      as (Hwf & _ & _ & Hzero); [by vm_compute|].
    split; [exact Hwf|]. apply Hzero; reflexivity.
Defined.

Lemma little_endian_to_Z_zeros (k : nat) :
  little_endian_to_Z 8 (replicate k 0) = 0.
Proof. induction k as [|k IH]; simpl; [done|]. by rewrite IH. Qed.

Lemma take_drop_resize_old (t : list Z) (n k w : nat) :
  (k + w ≤ n)%nat → (k + w ≤ length t)%nat →
  take w (drop k (resize n 0 t)) = take w (drop k t).
Proof.
  intros Hn Hlen. apply list_eq. intros j.
  destruct (decide (j < w)%nat) as [Hj|Hj].
  - rewrite !lookup_take_lt, !lookup_drop by done.
    apply lookup_resize; lia.
  - by rewrite !lookup_take_ge by lia.
Qed.

Lemma take_drop_resize_new (t : list Z) (n k w : nat) :
  (k + w ≤ n)%nat → (length t ≤ k)%nat →
  take w (drop k (resize n 0 t)) = replicate w 0.
Proof.
  intros Hn Hlen. apply list_eq. intros j.
  destruct (decide (j < w)%nat) as [Hj|Hj].
  - rewrite lookup_take_lt, lookup_drop by done.
    rewrite lookup_resize_new by lia. symmetry. by apply lookup_replicate_2.
  - rewrite lookup_take_ge by lia. symmetry. apply lookup_ge_None.
    rewrite length_replicate. lia.
Qed.

(** X8.  [Resize] keeps what the buffer held and fills what it adds with
    zero bytes: a position that lies inside the old and the new buffer
    reads as before, and a position that lies beyond the old buffer and
    inside the new one reads 0 when there is no offset table. *)
Theorem Index_Resize_keeps_and_zero_fills (x : Index.t) (n i : Z) :
  Index.configured x → 0 ≤ i →
  (i + 1) * Index.binTypeSize_ x ≤ n →
  ((i + 1) * Index.binTypeSize_ x ≤ Z.of_nat (length (Index.data_ x)) →
   Index.get (Index.Resize x n) i = Index.get x i) ∧
  (Z.of_nat (length (Index.data_ x)) ≤ i * Index.binTypeSize_ x →
   Index.offset_ptr_ x = false →
   Index.get (Index.Resize x n) i = Some 0).
Proof.
  intros [Hw Hfunc] Hi Hn.
  assert (0 < Index.binTypeSize_ x) as Hpos by lia.
  set (w := Index.binTypeSize_ x) in *.
  split.
  - intros Hold. unfold Index.get. simpl. rewrite !Hfunc. fold w.
    assert (Index.get_uint w (resize (Z.to_nat n) 0 (Index.data_ x)) i
            = Index.get_uint w (Index.data_ x) i) as ->; [|done].
    unfold Index.get_uint. rewrite take_drop_resize_old by nia. done.
  - intros Hnew Hptr. unfold Index.get. simpl. rewrite Hptr, Hfunc. fold w.
    unfold Index.get_uint. rewrite take_drop_resize_new by nia.
    rewrite length_replicate, decide_True by lia.
    by rewrite little_endian_to_Z_zeros.
Qed.

Lemma Index_Resize_keeps_and_zero_fills_witness :
  (Index.get (Index.Resize index8_789 5) 2 = Index.get index8_789 2 ∧
   Index.get index8_789 2 = Some 9) ∧
  Index.get (Index.Resize index8_789 5) 4 = Some 0.
Proof.
  split.
  - split; [|reflexivity].
    apply (Index_Resize_keeps_and_zero_fills index8_789 5 2);
      [split; [left; reflexivity | reflexivity] | lia | simpl; lia | simpl; lia].
  - apply (Index_Resize_keeps_and_zero_fills index8_789 5 4);
      [split; [left; reflexivity | reflexivity] | lia | simpl; lia | simpl; lia
      | reflexivity].
Defined.

(** ** More on the binary search of a sparse row *)

Lemma BinarySearchBin_loop_finds data fidx_begin fidx_end fuel begin end_ prev m :
  0 ≤ begin → end_ ≤ size_max →
  row_sorted data begin end_ →
  begin ≤ m < end_ → fidx_begin ≤ data m < fidx_end →
  end_ ≤ prev ∨ (prev = begin ∧ data begin < fidx_begin) →
  (Z.to_nat (end_ - begin) ≤ fuel)%nat →
  ∃ m', begin ≤ m' < end_ ∧ fidx_begin ≤ data m' < fidx_end ∧
    BinarySearchBin_loop data fidx_begin fidx_end fuel begin end_ prev
      = Some (i32_of_u32 (data m')).
Proof.
  revert begin end_ prev.
  induction fuel as [|fuel IH]; intros begin end_ prev Hb He Hsorted Hm Hhit Hprev Hfuel.
  { exfalso. lia. }
  simpl. rewrite decide_True by lia.
  assert (0 < end_ - begin) as Hlen by lia.
  pose proof (half_bounds _ Hlen) as Hh.
  rewrite (usize_small (end_ - begin)) by lia.
  rewrite usize_small by lia.
  set (middle := begin + (end_ - begin) / 2).
  assert (middle = begin → end_ - begin = 1) as Hone.
  { subst middle. intros Heq.
    destruct (decide (end_ - begin = 1)) as [|Hne]; [done|].
    assert (1 ≤ (end_ - begin) / 2); [|lia].
    apply Z.div_le_lower_bound; lia. }
  rewrite decide_False.
  2:{ intros Heq. destruct Hprev as [Hprev|[Hprev Hlow]]; [subst middle; lia|].
      assert (m = begin) as -> by lia. lia. }
  case_decide as Hin.
  { exists middle. subst middle. split; [lia|]. split; [lia|done]. }
  case_decide as Hlt.
  - assert (middle < m) as Hmm.
    { destruct (decide (middle < m)); [done|].
      pose proof (Hsorted m middle ltac:(lia) ltac:(lia) ltac:(subst middle; lia)).
      lia. }
    destruct (IH middle end_ middle) as (m' & Hm' & Hhit' & Hr);
      [subst middle; lia | done | | lia | done | right; done | subst middle; lia |].
    { intros i j Hi Hij Hj. apply Hsorted; subst middle; lia. }
    exists m'. split; [subst middle; lia|]. done.
  - assert (m < middle) as Hmm.
    { destruct (decide (m < middle)); [done|].
      pose proof (Hsorted middle m ltac:(subst middle; lia) ltac:(lia) ltac:(lia)).
      lia. }
    destruct (IH begin middle middle) as (m' & Hm' & Hhit' & Hr);
      [done | subst middle; lia | | lia | done | left; lia | subst middle; lia |].
    { intros i j Hi Hij Hj. apply Hsorted; subst middle; lia. }
    exists m'. split; [subst middle; lia|]. done.
Qed.

(** X9.  The search misses nothing on a sorted row: when the bin indices
    of [data[begin, end_)] never decrease and one of them lies in
    [fidx_begin, fidx_end), [BinarySearchBin] returns such an element
    (converted to [int32_t]) and not the "missing" mark. *)
Theorem BinarySearchBin_finds_present
    (begin end_ : Z) (data : Z → Z) (fidx_begin fidx_end m : Z) :
  0 ≤ begin → end_ ≤ size_max →
  row_sorted data begin end_ →
  begin ≤ m < end_ → fidx_begin ≤ data m < fidx_end →
  ∃ m', begin ≤ m' < end_ ∧ fidx_begin ≤ data m' < fidx_end ∧
    BinarySearchBin begin end_ data fidx_begin fidx_end
      = Some (i32_of_u32 (data m')).
Proof.
  intros Hb He Hsorted Hm Hhit. unfold BinarySearchBin.
  apply (BinarySearchBin_loop_finds data fidx_begin fidx_end _ begin end_ size_max m);
    try done; [left; done | lia].
Qed.

Lemma BinarySearchBin_finds_present_witness :
  ∃ m', 0 ≤ m' < 4 ∧ 15 ≤ 10 * m' < 25 ∧
    BinarySearchBin 0 4 (λ i, 10 * i) 15 25 = Some (i32_of_u32 (10 * m')).
Proof.
  apply (BinarySearchBin_finds_present 0 4 (λ i, 10 * i) 15 25 2);
    [lia | by vm_compute | intros i j ? ? ?; lia | lia | lia].
Defined.

(** ** More on the histogram collection *)

Section RowTable.
Context {GP : Type} `{GradientPairOps GP}.
Implicit Types c : HistCollection.t GP.

Lemma rows_added_le (l : list Z) : (rows_added l ≤ length l)%nat.
Proof. apply length_filter. Qed.

Lemma rows_added_app_kMax (l : list Z) (n : nat) :
  rows_added (l ++ replicate n HistCollection.kMax) = rows_added l.
Proof.
  unfold rows_added. rewrite filter_app, length_app.
  assert (filter (λ id, id ≠ HistCollection.kMax) (replicate n HistCollection.kMax) = [])
    as ->; [|simpl; lia].
  induction n as [|n IH]; simpl; [done|].
  by rewrite filter_cons_False by (intros ?; done).
Qed.

Lemma rows_added_insert (l : list Z) (i : nat) (v : Z) :
  l !! i = Some HistCollection.kMax → v ≠ HistCollection.kMax →
  rows_added (<[i := v]> l) = S (rows_added l).
Proof.
  intros Hi Hv. unfold rows_added.
  rewrite insert_take_drop by (by eapply lookup_lt_Some).
  rewrite <- (take_drop_middle l i _ Hi) at 3.
  rewrite !filter_app, !length_app.
  rewrite filter_cons_True by done.
  rewrite filter_cons_False by (intros ?; done). simpl. lia.
Qed.

Lemma rows_added_lt (l : list Z) (i : nat) :
  l !! i = Some HistCollection.kMax → (rows_added l < length l)%nat.
Proof.
  intros Hi. apply (length_filter_lt _ l HistCollection.kMax).
  - by eapply list_elem_of_lookup_2.
  - intros ?; done.
Qed.

(** The row table [AddHistRow] works on, after its [resize]. *)
Lemma AddHistRow_table c c' nid :
  Z.of_nat (length (HistCollection.row_ptr_ c)) ≤ u32_max →
  HistCollection.AddHistRow c nid = Some c' →
  0 ≤ nid < u32_max ∧
  ∃ k, let row_ptr1 := HistCollection.row_ptr_ c ++ replicate k HistCollection.kMax in
    row_ptr1 !! Z.to_nat nid = Some HistCollection.kMax ∧
    (length row_ptr1 = length (HistCollection.row_ptr_ c) `max` Z.to_nat (nid + 1))%nat ∧
    (length (HistCollection.data_ c') =
       length (HistCollection.data_ c) `max` Z.to_nat (nid + 1))%nat ∧
    HistCollection.row_ptr_ c' = <[Z.to_nat nid := HistCollection.n_nodes_added_ c]> row_ptr1 ∧
    HistCollection.n_nodes_added_ c' = u32 (HistCollection.n_nodes_added_ c + 1) ∧
    HistCollection.nbins_ c' = HistCollection.nbins_ c ∧
    HistCollection.contiguous_allocation_ c' = HistCollection.contiguous_allocation_ c.
Proof.
  intros Hlen Hadd.
  destruct (HistCollection_AddHistRow_inv (HistCollection.nbins_ c) c c' nid)
    as [_ Hnid]; [by split | done |].
  split; [done|]. revert Hadd. unfold HistCollection.AddHistRow.
  rewrite (u32_small (nid + 1)) by lia.
  set (row_ptr1 := if decide (_ ≤ nid) then _ else _).
  assert (∃ k, row_ptr1 = HistCollection.row_ptr_ c ++ replicate k HistCollection.kMax ∧
               (length row_ptr1 =
                  length (HistCollection.row_ptr_ c) `max` Z.to_nat (nid + 1))%nat)
    as (k & Hk & Hlen1).
  { unfold row_ptr1. case_decide.
    - eexists. rewrite resize_ge by lia. split; [done|].
      rewrite length_app, length_replicate. lia.
    - exists 0%nat. simpl. rewrite app_nil_r. split; [done|]. lia. }
  destruct (at_ row_ptr1 nid) as [r|] eqn:Hr; simpl; [|done].
  case_decide as Hmax; [|done]. intros [= <-]. simpl.
  exists k. cbv zeta. rewrite <- Hk. split.
  { unfold at_ in Hr. rewrite decide_True in Hr by lia. by rewrite Hr, Hmax. }
  split; [done|]. split; [|done].
  case_decide; rewrite ?length_resize; lia.
Qed.

Lemma HistCollection_Init_rows_inv c nbins :
  HistCollection_rows_inv (HistCollection.Init c nbins).
Proof.
  split; [done|]. split; [intros i id Hi; done|]. split; [intros i j id Hi; done|].
  split; [simpl; lia | by vm_compute].
Qed.

Lemma HistCollection_AddHistRow_rows_inv c c' nid :
  HistCollection_rows_inv c → HistCollection.AddHistRow c nid = Some c' →
  HistCollection_rows_inv c'.
Proof.
  intros (Hcount & Hrange & Hinj & Hdata & Hlen) Hadd.
  destruct (AddHistRow_table c c' nid Hlen Hadd)
    as (Hnid & k & Hmax & Hlen1 & Hdata' & Hrow & Hn & _).
  cbv zeta in *.
  set (row_ptr1 := HistCollection.row_ptr_ c ++ replicate k HistCollection.kMax) in *.
  assert (rows_added row_ptr1 = rows_added (HistCollection.row_ptr_ c)) as Hcount1
    by apply rows_added_app_kMax.
  pose proof (rows_added_lt row_ptr1 _ Hmax) as Hlt.
  assert (HistCollection.n_nodes_added_ c + 1 ≤ u32_max) as Hfit by lia.
  assert (HistCollection.n_nodes_added_ c ≠ HistCollection.kMax) as Hne
    by (unfold HistCollection.kMax; lia).
  assert (∀ (i : nat) id, row_ptr1 !! i = Some id → id ≠ HistCollection.kMax →
            HistCollection.row_ptr_ c !! i = Some id) as Hold.
  { intros i id Hi Hid. unfold row_ptr1 in Hi.
    apply lookup_app_Some in Hi as [Hi|[_ Hi]]; [done|].
    apply lookup_replicate in Hi as [-> _]. done. }
  unfold HistCollection_rows_inv. rewrite Hrow, Hn, Hdata', length_insert.
  rewrite u32_small by lia.
  split; [|split; [|split; [|split]]].
  - rewrite rows_added_insert by done. lia.
  - intros i id Hi Hid.
    destruct (decide (i = Z.to_nat nid)) as [->|Hne'].
    + rewrite list_lookup_insert_eq in Hi by (by eapply lookup_lt_Some).
      injection Hi as <-. lia.
    + rewrite list_lookup_insert_ne in Hi by done.
      specialize (Hrange i id (Hold _ _ Hi Hid) Hid). lia.
  - intros i j id Hi Hj Hid.
    destruct (decide (i = Z.to_nat nid)) as [->|Hi'],
             (decide (j = Z.to_nat nid)) as [->|Hj']; [done| | |].
    + rewrite list_lookup_insert_eq in Hi by (by eapply lookup_lt_Some).
      rewrite list_lookup_insert_ne in Hj by done. injection Hi as <-.
      specialize (Hrange j _ (Hold _ _ Hj Hid) Hid). lia.
    + rewrite list_lookup_insert_eq in Hj by (by eapply lookup_lt_Some).
      rewrite list_lookup_insert_ne in Hi by done. injection Hj as <-.
      specialize (Hrange i _ (Hold _ _ Hi Hid) Hid). lia.
    + rewrite list_lookup_insert_ne in Hi, Hj by done.
      by apply (Hinj i j id); [apply Hold..|].
  - lia.
  - lia.
Qed.

Lemma HistCollection_step_rows_inv c c' k :
  HistCollection_rows_inv c → HistCollection.step c k = Some c' →
  HistCollection_rows_inv c'.
Proof.
  intros Hinv. destruct k as [nid|nid|]; simpl.
  - by apply HistCollection_AddHistRow_rows_inv.
  - unfold HistCollection.AllocateData.
    destruct (at_ _ nid) as [r|]; simpl; [|done].
    destruct (at_ _ r) as [d|]; simpl; [|done].
    case_decide; intros [= <-]; [|done].
    unfold HistCollection_rows_inv. simpl. by rewrite length_insert.
  - unfold HistCollection.AllocateAllData.
    destruct (_ !! 0%nat); simpl; [|done]. intros [= <-].
    unfold HistCollection_rows_inv. simpl.
    case_decide; by rewrite ?length_insert.
Qed.

Lemma HistCollection_run_rows_inv c c' ks :
  HistCollection_rows_inv c → HistCollection.run c ks = Some c' →
  HistCollection_rows_inv c'.
Proof.
  revert c. induction ks as [|k ks IH]; intros c Hinv; simpl.
  - by intros [= <-].
  - destruct (HistCollection.step c k) as [c1|] eqn:Hstep; simpl; [|done].
    apply IH. by eapply HistCollection_step_rows_inv.
Qed.

(** An existing row lies inside [data_]. *)
Lemma RowExists_row c nid :
  HistCollection_rows_inv c → 0 ≤ nid → HistCollection.RowExists c nid = true →
  ∃ id, at_ (HistCollection.row_ptr_ c) nid = Some id ∧ id ≠ HistCollection.kMax ∧
        0 ≤ id < Z.of_nat (length (HistCollection.data_ c)).
Proof.
  intros (Hcount & Hrange & _ & Hdata & _) Hnid [Hlt Hne]%bool_decide_eq_true.
  exists (HistCollection.row_ptr_ c !!! Z.to_nat nid).
  rewrite at_Some_lookup_total by lia. split; [done|]. split; [done|].
  assert (Z.to_nat nid < length (HistCollection.row_ptr_ c))%nat as Hlt' by lia.
  specialize (Hrange (Z.to_nat nid) _
    (list_lookup_lookup_total_lt (HistCollection.row_ptr_ c) _ Hlt') Hne).
  pose proof (rows_added_le (HistCollection.row_ptr_ c)). lia.
Qed.

End RowTable.

Section CollectionRows.
Context {GP : Type} `{GradientPairOps GP}.
Implicit Types c : HistCollection.t GP.


(** X11.  Between two [Init]s a node gets a row at most once: for a node
    id below the largest 32-bit value, [AddHistRow] fails its check when
    the node has a row and succeeds when it has none; then the node has
    a row, its row id is the number of rows added before, and no other
    node gains or loses a row. *)
Theorem HistCollection_AddHistRow_once c0 nbins ks c nid :
  HistCollection.run (HistCollection.Init c0 nbins) ks = Some c →
  0 ≤ nid < u32_max →
  if HistCollection.RowExists c nid
  then HistCollection.AddHistRow c nid = None
  else ∃ c', HistCollection.AddHistRow c nid = Some c' ∧
         HistCollection.RowExists c' nid = true ∧
         HistCollection.row_ptr_ c' !! Z.to_nat nid
           = Some (HistCollection.n_nodes_added_ c) ∧
         HistCollection.n_nodes_added_ c' = HistCollection.n_nodes_added_ c + 1 ∧
         HistCollection.AddHistRow c' nid = None ∧
         ∀ nid', 0 ≤ nid' → nid' ≠ nid →
           HistCollection.RowExists c' nid' = HistCollection.RowExists c nid'.
Proof.
  intros Hrun Hnid.
  pose proof (HistCollection_run_rows_inv _ _ _
                (HistCollection_Init_rows_inv c0 nbins) Hrun) as Hinv.
  assert (∀ c1 : HistCollection.t GP, HistCollection.RowExists c1 nid = true →
            HistCollection.AddHistRow c1 nid = None) as Hfail.
  { intros c1 [Hlt Hne]%bool_decide_eq_true. unfold HistCollection.AddHistRow.
    destruct (decide (Z.of_nat (length (HistCollection.row_ptr_ c1)) ≤ nid)); [lia|].
    rewrite at_Some_lookup_total by lia. simpl.
    by destruct (decide (HistCollection.row_ptr_ c1 !!! Z.to_nat nid
                         = HistCollection.kMax)). }
  destruct (HistCollection.RowExists c nid) eqn:Hex; [by apply Hfail|].
  apply bool_decide_eq_false in Hex.
  destruct (HistCollection.AddHistRow c nid) as [c'|] eqn:Hadd.
  2:{ exfalso. revert Hadd. unfold HistCollection.AddHistRow.
      rewrite (u32_small (nid + 1)) by lia.
      destruct (decide (Z.of_nat (length (HistCollection.row_ptr_ c)) ≤ nid)) as [Hge|Hge].
      - rewrite at_Some_lookup_total by (rewrite length_resize; lia). simpl.
        rewrite lookup_total_resize_new by lia.
        by destruct (decide (HistCollection.kMax = HistCollection.kMax)).
      - rewrite at_Some_lookup_total by lia. simpl.
        destruct (decide (HistCollection.row_ptr_ c !!! Z.to_nat nid
                          = HistCollection.kMax)); [done|].
        intros _. apply Hex. split; [lia|done]. }
  exists c'. split; [done|].
  pose proof (HistCollection_AddHistRow_rows_inv c c' nid Hinv Hadd) as Hinv'.
  destruct Hinv as (Hcount & _ & _ & _ & Hlen).
  destruct (AddHistRow_table c c' nid Hlen Hadd)
    as (_ & k & Hmax & Hlen1 & _ & Hrow & Hn & _).
  cbv zeta in *.
  set (row_ptr1 := HistCollection.row_ptr_ c ++ replicate k HistCollection.kMax) in *.
  pose proof (rows_added_lt row_ptr1 _ Hmax) as Hlt.
  assert (rows_added row_ptr1 = rows_added (HistCollection.row_ptr_ c)) as Hcount1
    by apply rows_added_app_kMax.
  assert (HistCollection.n_nodes_added_ c ≠ HistCollection.kMax) as Hne
    by (unfold HistCollection.kMax; lia).
  assert (HistCollection.RowExists c' nid = true) as Hex'.
  { apply bool_decide_eq_true. rewrite Hrow, length_insert. split; [lia|].
    rewrite list_lookup_total_insert_eq by lia. done. }
  split; [done|]. split.
  { rewrite Hrow. apply list_lookup_insert_eq. lia. }
  split; [rewrite Hn; apply u32_small; lia|].
  split; [by apply Hfail|].
  intros nid' Hnid' Hne'. unfold HistCollection.RowExists.
  apply bool_decide_ext. rewrite Hrow, length_insert.
  rewrite list_lookup_total_insert_ne by lia.
  destruct (decide (nid' < Z.of_nat (length (HistCollection.row_ptr_ c)))) as [Hin|Hout].
  - unfold row_ptr1. rewrite lookup_total_app_l by lia.
    rewrite length_app. split; intros [? ?]; (split; [lia|done]).
  - split; [|lia]. intros [Hin Hrow'].
    exfalso. apply Hrow'. unfold row_ptr1.
    rewrite lookup_total_app_r by lia. apply lookup_total_replicate_2.
    unfold row_ptr1 in Hin. rewrite length_app, length_replicate in Hin. lia.
Qed.

(** X12.  [AllocateData] allocates once: for a node that has a row, the
    row becomes [nbins] zero pairs when it was empty and stays as it is
    when it was allocated before (also by an earlier round with the same
    bin count); the other rows and the row table are untouched, and a
    second call changes nothing. *)
Theorem HistCollection_AllocateData_once c0 nbins ks c nid :
  HistCollection.run (HistCollection.Init c0 nbins) ks = Some c → 0 ≤ nid →
  HistCollection.RowExists c nid = true →
  ∃ c' id old,
    HistCollection.row_ptr_ c !! Z.to_nat nid = Some id ∧
    HistCollection.data_ c !! Z.to_nat id = Some old ∧
    HistCollection.AllocateData c nid = Some c' ∧
    HistCollection.data_ c' =
      <[Z.to_nat id := if decide (length old = 0%nat)
                       then replicate (Z.to_nat nbins) gp_zero else old]>
        (HistCollection.data_ c) ∧
    HistCollection.row_ptr_ c' = HistCollection.row_ptr_ c ∧
    HistCollection.AllocateData c' nid = Some c'.
Proof.
  intros Hrun Hnid Hex.
  pose proof (HistCollection_run_rows_inv _ _ _
                (HistCollection_Init_rows_inv c0 nbins) Hrun) as Hinv.
  destruct (HistCollection_run_inv nbins _ _ _
              (HistCollection_Init_inv c0 nbins) Hrun) as [[Hn _] _].
  destruct (RowExists_row c nid Hinv Hnid Hex) as (id & Hid & Hmax & Hlt).
  destruct (HistCollection.data_ c !! Z.to_nat id) as [old|] eqn:Hold;
    [|apply lookup_ge_None in Hold; lia].
  assert (at_ (HistCollection.data_ c) id = Some old) as Hat
    by (unfold at_; by rewrite decide_True by lia).
  assert (HistCollection.row_ptr_ c !! Z.to_nat nid = Some id) as Hrow
    by (unfold at_ in Hid; by rewrite decide_True in Hid by lia).
  unfold HistCollection.AllocateData at 1. rewrite Hid. simpl. rewrite Hat. simpl.
  destruct (decide (length old = 0%nat)) as [Hempty|Hfull].
  - eexists _, id, old. split; [done|]. split; [done|]. split; [reflexivity|].
    apply length_zero_iff_nil in Hempty. subst old.
    rewrite Hn, resize_nil. simpl. split; [done|]. split; [done|].
    unfold HistCollection.AllocateData. simpl. rewrite Hid. simpl.
    assert (at_ (<[Z.to_nat id := replicate (Z.to_nat nbins) gp_zero]>
                   (HistCollection.data_ c)) id
            = Some (replicate (Z.to_nat nbins) gp_zero)) as ->.
    { unfold at_. rewrite decide_True by lia. apply list_lookup_insert_eq. lia. }
    simpl. case_decide as Hz; [|done].
    unfold HistCollection.set_data. simpl. do 2 f_equal.
    rewrite list_insert_insert_eq. f_equal.
    rewrite Hn. rewrite length_replicate in Hz. rewrite Hz. done.
  - exists c, id, old. split; [done|]. split; [done|]. split; [done|].
    split; [by rewrite decide_False, list_insert_id by done|]. split; [done|].
    unfold HistCollection.AllocateData. rewrite Hid. simpl. rewrite Hat. simpl.
    by rewrite decide_False.
Qed.

(** X13.  [AllocateAllData] lays the histograms out in one buffer: after
    it, the histogram of every node that has a row is a slice of
    [data_[0]] that lies inside it, and the slices of two different nodes
    do not overlap. *)
Theorem HistCollection_AllocateAllData_layout c0 nbins ks c c' nid1 nid2 row1 row2 :
  HistCollection.run (HistCollection.Init c0 nbins) ks = Some c → 0 ≤ nbins →
  HistCollection.AllocateAllData c = Some c' →
  HistCollection.get c' nid1 = Some row1 →
  HistCollection.get c' nid2 = Some row2 →
  span_array row1 = BufferRow 0 ∧
  (∃ d0, HistCollection.data_ c' !! 0%nat = Some d0 ∧
         (span_off row1 + span_size row1 ≤ length d0)%nat) ∧
  (nid1 ≠ nid2 →
   (span_off row1 + span_size row1 ≤ span_off row2)%nat ∨
   (span_off row2 + span_size row2 ≤ span_off row1)%nat).
Proof.
  intros Hrun Hnb Hall Hget1 Hget2.
  pose proof (HistCollection_run_rows_inv _ _ _
                (HistCollection_Init_rows_inv c0 nbins) Hrun) as Hinv.
  destruct (HistCollection_run_inv nbins _ _ _
              (HistCollection_Init_inv c0 nbins) Hrun) as [[Hn _] _].
  destruct Hinv as (Hcount & Hrange & Hinj & Hdata & _).
  pose proof (rows_added_le (HistCollection.row_ptr_ c)) as Hle.
  unfold HistCollection.AllocateAllData in Hall.
  destruct (HistCollection.data_ c !! 0%nat) as [d0|] eqn:Hd0; simpl in Hall; [|done].
  injection Hall as <-.
  set (new_size := (Z.to_nat (HistCollection.nbins_ c)
                    * length (HistCollection.data_ c))%nat) in *.
  assert (∃ d0', (if decide (length d0 ≠ new_size)
                  then <[0%nat := resize new_size gp_zero d0]> (HistCollection.data_ c)
                  else HistCollection.data_ c) !! 0%nat = Some d0' ∧
                 length d0' = new_size) as (d0' & Hd0' & Hlen0).
  { case_decide as Hsz.
    - eexists. split; [apply list_lookup_insert_eq; by eapply lookup_lt_Some|].
      by rewrite length_resize.
    - exists d0. split; [done|]. by destruct (decide (length d0 = new_size)). }
  assert (∀ nid row, HistCollection.get
            {| HistCollection.nbins_ := HistCollection.nbins_ c;
               HistCollection.n_nodes_added_ := HistCollection.n_nodes_added_ c;
               HistCollection.contiguous_allocation_ := true;
               HistCollection.data_ :=
                 if decide (length d0 ≠ new_size)
                 then <[0%nat := resize new_size gp_zero d0]> (HistCollection.data_ c)
                 else HistCollection.data_ c;
               HistCollection.row_ptr_ := HistCollection.row_ptr_ c |} nid = Some row →
            ∃ id, HistCollection.row_ptr_ c !! Z.to_nat nid = Some id ∧ 0 ≤ nid ∧
                  id ≠ HistCollection.kMax ∧
                  0 ≤ id < Z.of_nat (length (HistCollection.data_ c)) ∧
                  row = {| span_array := BufferRow 0;
                           span_off := Z.to_nat (nbins * id);
                           span_size := Z.to_nat nbins |}) as Hrow.
  { intros nid row. unfold HistCollection.get. simpl.
    destruct (at_ _ nid) as [id|] eqn:Hid; simpl; [|done].
    destruct (decide (id = HistCollection.kMax)) as [|Hmax]; [done|].
    rewrite Hd0'. simpl. intros [= <-].
    pose proof (at_Some_range _ _ _ Hid) as Hnid.
    unfold at_ in Hid. rewrite decide_True in Hid by lia.
    exists id. split; [done|]. split; [lia|]. split; [done|].
    specialize (Hrange _ _ Hid Hmax). split; [lia|]. by rewrite Hn. }
  destruct (Hrow _ _ Hget1) as (id1 & Hid1 & Hnid1 & Hmax1 & Hlt1 & ->).
  destruct (Hrow _ _ Hget2) as (id2 & Hid2 & Hnid2 & Hmax2 & Hlt2 & ->).
  simpl. split; [done|]. split.
  - exists d0'. split; [done|]. rewrite Hlen0. unfold new_size. rewrite Hn. nia.
  - intros Hne.
    assert (id1 ≠ id2) as Hids.
    { intros <-. pose proof (Hinj _ _ _ Hid1 Hid2 Hmax1). lia. }
    destruct (decide (id1 < id2)); [left|right]; nia.
Qed.

End CollectionRows.

Lemma collection4_after_run :
  HistCollection.run (HistCollection.Init HistCollection.new 4) hist_calls_example
    = Some collection4_after.
Proof. reflexivity. Qed.


Lemma HistCollection_AddHistRow_once_witness :
  if HistCollection.RowExists collection4_after 1
  then HistCollection.AddHistRow collection4_after 1 = None
  else ∃ c', HistCollection.AddHistRow collection4_after 1 = Some c' ∧
         HistCollection.RowExists c' 1 = true ∧
         HistCollection.row_ptr_ c' !! Z.to_nat 1
           = Some (HistCollection.n_nodes_added_ collection4_after) ∧
         HistCollection.n_nodes_added_ c'
           = HistCollection.n_nodes_added_ collection4_after + 1 ∧
         HistCollection.AddHistRow c' 1 = None ∧
         ∀ nid', 0 ≤ nid' → nid' ≠ 1 →
           HistCollection.RowExists c' nid' = HistCollection.RowExists collection4_after nid'.
Proof.
  apply (HistCollection_AddHistRow_once HistCollection.new 4 hist_calls_example
           collection4_after 1); [exact collection4_after_run | by vm_compute].
Defined.

Lemma HistCollection_AllocateData_once_witness :
  ∃ c' id old,
    HistCollection.row_ptr_ collection4_after !! Z.to_nat 2 = Some id ∧
    HistCollection.data_ collection4_after !! Z.to_nat id = Some old ∧
    HistCollection.AllocateData collection4_after 2 = Some c' ∧
    HistCollection.data_ c' =
      <[Z.to_nat id := if decide (length old = 0%nat)
                       then replicate (Z.to_nat 4) gp_zero else old]>
        (HistCollection.data_ collection4_after) ∧
    HistCollection.row_ptr_ c' = HistCollection.row_ptr_ collection4_after ∧
    HistCollection.AllocateData c' 2 = Some c'.
Proof.
  apply (HistCollection_AllocateData_once HistCollection.new 4 hist_calls_example
           collection4_after 2); [exact collection4_after_run | lia | reflexivity].
Defined.

Lemma HistCollection_AllocateAllData_layout_witness :
  ∃ c' row1 row2,
    HistCollection.AllocateAllData collection4_after = Some c' ∧
    HistCollection.get c' 0 = Some row1 ∧
    HistCollection.get c' 2 = Some row2 ∧
    span_array row1 = BufferRow 0 ∧
    (∃ d0, HistCollection.data_ c' !! 0%nat = Some d0 ∧
           (span_off row1 + span_size row1 ≤ length d0)%nat) ∧
    (0 ≠ 2 →
     (span_off row1 + span_size row1 ≤ span_off row2)%nat ∨
     (span_off row2 + span_size row2 ≤ span_off row1)%nat).
Proof.
  eexists _, _, _. split; [reflexivity|]. split; [reflexivity|]. split; [reflexivity|].
  apply (HistCollection_AllocateAllData_layout HistCollection.new 4 hist_calls_example
           collection4_after _ 0 2);
    [exact collection4_after_run | lia | reflexivity | reflexivity | reflexivity].
Defined.

(** ** More on the parallel histogram builder *)

Section ResetState.
Context {GP : Type} `{GradientPairOps GP}.
Implicit Types b : ParallelGHistBuilder.t GP.

Lemma Reset_reset_state b (T N nbins : nat) (space : list Block) :
  T ≠ 0%nat → Z.of_nat nbins ≤ u32_max → Z.of_nat (T * N) ≤ u32_max →
  builder_ready nbins b →
  ∃ b1, ParallelGHistBuilder.Reset b T N space (caller_targets N nbins) = Some b1 ∧
        reset_state b1 nbins T N space.
Proof.
  intros HT Hnb32 Hbound (R1 & R2 & R3 & R4).
  assert (u32 (Z.of_nat nbins) = Z.of_nat nbins) as Hu32 by (apply u32_small; lia).
  destruct (Reset_spec (λ row, length row = 0%nat ∨ length row = nbins) b T N
              space (caller_targets N nbins) HT)
    as (b1 & HReset & B1 & B2 & B3 & B4 & B5 & B6 & B7 & B8 & B9 & B10 & B11 & B12
        & B13 & _).
  { unfold caller_targets. by rewrite length_fmap, length_seq. }
  { done. }
  { by left. }
  { intros _. exact R4. }
  rewrite R1, Hu32 in B8. rewrite R3 in B9.
  exists b1. split; [done|]. unfold reset_state.
  split; [done|]. split; [done|]. split; [by rewrite B1|]. split; [done|].
  split; [done|]. split; [by rewrite B3|]. split; [done|].
  split; [intros nid Hnid; apply B13; by rewrite <- B3|].
  split; [done|]. split; [done|]. split; [|done].
  etrans; [|exact Hbound]. apply Nat2Z.inj_le.
  pose proof (hist_allocated_bound b1) as Hle. rewrite B2, B3 in Hle. exact Hle.
Qed.

Lemma reset_state_start (gpair : nat → GP) (gmat : nat → list nat) b1
    (nbins T N : nat) space (caller : list (list GP)) :
  reset_state b1 nbins T N space →
  length caller = N → Forall (λ row, length row = nbins) caller →
  pass_inv b1 nbins (item_used []) (acc_items gpair gmat nbins []) (b1, caller).
Proof.
  intros (B2 & B3 & B1 & B6 & B5 & Hths & Hinv & Hassigned & B7 & B11 & Htot & B8 & B9
          & B10) Hclen Hcrows.
  split; [|split].
  - repeat split; simpl; try done.
    + by rewrite B3.
    + by rewrite B5, length_replicate, B2, B3.
  - intros tid nid Htid Hnid. simpl. unfold ParallelGHistBuilder.was_used.
    rewrite B5, lookup_total_replicate_2 by (rewrite B2, B3 in *; nia).
    split; [done|]. intros (item & Hin & _). inversion Hin.
  - intros tid nid idx Htid Hnid. simpl. unfold ParallelGHistBuilder.was_used.
    rewrite B5, lookup_total_replicate_2 by (rewrite B2, B3 in *; nia). done.
Qed.

Lemma items_ok_touches (gmat : nat → list nat) b1 (nbins T N : nat) space items :
  T ≠ 0%nat → Forall (λ blk, (block_nid blk < N)%nat) space →
  reset_state b1 nbins T N space → items_ok gmat space nbins T N items →
  Forall (λ item : nat * Block,
            (item.1 < ParallelGHistBuilder.nthreads_ b1)%nat ∧
            (block_nid item.2 < ParallelGHistBuilder.nodes_ b1)%nat ∧
            ParallelGHistBuilder.touches b1 item.1 (block_nid item.2) = true ∧
            Forall (λ r, Forall (λ bin, bin < nbins)%nat (gmat r)) (block_rows item.2))
    items.
Proof.
  intros HT Hnids (B2 & B3 & _ & B6 & _) Hok.
  eapply Forall_impl; [exact Hok|]. intros [tid blk] (Htid & Hnid & Hch & Hb). simpl in *.
  rewrite B2, B3. split; [done|]. split; [done|]. split; [|done].
  by apply (touches_chunk_touches space T N HT Hnids b1).
Qed.

(** The state of a pass after the work items [items]. *)
Lemma build_blocks_items (gpair : nat → GP) (gmat : nat → list nat) b1
    (nbins T N : nat) space (caller : list (list GP)) items :
  T ≠ 0%nat → Forall (λ blk, (block_nid blk < N)%nat) space →
  reset_state b1 nbins T N space →
  length caller = N → Forall (λ row, length row = nbins) caller →
  items_ok gmat space nbins T N items →
  ∃ st, build_blocks gpair gmat (b1, caller) items = Some st ∧
        pass_inv b1 nbins (item_used items) (acc_items gpair gmat nbins items) st.
Proof.
  intros HT Hnids Hreset Hclen Hcrows Hok.
  pose proof (reset_state_start gpair gmat _ _ _ _ _ _ Hreset Hclen Hcrows) as Hstart.
  pose proof (items_ok_touches _ _ _ _ _ _ _ HT Hnids Hreset Hok) as Hitems.
  destruct Hreset as (B2 & B3 & B1 & B6 & B5 & Hths & Hinv & Hassigned & B7 & B11 & Htot
                      & B8 & B9 & B10).
  destruct (build_blocks_spec gpair gmat b1 _ nbins Hinv Hassigned Hths B7 B11 Htot
              items [] (b1, caller) Hstart Hitems) as (st & Hbuild & Hpass).
  exists st. split; [done|]. by rewrite app_nil_l in Hpass.
Qed.

End ResetState.

Lemma work_items_items_ok (gmat : nat → list nat) (space : list Block) (nbins T N : nat) :
  T ≠ 0%nat → Forall (λ blk, (block_nid blk < N)%nat) space → space_sorted space →
  Forall (λ blk, Forall (λ r, Forall (λ bin, bin < nbins)%nat (gmat r)) (block_rows blk))
    space →
  items_ok gmat space nbins T N (work_items space T).
Proof.
  intros HT Hnids Hsorted Hbins. apply Forall_forall.
  intros [tid blk] [Htid Hblk]%(elem_of_work_items space T HT).
  pose proof (thread_block_in_space _ _ _ _ Hblk) as Hin.
  pose proof (proj1 (Forall_forall _ _) Hnids _ Hin) as Hn.
  pose proof (proj1 (Forall_forall _ _) Hbins _ Hin) as Hb.
  simpl. split; [done|]. split; [done|]. split; [|done].
  by apply item_chunk_touches.
Qed.

Lemma span_read_whole_row {GP : Type} (m : Mem GP) (a : Array) (nbins : nat)
    (l : list GP) :
  mem_array m a = Some l → length l = nbins →
  span_read m (whole_row a nbins) = Some l.
Proof.
  intros Hl Hlen. unfold span_read, whole_row. simpl. rewrite Hl. simpl.
  rewrite decide_True by lia. rewrite drop_0. f_equal. apply take_ge. lia.
Qed.

Section BuilderRows.
Context {GP : Type} `{GradientPairOps GP}.
Implicit Types b : ParallelGHistBuilder.t GP.

(** X14.  After [Reset], [GetInitializedHist(tid, nid)] succeeds for
    exactly the pairs that [MatchThreadsToNodes] has matched, that is when
    the chunk of the thread is not empty and [nid] lies between the nodes
    of its first and of its last block: for such a pair it returns a
    histogram of [nbins] bins, all zero; for any other pair the lookup
    [tid_nid_to_hist_.at] throws. *)
Theorem Reset_GetInitializedHist_matched b (caller : list (list GP))
    (T N nbins : nat) (space : list Block) (tid nid : nat) :
  T ≠ 0%nat → Z.of_nat nbins ≤ u32_max → Z.of_nat (T * N) ≤ u32_max →
  builder_ready nbins b →
  length caller = N → Forall (λ row, length row = nbins) caller →
  Forall (λ blk, (block_nid blk < N)%nat) space →
  (tid < T)%nat → (nid < N)%nat →
  ∃ b1, ParallelGHistBuilder.Reset b T N space (caller_targets N nbins) = Some b1 ∧
    (chunk_touches space (chunck_size (length space) T) tid nid →
     ∃ h b' c', ParallelGHistBuilder.GetInitializedHist b1 caller tid nid
                  = Some (h, (b', c')) ∧
                span_size h = nbins ∧
                span_read (ParallelGHistBuilder.mem_of b' c') h
                  = Some (replicate nbins gp_zero)) ∧
    (¬ chunk_touches space (chunck_size (length space) T) tid nid →
     ParallelGHistBuilder.GetInitializedHist b1 caller tid nid = None).
Proof.
  intros HT Hnb32 Hbound Hready Hclen Hcrows Hnids Htid Hnid.
  destruct (Reset_reset_state b T N nbins space HT Hnb32 Hbound Hready)
    as (b1 & HReset & Hreset).
  exists b1. split; [done|].
  pose proof (reset_state_start (λ _, gp_zero) (λ _, []) _ _ _ _ _ _ Hreset Hclen Hcrows)
    as (Hstruct & _ & _).
  destruct Hreset as (B2 & B3 & B1 & B6 & B5 & Hths & Hinv & Hassigned & B7 & B11 & Htot
                      & B8 & B9 & B10).
  pose proof (touches_chunk_touches space T N HT Hnids b1 tid nid B2 B3 B6 Htid Hnid)
    as Htouch.
  split.
  - intros Hch. apply Htouch in Hch.
    destruct (assigned_touches b1 _ Hinv Hassigned tid nid) as (idx & Hidx & Hrange);
      [by rewrite B2 | by rewrite B3 | done |].
    destruct (GetInitializedHist_spec b1 _ nbins Hths B7 B11 Htot b1 caller tid nid idx
                Hstruct) as (b' & c' & h0 & Hget & _ & _ & Hmem & Hlen & Hzero & _);
      [by rewrite B2 | by rewrite B3 | done | done |].
    eexists _, b', c'. split; [exact Hget|]. split; [done|].
    rewrite <- Hzero.
    + by apply span_read_whole_row.
    + unfold ParallelGHistBuilder.was_used.
      rewrite B5. apply lookup_total_replicate_2. rewrite B3. nia.
  - intros Hch. unfold ParallelGHistBuilder.GetInitializedHist.
    rewrite B2, B3. rewrite decide_True by done.
    destruct (Hassigned nid) as [_ Hnone]; [by rewrite B3|].
    rewrite Hnone; [done|].
    intros [_ Hin]%elem_of_touching. apply Hch. by apply Htouch.
Qed.

(** X15.  After [Reset] no two pairs of a thread and a node share a
    histogram: the histograms [GetInitializedHist] returns for two
    different pairs lie in different arrays, so that the threads never
    write to the same bins. *)
Theorem Reset_histograms_distinct b (caller : list (list GP))
    (T N nbins : nat) (space : list Block) :
  T ≠ 0%nat → Z.of_nat nbins ≤ u32_max → Z.of_nat (T * N) ≤ u32_max →
  builder_ready nbins b →
  length caller = N → Forall (λ row, length row = nbins) caller →
  ∃ b1, ParallelGHistBuilder.Reset b T N space (caller_targets N nbins) = Some b1 ∧
    ∀ t1 n1 t2 n2 h1 h2 st1 st2,
      ParallelGHistBuilder.GetInitializedHist b1 caller t1 n1 = Some (h1, st1) →
      ParallelGHistBuilder.GetInitializedHist b1 caller t2 n2 = Some (h2, st2) →
      (t1, n1) ≠ (t2, n2) →
      span_array h1 ≠ span_array h2.
Proof.
  intros HT Hnb32 Hbound Hready Hclen Hcrows.
  destruct (Reset_reset_state b T N nbins space HT Hnb32 Hbound Hready)
    as (b1 & HReset & Hreset).
  exists b1. split; [done|].
  pose proof (reset_state_start (λ _, gp_zero) (λ _, []) _ _ _ _ _ _ Hreset Hclen Hcrows)
    as (Hstruct & _ & _).
  destruct Hreset as (B2 & B3 & B1 & B6 & B5 & Hths & Hinv & Hassigned & B7 & B11 & Htot
                      & B8 & B9 & B10).
  assert (∀ t n h st,
            ParallelGHistBuilder.GetInitializedHist b1 caller t n = Some (h, st) →
            (n < ParallelGHistBuilder.nodes_ b1)%nat ∧
            ∃ idx, ParallelGHistBuilder.tid_nid_to_hist_ b1 !! (t, n) = Some idx ∧
                   span_array h = hist_array n idx) as Hrow.
  { intros t n h st Hget.
    assert ((n < ParallelGHistBuilder.nodes_ b1)%nat ∧
            (t < ParallelGHistBuilder.nthreads_ b1)%nat ∧
            ∃ idx, ParallelGHistBuilder.tid_nid_to_hist_ b1 !! (t, n) = Some idx)
      as (Hn & Ht & idx & Hidx).
    { unfold ParallelGHistBuilder.GetInitializedHist in Hget.
      case_decide as Hc; [|done].
      destruct (ParallelGHistBuilder.tid_nid_to_hist_ b1 !! (t, n)) as [idx|]; [|done].
      destruct Hc. split; [done|]. split; [done|]. by exists idx. }
    split; [done|]. exists idx. split; [done|].
    destruct (GetInitializedHist_spec b1 _ nbins Hths B7 B11 Htot b1 caller t n idx
                Hstruct Ht Hn Hidx) as (b' & c' & h0 & Hget' & _).
    { destruct Hinv as [Hrange _]. by apply (Hrange (t, n)). }
    rewrite Hget in Hget'. by injection Hget' as -> _. }
  intros t1 n1 t2 n2 h1 h2 st1 st2 Hget1 Hget2 Hne Heq.
  destruct (Hrow _ _ _ _ Hget1) as (Hn1 & idx1 & Hidx1 & Ha1).
  destruct (Hrow _ _ _ _ Hget2) as (Hn2 & idx2 & Hidx2 & Ha2).
  rewrite Ha1, Ha2 in Heq.
  destruct (hist_array_inj b1 _ Hinv Hassigned t1 n1 idx1 t2 n2 idx2) as [-> ->]; done.
Qed.

End BuilderRows.

Section PassRows.
Context {GP : Type} `{GradientPairOps GP}.
Implicit Types b : ParallelGHistBuilder.t GP.

Lemma length_acc_items (gpair : nat → GP) (gmat : nat → list nat) (nbins : nat)
    (items : list (nat * Block)) (t n : nat) :
  length (acc_items gpair gmat nbins items t n) = nbins.
Proof. unfold acc_items. by rewrite length_build_rows, length_replicate. Qed.

Lemma item_used_touches (gmat : nat → list nat) b1 (nbins T N : nat) space items
    (t n : nat) :
  T ≠ 0%nat → Forall (λ blk, (block_nid blk < N)%nat) space →
  reset_state b1 nbins T N space → items_ok gmat space nbins T N items →
  item_used items t n →
  (t < T)%nat ∧ (n < N)%nat ∧ ParallelGHistBuilder.touches b1 t n = true.
Proof.
  intros HT Hnids Hreset Hok ([tid blk] & Hin & Ht & Hn). simpl in Ht, Hn. subst t n.
  pose proof (items_ok_touches _ _ _ _ _ _ _ HT Hnids Hreset Hok) as Hitems.
  rewrite Forall_forall in Hitems.
  destruct (Hitems _ Hin) as (Htid & Hnid & Htouch & _). simpl in *.
  destruct Hreset as (B2 & B3 & _). rewrite B2 in Htid. rewrite B3 in Hnid. done.
Qed.

(** X16.  During a pass the histogram of a thread and a node holds what
    the thread has accumulated for the node so far: after any work items,
    [GetInitializedHist] for a pair that has worked already returns its
    histogram with the sum of the rows of its items, in order, and
    changes nothing in memory (it zero-fills on first use only). *)
Theorem GetInitializedHist_keeps_accumulated (gpair : nat → GP) (gmat : nat → list nat)
    b (caller : list (list GP)) (T N nbins : nat) (space : list Block)
    (items : list (nat * Block)) (tid nid : nat) :
  T ≠ 0%nat → Z.of_nat nbins ≤ u32_max → Z.of_nat (T * N) ≤ u32_max →
  builder_ready nbins b →
  length caller = N → Forall (λ row, length row = nbins) caller →
  Forall (λ blk, (block_nid blk < N)%nat) space →
  items_ok gmat space nbins T N items →
  item_used items tid nid →
  ∃ b1 b2 c2 h b' c',
    ParallelGHistBuilder.Reset b T N space (caller_targets N nbins) = Some b1 ∧
    build_blocks gpair gmat (b1, caller) items = Some (b2, c2) ∧
    ParallelGHistBuilder.GetInitializedHist b2 c2 tid nid = Some (h, (b', c')) ∧
    span_read (ParallelGHistBuilder.mem_of b' c') h
      = Some (acc_items gpair gmat nbins items tid nid) ∧
    ∀ a, mem_array (ParallelGHistBuilder.mem_of b' c') a
         = mem_array (ParallelGHistBuilder.mem_of b2 c2) a.
Proof.
  intros HT Hnb32 Hbound Hready Hclen Hcrows Hnids Hok Hused.
  destruct (Reset_reset_state b T N nbins space HT Hnb32 Hbound Hready)
    as (b1 & HReset & Hreset).
  destruct (build_blocks_items gpair gmat b1 nbins T N space caller items HT Hnids
              Hreset Hclen Hcrows Hok) as ([b2 c2] & Hbuild & Hpass).
  destruct (item_used_touches gmat b1 nbins T N space items tid nid HT Hnids Hreset
              Hok Hused) as (Htid & Hnid & Htouch).
  destruct Hreset as (B2 & B3 & B1 & B6 & B5 & Hths & Hinv & Hassigned & B7 & B11 & Htot
                      & B8 & B9 & B10).
  destruct Hpass as (Hstruct & Hflags & Hcontent). simpl in Hflags, Hcontent.
  destruct (assigned_touches b1 _ Hinv Hassigned tid nid) as (idx & Hidx & Hrange);
    [by rewrite B2 | by rewrite B3 | done |].
  assert (ParallelGHistBuilder.was_used b2 tid nid = true) as Hwas.
  { apply Hflags; [by rewrite B2 | by rewrite B3 | done]. }
  pose proof (Hcontent tid nid idx ltac:(by rewrite B2) ltac:(by rewrite B3) Hwas Hidx)
    as Hold.
  destruct (GetInitializedHist_spec b1 _ nbins Hths B7 B11 Htot b2 c2 tid nid idx
              Hstruct) as (b' & c' & h0 & Hget & _ & _ & Hmem & Hlen & _ & Hkeep & Hframe);
    [by rewrite B2 | by rewrite B3 | done | done |].
  assert (h0 = acc_items gpair gmat nbins items tid nid) as ->.
  { apply Hkeep; [done | done | apply length_acc_items]. }
  exists b1, b2, c2. eexists _, b', c'.
  split; [done|]. split; [done|]. split; [exact Hget|].
  split; [by apply span_read_whole_row|].
  intros a. destruct (decide (a = hist_array nid idx)) as [->|Hne].
  - by rewrite Hmem, Hold.
  - by apply Hframe.
Qed.

(** X17.  The reduction of the nodes does not depend on their order, and
    it leaves the builder as it is: after the accumulation,
    [ReduceHist(nid, 0, nbins)] for the nodes of a list and for the nodes
    of any permutation of it give the same rows of the caller and the
    builder of before. *)
Theorem reduce_nodes_any_order (gpair : nat → GP) (gmat : nat → list nat)
    b (caller : list (list GP)) (T N nbins : nat) (space : list Block)
    (items : list (nat * Block)) (nids1 nids2 : list nat) :
  T ≠ 0%nat → (0 < nbins)%nat →
  Z.of_nat nbins ≤ u32_max → Z.of_nat (T * N) ≤ u32_max →
  builder_ready nbins b →
  length caller = N → Forall (λ row, length row = nbins) caller →
  Forall (λ blk, (block_nid blk < N)%nat) space →
  items_ok gmat space nbins T N items →
  NoDup nids1 → nids1 ≡ₚ nids2 → Forall (λ nid, (nid < N)%nat) nids1 →
  ∃ b1 b2 c2 c',
    ParallelGHistBuilder.Reset b T N space (caller_targets N nbins) = Some b1 ∧
    build_blocks gpair gmat (b1, caller) items = Some (b2, c2) ∧
    reduce_nodes (b2, c2) nids1 nbins = Some (b2, c') ∧
    reduce_nodes (b2, c2) nids2 nbins = Some (b2, c').
Proof.
  intros HT Hnb Hnb32 Hbound Hready Hclen Hcrows Hnids Hok Hdup Hperm Hlt.
  destruct (Reset_reset_state b T N nbins space HT Hnb32 Hbound Hready)
    as (b1 & HReset & Hreset).
  destruct (build_blocks_items gpair gmat b1 nbins T N space caller items HT Hnids
              Hreset Hclen Hcrows Hok) as ([b2 c2] & Hbuild & Hpass).
  assert (∀ t n, (t < ParallelGHistBuilder.nthreads_ b1)%nat →
            (n < ParallelGHistBuilder.nodes_ b1)%nat → item_used items t n →
            ParallelGHistBuilder.touches b1 t n = true) as Hused.
  { intros t n _ _ Hu.
    by destruct (item_used_touches gmat b1 nbins T N space items t n HT Hnids Hreset
                   Hok Hu) as (_ & _ & ?). }
  pose proof Hpass as (Hstruct & _).
  destruct Hstruct as (_ & _ & _ & _ & _ & _ & _ & _ & _ & _ & Hc2len & Hc2rows & _).
  simpl in Hc2len, Hc2rows.
  destruct Hreset as (B2 & B3 & B1 & B6 & B5 & Hths & Hinv & Hassigned & B7 & B11 & Htot
                      & B8 & B9 & B10).
  destruct (reduce_nodes_rows b1 _ nbins Hinv Hassigned Hths B7 B11 Htot
              (item_used items) (acc_items gpair gmat nbins items) b2 c2 Hpass Hused
              (length_acc_items gpair gmat nbins items) nids1 c2)
    as (c1 & Hred1 & Hlen1 & _ & Hc1); [done | by rewrite B3 | done..|].
  destruct (reduce_nodes_rows b1 _ nbins Hinv Hassigned Hths B7 B11 Htot
              (item_used items) (acc_items gpair gmat nbins items) b2 c2 Hpass Hused
              (length_acc_items gpair gmat nbins items) nids2 c2)
    as (c2' & Hred2 & Hlen2 & _ & Hc2); [by rewrite <- Hperm | | done..|].
  { rewrite B3. by rewrite <- Hperm. }
  exists b1, b2, c2, c1. split; [done|]. split; [done|]. split; [done|].
  rewrite Hred2. do 2 f_equal. apply list_eq. intros n. rewrite Hc1, Hc2.
  destruct (decide (n ∈ nids1)) as [Hin|Hin], (decide (n ∈ nids2)) as [Hin'|Hin'];
    try done; exfalso.
  - apply Hin'. by rewrite <- Hperm.
  - apply Hin. by rewrite Hperm.
Qed.

Lemma GetInitializedHist_nbins b (c : list (list GP)) (tid nid : nat) r :
  ParallelGHistBuilder.GetInitializedHist b c tid nid = Some r →
  ParallelGHistBuilder.nbins_ r.2.1 = ParallelGHistBuilder.nbins_ b.
Proof.
  unfold ParallelGHistBuilder.GetInitializedHist.
  case_decide; [|done].
  destruct (_ !! (tid, nid)) as [idx|]; simpl; [|done].
  destruct (if decide (0 ≤ idx) then _ else _) as [hb|]; simpl; [|done].
  destruct (ParallelGHistBuilder.hist_of b hb nid idx) as [hist|]; simpl; [|done].
  destruct (ParallelGHistBuilder.was_used b tid nid).
  - by intros [= <-].
  - destruct (InitilizeHistByZeroes _ _ _ _); simpl; [|done]. by intros [= <-].
Qed.

Lemma build_blocks_nbins (gpair : nat → GP) (gmat : nat → list nat)
    (st st' : ParallelGHistBuilder.t GP * list (list GP)) items :
  build_blocks gpair gmat st items = Some st' →
  ParallelGHistBuilder.nbins_ st'.1 = ParallelGHistBuilder.nbins_ st.1.
Proof.
  revert st. induction items as [|item items IH]; intros st; simpl.
  { by intros [= <-]. }
  destruct (build_block gpair gmat st item) as [st1|] eqn:Hblock; simpl; [|done].
  intros Hrest. rewrite (IH _ Hrest).
  unfold build_block in Hblock.
  destruct (ParallelGHistBuilder.GetInitializedHist _ _ _ _) as [r|] eqn:Hget;
    simpl in Hblock; [|done].
  destruct (BuildHist _ _ _ _ _); simpl in Hblock; [|done].
  injection Hblock as <-. simpl. by apply GetInitializedHist_nbins in Hget.
Qed.

(** X18.  Passes compose: a full pass ([Reset], the accumulation,
    [ReduceHist] for every node) leaves the builder ready for the next
    [Reset] with the same bin count, its scratch rows allocated with
    [nbins] bins, and the rows of the caller with [nbins] bins each. *)
Theorem parallel_build_ready_again (gpair : nat → GP) (gmat : nat → list nat)
    b (caller : list (list GP)) (T N nbins : nat) (space : list Block) :
  T ≠ 0%nat → (0 < nbins)%nat →
  Z.of_nat nbins ≤ u32_max → Z.of_nat (T * N) ≤ u32_max →
  builder_ready nbins b →
  length caller = N → Forall (λ row, length row = nbins) caller →
  Forall (λ blk, (block_nid blk < N)%nat) space →
  space_sorted space →
  Forall (λ blk, Forall (λ r, Forall (λ bin, bin < nbins)%nat (gmat r)) (block_rows blk))
    space →
  ∃ b' caller',
    parallel_build gpair gmat b caller T N space (caller_targets N nbins) nbins
      = Some (b', caller') ∧
    builder_ready nbins b' ∧
    length caller' = N ∧ Forall (λ row, length row = nbins) caller'.
Proof.
  intros HT Hnb Hnb32 Hbound Hready Hclen Hcrows Hnids Hsorted Hbins.
  pose proof (work_items_items_ok gmat space nbins T N HT Hnids Hsorted Hbins) as Hok.
  destruct (Reset_reset_state b T N nbins space HT Hnb32 Hbound Hready)
    as (b1 & HReset & Hreset).
  destruct (build_blocks_items gpair gmat b1 nbins T N space caller _ HT Hnids
              Hreset Hclen Hcrows Hok) as ([b2 c2] & Hbuild & Hpass).
  assert (∀ t n, (t < ParallelGHistBuilder.nthreads_ b1)%nat →
            (n < ParallelGHistBuilder.nodes_ b1)%nat →
            item_used (work_items space T) t n →
            ParallelGHistBuilder.touches b1 t n = true) as Hused.
  { intros t n _ _ Hu.
    by destruct (item_used_touches gmat b1 nbins T N space _ t n HT Hnids Hreset
                   Hok Hu) as (_ & _ & ?). }
  pose proof (build_blocks_nbins _ _ _ _ _ Hbuild) as Hnbins. simpl in Hnbins.
  pose proof Hpass as (Hstruct & _).
  destruct Hstruct as (_ & _ & _ & _ & _ & _ & S7 & S8 & _ & S10 & Hc2len & Hc2rows & _).
  simpl in S7, S8, S10, Hc2len, Hc2rows.
  destruct Hreset as (B2 & B3 & B1 & B6 & B5 & Hths & Hinv & Hassigned & B7 & B11 & Htot
                      & B8 & B9 & B10).
  destruct (reduce_nodes_rows b1 _ nbins Hinv Hassigned Hths B7 B11 Htot
              (item_used (work_items space T))
              (acc_items gpair gmat nbins (work_items space T)) b2 c2 Hpass Hused
              (length_acc_items gpair gmat nbins _) (seq 0 N) c2)
    as (c' & Hred & Hlen & Hrows & _); [apply NoDup_seq | | done..|].
  { apply Forall_forall. intros n Hn%elem_of_seq. rewrite B3. lia. }
  exists b2, c'. split.
  { unfold parallel_build. rewrite HReset. simpl. rewrite Hbuild. simpl. exact Hred. }
  split; [|split; [by rewrite Hlen|done]].
  split; [by rewrite Hnbins, B1|]. done.
Qed.

End PassRows.

Lemma builder4_ready : builder_ready 4 builder4.
Proof. repeat split; repeat constructor. Qed.

Lemma caller_stale_rows : Forall (λ row : list (Z * Z), length row = 4%nat) caller_stale.
Proof. repeat constructor. Qed.

Lemma space_node1_nids : Forall (λ blk, (block_nid blk < 2)%nat) space_node1.
Proof. repeat constructor. Qed.

Lemma space_node1_bins :
  Forall (λ blk, Forall (λ r, Forall (λ bin, bin < 4)%nat (gmat_mod4 r)) (block_rows blk))
    space_node1.
Proof. repeat constructor. Qed.

Lemma items_first_ok : items_ok gmat_mod4 space_node1 4 2 2 items_first.
Proof.
  repeat constructor; simpl; try lia.
Qed.

Lemma Reset_GetInitializedHist_matched_witness :
  ∃ b1, ParallelGHistBuilder.Reset builder4 2 2 space_node1 (caller_targets 2 4) = Some b1 ∧
    (chunk_touches space_node1 (chunck_size (length space_node1) 2) 1 1 →
     ∃ h b' c', ParallelGHistBuilder.GetInitializedHist b1 caller_stale 1 1
                  = Some (h, (b', c')) ∧
                span_size h = 4%nat ∧
                span_read (ParallelGHistBuilder.mem_of b' c') h
                  = Some (replicate 4 gp_zero)) ∧
    (¬ chunk_touches space_node1 (chunck_size (length space_node1) 2) 1 1 →
     ParallelGHistBuilder.GetInitializedHist b1 caller_stale 1 1 = None).
Proof.
  apply (Reset_GetInitializedHist_matched builder4 caller_stale 2 2 4 space_node1 1 1);
    [lia | by vm_compute | by vm_compute | exact builder4_ready | reflexivity
    | exact caller_stale_rows | exact space_node1_nids | lia | lia].
Defined.

Lemma Reset_histograms_distinct_witness :
  ∃ b1, ParallelGHistBuilder.Reset builder4 2 2 space_node1 (caller_targets 2 4) = Some b1 ∧
    ∀ t1 n1 t2 n2 h1 h2 st1 st2,
      ParallelGHistBuilder.GetInitializedHist b1 caller_stale t1 n1 = Some (h1, st1) →
      ParallelGHistBuilder.GetInitializedHist b1 caller_stale t2 n2 = Some (h2, st2) →
      (t1, n1) ≠ (t2, n2) →
      span_array h1 ≠ span_array h2.
Proof.
  apply (Reset_histograms_distinct builder4 caller_stale 2 2 4 space_node1);
    [lia | by vm_compute | by vm_compute | exact builder4_ready | reflexivity
    | exact caller_stale_rows].
Defined.

Lemma GetInitializedHist_keeps_accumulated_witness :
  ∃ b1 b2 c2 h b' c',
    ParallelGHistBuilder.Reset builder4 2 2 space_node1 (caller_targets 2 4) = Some b1 ∧
    build_blocks gpair_count gmat_mod4 (b1, caller_stale) items_first = Some (b2, c2) ∧
    ParallelGHistBuilder.GetInitializedHist b2 c2 0 1 = Some (h, (b', c')) ∧
    span_read (ParallelGHistBuilder.mem_of b' c') h
      = Some (acc_items gpair_count gmat_mod4 4 items_first 0 1) ∧
    ∀ a, mem_array (ParallelGHistBuilder.mem_of b' c') a
         = mem_array (ParallelGHistBuilder.mem_of b2 c2) a.
Proof.
  apply (GetInitializedHist_keeps_accumulated gpair_count gmat_mod4 builder4
           caller_stale 2 2 4 space_node1 items_first 0 1);
    [lia | by vm_compute | by vm_compute | exact builder4_ready | reflexivity
    | exact caller_stale_rows | exact space_node1_nids | exact items_first_ok |].
  eexists. split; [by left|]. done.
Defined.

Lemma reduce_nodes_any_order_witness :
  ∃ b1 b2 c2 c',
    ParallelGHistBuilder.Reset builder4 2 2 space_node1 (caller_targets 2 4) = Some b1 ∧
    build_blocks gpair_count gmat_mod4 (b1, caller_stale) items_first = Some (b2, c2) ∧
    reduce_nodes (b2, c2) [0%nat; 1%nat] 4 = Some (b2, c') ∧
    reduce_nodes (b2, c2) [1%nat; 0%nat] 4 = Some (b2, c').
Proof.
  apply (reduce_nodes_any_order gpair_count gmat_mod4 builder4 caller_stale 2 2 4
           space_node1 items_first [0%nat; 1%nat] [1%nat; 0%nat]);
    [lia | lia | by vm_compute | by vm_compute | exact builder4_ready | reflexivity
    | exact caller_stale_rows | exact space_node1_nids | exact items_first_ok
    | | apply perm_swap | repeat constructor].
  apply NoDup_cons. split; [|apply NoDup_singleton].
  intros Hin%list_elem_of_singleton. done.
Defined.

Lemma parallel_build_ready_again_witness :
  ∃ b' caller',
    parallel_build gpair_count gmat_mod4 builder4 caller_stale 2 2 space_node1
      (caller_targets 2 4) 4 = Some (b', caller') ∧
    builder_ready 4 b' ∧
    length caller' = 2%nat ∧ Forall (λ row, length row = 4%nat) caller'.
Proof.
  apply (parallel_build_ready_again gpair_count gmat_mod4 builder4 caller_stale 2 2 4
           space_node1);
    [lia | lia | by vm_compute | by vm_compute | exact builder4_ready | reflexivity
    | exact caller_stale_rows | exact space_node1_nids | exact space_node1_sorted
    | exact space_node1_bins].
Defined.

(** ** The number of scratch histograms *)

Lemma length_tail_pred {A} (l : list A) : length (tail l) = (length l - 1)%nat.
Proof. destruct l; simpl; lia. Qed.

Lemma filter_seq_tail (P : nat → bool) (a n t0 t : nat) (rest : list nat) :
  filter P (seq a n) = t0 :: rest → t ∈ rest → (t0 < t < a + n)%nat ∧ P t = true.
Proof.
  intros Hf Hin.
  destruct (filter_seq_head _ _ _ _ _ Hf) as (_ & _ & Hbefore).
  assert (t ∈ filter P (seq a n)) as Hin' by (rewrite Hf; by right).
  apply list_elem_of_filter in Hin' as [Ht Hseq%elem_of_seq].
  assert (NoDup (t0 :: rest)) as Hdup by (rewrite <- Hf; apply NoDup_filter, NoDup_seq).
  apply NoDup_cons in Hdup as [Hnot _].
  destruct (P t) eqn:HPt; [|done].
  split; [|done]. split; [|lia].
  destruct (decide (t0 < t)%nat); [done|].
  destruct (decide (t = t0)) as [->|]; [done|].
  rewrite Hbefore in HPt by lia. done.
Qed.

Section ScratchBound.
Context {GP : Type}.
Variable b1 : ParallelGHistBuilder.t GP.
Variable space : list Block.
Variables T N : nat.
Hypothesis HT : T ≠ 0%nat.
Hypothesis Hsorted : space_sorted space.
Hypothesis HbT : ParallelGHistBuilder.nthreads_ b1 = T.
Hypothesis HbN : ParallelGHistBuilder.nodes_ b1 = N.
Hypothesis Htouch : ∀ tid nid, (tid < T)%nat → (nid < N)%nat →
  ParallelGHistBuilder.touches b1 tid nid = true ↔
  chunk_touches space (chunck_size (length space) T) tid nid.

Lemma hist_allocated_fold_length (l : list nat) (n : nat) :
  foldl (λ a nid, (a + (ParallelGHistBuilder.nthreads_for_nid b1 nid - 1))%nat) n l
  = (n + length (l ≫= λ nid, tail (touching b1 nid)))%nat.
Proof using Type.
  clear. revert n. induction l as [|nid l IH]; intros n; [simpl; lia|].
  cbn [foldl].
  rewrite IH, bind_cons, length_app, length_tail_pred, nthreads_for_nid_touching. lia.
Qed.

(** A thread that is not the first one of a node starts its chunk with a
    block of this node. *)
Lemma later_thread_first_block (t nid : nat) :
  (nid < N)%nat → t ∈ tail (touching b1 nid) →
  (1 ≤ t < T)%nat ∧
  nid = GetFirstDimension space (chunck_size (length space) T * t).
Proof using HT Hsorted HbT HbN Htouch.
  intros Hnid Hin.
  destruct (touching b1 nid) as [|t0 rest] eqn:Hts; [inversion Hin|].
  simpl in Hin. unfold touching in Hts.
  destruct (filter_seq_head _ _ _ _ _ Hts) as (Ht0 & Ht0T & _).
  destruct (filter_seq_tail _ _ _ _ _ _ Hts Hin) as (Hlt & Ht).
  rewrite HbT in Ht0T, Hlt. simpl in Ht0T, Hlt.
  split; [lia|].
  apply Htouch in Ht0 as (Hb0 & Hlo0 & Hhi0); [|lia|done].
  apply Htouch in Ht as (Hb & Hlo & Hhi); [|lia|done].
  set (cs := chunck_size (length space) T) in *.
  assert (cs * t0 + cs ≤ cs * t)%nat as Hcs by nia.
  pose proof (Hsorted ((cs * t0 + cs) `min` length space - 1)%nat (cs * t)%nat
                ltac:(lia) ltac:(lia)) as Hle.
  lia.
Qed.

Lemma hist_allocated_below_threads :
  (ParallelGHistBuilder.hist_allocated_additionally b1 ≤ T - 1)%nat.
Proof using HT Hsorted HbT HbN Htouch.
  unfold ParallelGHistBuilder.hist_allocated_additionally.
  rewrite hist_allocated_fold_length, HbN. simpl.
  set (L := seq 0 N ≫= λ nid, tail (touching b1 nid)).
  assert (NoDup L) as Hdup.
  { apply NoDup_bind; [| |apply NoDup_seq].
    - intros n1 n2 t Hn1%elem_of_seq Hn2%elem_of_seq Ht1 Ht2.
      destruct (later_thread_first_block t n1 ltac:(lia) Ht1) as [_ ->].
      by destruct (later_thread_first_block t n2 ltac:(lia) Ht2) as [_ ->].
    - intros n _. apply (sublist_NoDup _ (touching b1 n)); [apply NoDup_touching|].
      destruct (touching b1 n); [done|]. by apply sublist_cons. }
  assert (L ⊆+ seq 1 (T - 1)) as Hsub.
  { apply NoDup_submseteq; [done|].
    intros t (n & Ht & Hn%elem_of_seq)%list_elem_of_bind.
    destruct (later_thread_first_block t n ltac:(lia) Ht) as [Hrange _].
    apply elem_of_seq. lia. }
  apply submseteq_length in Hsub. by rewrite length_seq in Hsub.
Qed.

End ScratchBound.

Section ScratchRows.
Context {GP : Type} `{GradientPairOps GP}.

(** X19.  The scratch histograms are few: on a work space whose blocks
    come in the order of their nodes, [Reset] adds at most
    [nthreads - 1] rows to the buffer, whatever the number of nodes, and
    none at all for a single thread; their number is
    [n_nodes_added_] of the buffer. *)
Theorem Reset_scratch_rows_bound (b : ParallelGHistBuilder.t GP)
    (T N nbins : nat) (space : list Block) :
  T ≠ 0%nat → Z.of_nat nbins ≤ u32_max → Z.of_nat (T * N) ≤ u32_max →
  builder_ready nbins b →
  Forall (λ blk, (block_nid blk < N)%nat) space →
  space_sorted space →
  ∃ b1 (total : nat),
    ParallelGHistBuilder.Reset b T N space (caller_targets N nbins) = Some b1 ∧
    HistCollection.n_nodes_added_ (ParallelGHistBuilder.hist_buffer_ b1)
      = Z.of_nat total ∧
    (total ≤ T - 1)%nat ∧
    ∀ tid nid idx,
      ParallelGHistBuilder.tid_nid_to_hist_ b1 !! (tid, nid) = Some idx →
      idx = -1 ∨ 0 ≤ idx < Z.of_nat total.
Proof.
  intros HT Hnb32 Hbound Hready Hnids Hsorted.
  destruct (Reset_reset_state b T N nbins space HT Hnb32 Hbound Hready)
    as (b1 & HReset & Hreset).
  destruct Hreset as (B2 & B3 & B1 & B6 & B5 & Hths & Hinv & Hassigned & B7 & B11 & Htot
                      & B8 & B9 & B10).
  exists b1, (ParallelGHistBuilder.hist_allocated_additionally b1).
  split; [done|]. split; [by destruct B7|]. split.
  - apply (hist_allocated_below_threads b1 space T N HT Hsorted B2 B3).
    intros tid nid Htid Hnid.
    by apply (touches_chunk_touches space T N HT Hnids b1).
  - intros tid nid idx Hidx. destruct Hinv as [Hrange _]. by apply (Hrange (tid, nid)).
Qed.

End ScratchRows.

Lemma Reset_scratch_rows_bound_witness :
  ∃ b1 (total : nat),
    ParallelGHistBuilder.Reset builder4 2 2 space_node1 (caller_targets 2 4) = Some b1 ∧
    HistCollection.n_nodes_added_ (ParallelGHistBuilder.hist_buffer_ b1)
      = Z.of_nat total ∧
    (total ≤ 2 - 1)%nat ∧
    ∀ tid nid idx,
      ParallelGHistBuilder.tid_nid_to_hist_ b1 !! (tid, nid) = Some idx →
      idx = -1 ∨ 0 ≤ idx < Z.of_nat total.
Proof.
  apply (Reset_scratch_rows_bound builder4 2 2 4 space_node1);
    [lia | by vm_compute | by vm_compute | exact builder4_ready
    | exact space_node1_nids | exact space_node1_sorted].
Defined.

(** ** Initialisation and chunks *)

Section BuilderInit.
Context {GP : Type} `{GradientPairOps GP}.

Lemma builder_new_ready : builder_ready 0 (ParallelGHistBuilder.new (GP := GP)).
Proof. repeat split. constructor. Qed.

(** X20.  [Init] makes a builder ready for a bin count: with the bin
    count it has already, [Init] changes nothing and the scratch rows
    allocated before stay; with another bin count the scratch rows are
    dropped and the buffer takes the new count. *)
Theorem Init_builder_ready (b : ParallelGHistBuilder.t GP) (n n' : nat) :
  builder_ready n b → Z.of_nat n' ≤ u32_max →
  builder_ready n' (ParallelGHistBuilder.Init b (Z.of_nat n')) ∧
  (n' = n → ParallelGHistBuilder.Init b (Z.of_nat n') = b) ∧
  (n' ≠ n →
   HistCollection.data_
     (ParallelGHistBuilder.hist_buffer_ (ParallelGHistBuilder.Init b (Z.of_nat n'))) = []).
Proof.
  intros (R1 & R2 & R3 & R4) Hn'. unfold ParallelGHistBuilder.Init. rewrite R1.
  destruct (decide (Z.of_nat n' ≠ Z.of_nat n)) as [Hne|Heq].
  - rewrite u32_small by lia.
    assert (HistCollection.data_
              (HistCollection.Init (ParallelGHistBuilder.hist_buffer_ b) (Z.of_nat n'))
            = []) as Hdata.
    { simpl. rewrite R2. by rewrite decide_True by (intros ?; lia). }
    split; [|split; [intros ->; done|done]].
    split; [done|]. split; [done|]. split; [done|].
    simpl ParallelGHistBuilder.hist_buffer_. rewrite Hdata. constructor.
  - assert (n' = n) as -> by lia.
    split; [done|]. split; [done|]. intros ?; done.
Qed.

End BuilderInit.

Lemma builder4_used_pass :
  parallel_build gpair_count gmat_mod4 builder4 caller_stale 2 2 space_node1
    (caller_targets 2 4) 4
  = Some (builder4_used, [replicate 4 (0, 0); [(1, 1); (2, 1); (3, 1); (4, 1)]]).
Proof. by vm_compute. Qed.

Lemma builder4_used_ready : builder_ready 4 builder4_used.
Proof. repeat split. constructor; [by right | constructor]. Qed.

Lemma Init_builder_ready_witness :
  (builder_ready 4 (ParallelGHistBuilder.Init builder4_used (Z.of_nat 4)) ∧
   ParallelGHistBuilder.Init builder4_used (Z.of_nat 4) = builder4_used ∧
   HistCollection.data_ (ParallelGHistBuilder.hist_buffer_ builder4_used)
     = [[(0, 0); (0, 0); (3, 1); (4, 1)]]) ∧
  (builder_ready 2 (ParallelGHistBuilder.Init builder4_used (Z.of_nat 2)) ∧
   HistCollection.data_
     (ParallelGHistBuilder.hist_buffer_
        (ParallelGHistBuilder.Init builder4_used (Z.of_nat 2))) = []).
Proof.
  split.
  - destruct (Init_builder_ready builder4_used 4 4) as (Hready & Hsame & _);
      [exact builder4_used_ready | by vm_compute |].
    split; [exact Hready|]. split; [exact (Hsame eq_refl) | reflexivity].
  - destruct (Init_builder_ready builder4_used 4 2) as (Hready & _ & Hdrop);
      [exact builder4_used_ready | by vm_compute |].
    split; [exact Hready|]. apply Hdrop. lia.
Defined.

Lemma bind_pair_snd {A B} (g : A → list B) (l : list A) :
  (l ≫= λ x, (λ y, (x, y)) <$> g x).*2 = l ≫= g.
Proof.
  induction l as [|x l IH]; [done|].
  rewrite !bind_cons, fmap_app, IH. f_equal.
  rewrite <- list_fmap_compose. exact (list_fmap_id (g x)).
Qed.

(** X21.  The chunks of [MatchThreadsToNodes] partition the work space:
    the blocks [chunck_size * tid, min (chunck_size * tid + chunck_size,
    space_size)) of the threads 0, 1, ... make up the work space, each
    block once and in order; no thread has more than [chunck_size]
    blocks, and [chunck_size] is the number of blocks divided by the
    number of threads, rounded up. *)
Theorem thread_chunks_partition (space : list Block) (T : nat) :
  T ≠ 0%nat →
  (seq 0 T ≫= thread_blocks space T) = space ∧
  (∀ tid, length (thread_blocks space T tid) ≤ chunck_size (length space) T)%nat ∧
  (length space ≤ chunck_size (length space) T * T < length space + T)%nat.
Proof.
  intros HT. split; [|split].
  - rewrite <- (work_items_blocks space T HT) at 2. unfold work_items.
    by rewrite bind_pair_snd.
  - intros tid. unfold thread_blocks. rewrite length_take. lia.
  - split; [by apply chunck_size_covers|].
    unfold chunck_size.
    pose proof (Nat.div_mod_eq (length space) T) as Hdm.
    pose proof (Nat.mod_upper_bound (length space) T HT) as Hmod.
    case_decide; nia.
Qed.

Lemma thread_chunks_partition_witness :
  (seq 0 2 ≫= thread_blocks space_five 2) = space_five ∧
  (∀ tid, length (thread_blocks space_five 2 tid)
          ≤ chunck_size (length space_five) 2)%nat ∧
  (length space_five ≤ chunck_size (length space_five) 2 * 2 < length space_five + 2)%nat.
Proof. apply (thread_chunks_partition space_five 2). lia. Defined.

(** ** The stack allocator *)

Section AllocatorFacts.
Import MemStackAllocator.
Variables MaxStackSize sizeof_T : Z.

Lemma filter_fresh (l : list nat) (k : nat) :
  Forall (λ j, j < k)%nat l → filter (λ j, j ≠ k) (k :: l) = l.
Proof.
  intros Hl. rewrite filter_cons_False by (intros Hk; by apply Hk).
  induction Hl as [|j l Hj _ IH]; [done|].
  rewrite filter_cons_True by lia. by rewrite IH.
Qed.

Lemma Get_alloc_inv (h0 : Heap) (a : t) (h : Heap) :
  alloc_inv MaxStackSize h0 a h →
  let r := Get MaxStackSize sizeof_T a h in
  alloc_inv MaxStackSize h0 r.1.2 r.2 ∧ required_size_ r.1.2 = required_size_ a ∧
  r.1.1 = ptr_ r.1.2.
Proof.
  intros [Hfree Hinv]. unfold Get.
  destruct (decide (ptr_ a = Null)) as [Hnull|Hset]; [|by simpl].
  destruct Hinv as [[_ ->]|[(Hp & _)|(Hp & _)]]; [|congruence..].
  unfold alloc_inv.
  destruct (decide (required_size_ a ≤ MaxStackSize)) as [Hsmall|Hbig]; simpl.
  - assert (do_free_ a = false) as Hf by (destruct Hfree; [done|lia]).
    split; [|done]. split; [by left|]. right; left. done.
  - unfold malloc. case_decide; simpl.
    + split; [|done]. split; [right; lia|].
      right; right. split; [done|]. split; [done|]. split; [lia|done].
    + split; [|done]. split; [right; lia|]. by left.
Qed.

Lemma Gets_alloc_inv (n : nat) (h0 : Heap) (a : t) (h : Heap) :
  alloc_inv MaxStackSize h0 a h →
  let r := Gets MaxStackSize sizeof_T n a h in
  alloc_inv MaxStackSize h0 r.1 r.2 ∧ required_size_ r.1 = required_size_ a.
Proof.
  revert a h. induction n as [|n IH]; intros a h Hinv; simpl; [done|].
  destruct (Get_alloc_inv h0 a h Hinv) as (Hinv' & Hreq & _).
  destruct (IH _ _ Hinv') as [Hinv'' Hreq'].
  split; [done|]. by rewrite Hreq', Hreq.
Qed.

Lemma new_alloc_inv (h0 : Heap) (r : Z) : alloc_inv MaxStackSize h0 (new r) h0.
Proof. split; [by left|]. by left. Qed.

Lemma Get_set (a : t) (h : Heap) :
  ptr_ a ≠ Null → Get MaxStackSize sizeof_T a h = (ptr_ a, a, h).
Proof. intros Hp. unfold Get. by rewrite decide_False. Qed.

Lemma Gets_fixed (n : nat) (a : t) (h : Heap) :
  ptr_ a ≠ Null → Gets MaxStackSize sizeof_T n a h = (a, h).
Proof.
  intros Hp. induction n as [|n IH]; [done|]. simpl. by rewrite Get_set.
Qed.

(** X22.  [Get] allocates at most once and hands out the same array
    from then on: the first [Get] returns the array of the object,
    without touching the heap, when the required size is at most
    [MaxStackSize], and otherwise what [malloc] returns; once a [Get] has
    returned a pointer that is not null, every later [Get] returns this
    pointer and changes neither the object nor the heap. *)
Theorem MemStackAllocator_Get_once (required_size : Z) (h : Heap) :
  let r := Get MaxStackSize sizeof_T (new required_size) h in
  (required_size ≤ MaxStackSize →
   r.1.1 = StackMem ∧ r.2 = h ∧ do_free_ r.1.2 = false) ∧
  (MaxStackSize < required_size →
   r = ((malloc h (usize (required_size * sizeof_T))).1,
        {| ptr_ := (malloc h (usize (required_size * sizeof_T))).1;
           do_free_ := true; required_size_ := required_size |},
        (malloc h (usize (required_size * sizeof_T))).2)) ∧
  (r.1.1 ≠ Null →
   ∀ n, Gets MaxStackSize sizeof_T n r.1.2 r.2 = (r.1.2, r.2) ∧
        Get MaxStackSize sizeof_T r.1.2 r.2 = (r.1.1, r.1.2, r.2)).
Proof.
  cbv zeta.
  assert (Get MaxStackSize sizeof_T (new required_size) h =
          if decide (required_size ≤ MaxStackSize)
          then (StackMem, {| ptr_ := StackMem; do_free_ := false;
                             required_size_ := required_size |}, h)
          else ((malloc h (usize (required_size * sizeof_T))).1,
                {| ptr_ := (malloc h (usize (required_size * sizeof_T))).1;
                   do_free_ := true; required_size_ := required_size |},
                (malloc h (usize (required_size * sizeof_T))).2)) as -> by reflexivity.
  destruct (decide (required_size ≤ MaxStackSize)) as [Hsmall|Hbig].
  - split; [done|]. split; [lia|]. intros _ n. split; [|by apply Get_set].
    by apply Gets_fixed.
  - split; [lia|]. split; [done|]. intros Hp n. split; [|by apply Get_set].
    by apply Gets_fixed.
Qed.

(** X23.  The allocator frees what it has allocated and nothing else:
    after the construction, any number of [Get]s and the destructor, the
    live blocks of the heap are those of before; the destructor never
    frees the array of the object. *)
Theorem MemStackAllocator_balanced (required_size : Z) (h : Heap) (n : nat) :
  heap_fresh h →
  let r := Gets MaxStackSize sizeof_T n (new required_size) h in
  live (destroy r.1 r.2) = live h ∧
  (do_free_ r.1 = true → ptr_ r.1 ≠ StackMem).
Proof.
  intros Hfresh.
  destruct (Gets_alloc_inv n h (new required_size) h (new_alloc_inv h required_size))
    as [[Hfree Hinv] _].
  cbv zeta. set (r := Gets _ _ _ _ _) in *. unfold destroy.
  destruct Hinv as [[Hp ->]|[(Hp & Hf & -> & _)|(Hp & Hf & _ & Hlive)]].
  - rewrite Hp. split; [by destruct (do_free_ r.1)|]. done.
  - rewrite Hf. split; [done|]. done.
  - rewrite Hf, Hp. simpl. rewrite Hlive. split; [by apply filter_fresh|]. done.
Qed.

End AllocatorFacts.

Lemma MemStackAllocator_Get_once_witness :
  let r := MemStackAllocator.Get 8 4 (MemStackAllocator.new 16) heap_two in
  (16 ≤ 8 →
   r.1.1 = MemStackAllocator.StackMem ∧ r.2 = heap_two ∧
   MemStackAllocator.do_free_ r.1.2 = false) ∧
  (8 < 16 →
   r = ((MemStackAllocator.malloc heap_two (usize (16 * 4))).1,
        {| MemStackAllocator.ptr_ :=
             (MemStackAllocator.malloc heap_two (usize (16 * 4))).1;
           MemStackAllocator.do_free_ := true;
           MemStackAllocator.required_size_ := 16 |},
        (MemStackAllocator.malloc heap_two (usize (16 * 4))).2)) ∧
  (r.1.1 ≠ MemStackAllocator.Null →
   ∀ n, MemStackAllocator.Gets 8 4 n r.1.2 r.2 = (r.1.2, r.2) ∧
        MemStackAllocator.Get 8 4 r.1.2 r.2 = (r.1.1, r.1.2, r.2)).
Proof. exact (MemStackAllocator_Get_once 8 4 16 heap_two). Defined.

Lemma MemStackAllocator_balanced_witness :
  let r := MemStackAllocator.Gets 8 4 3 (MemStackAllocator.new 16) heap_two in
  MemStackAllocator.live (MemStackAllocator.destroy r.1 r.2)
    = MemStackAllocator.live heap_two ∧
  (MemStackAllocator.do_free_ r.1 = true →
   MemStackAllocator.ptr_ r.1 ≠ MemStackAllocator.StackMem).
Proof.
  apply (MemStackAllocator_balanced 8 4 16 heap_two 3).
  repeat constructor.
Defined.

(** ** Reducing a range of bins *)

Section RangeRow.
Context {A : Type}.
Implicit Types new old : list A.

Lemma length_range_row (begin end_ : nat) new old :
  length (range_row begin end_ new old) = length old.
Proof. apply length_imap. Qed.

Lemma lookup_range_row (begin end_ : nat) new old (i : nat) :
  length new = length old →
  range_row begin end_ new old !! i =
  if decide (begin ≤ i < end_)%nat then new !! i else old !! i.
Proof.
  intros Hlen. unfold range_row. rewrite list_lookup_imap.
  destruct (old !! i) as [x|] eqn:Hx; simpl.
  - case_decide; [|done].
    destruct (new !! i) as [y|] eqn:Hy; [done|].
    apply lookup_ge_None in Hy. apply lookup_lt_Some in Hx. lia.
  - case_decide; [|done]. symmetry. apply lookup_ge_None.
    apply lookup_ge_None in Hx. lia.
Qed.

Lemma range_row_all (n : nat) new old :
  length new = n → length old = n → range_row 0 n new old = new.
Proof.
  intros Hn Ho. apply list_eq. intros i. rewrite lookup_range_row by lia.
  case_decide as Hi; [done|].
  rewrite !lookup_ge_None_2 by lia. done.
Qed.

(** The row [list_inserts] makes of an updated range. *)
Lemma list_inserts_range (begin end_ : nat) new old :
  length new = length old → (begin ≤ end_ ≤ length old)%nat →
  list_inserts begin (take (end_ - begin) (drop begin new)) old
  = range_row begin end_ new old.
Proof.
  intros Hlen Hbe. apply list_eq. intros i. rewrite lookup_range_row by done.
  assert (length (take (end_ - begin) (drop begin new)) = (end_ - begin)%nat) as Hk.
  { rewrite length_take, length_drop. lia. }
  case_decide as Hi.
  - rewrite list_lookup_inserts by lia.
    rewrite lookup_take_lt by lia. rewrite lookup_drop. f_equal. lia.
  - destruct (decide (i < begin)%nat).
    + by rewrite list_lookup_inserts_lt by lia.
    + by rewrite list_lookup_inserts_ge by lia.
Qed.

End RangeRow.

Section RangeMemory.
Context {GP : Type} `{GradientPairOps GP}.

Lemma take_drop_zip_with (d s : list GP) (k b : nat) :
  zip_with gp_add (take k (drop b d)) (take k (drop b s))
  = take k (drop b (zip_with gp_add d s)).
Proof.
  apply list_eq. intros i.
  destruct (decide (i < k)%nat) as [Hi|Hi].
  - rewrite lookup_take_lt, lookup_drop by done.
    rewrite !lookup_zip_with. rewrite !lookup_take_lt, !lookup_drop by done. done.
  - rewrite lookup_take_ge by lia.
    rewrite lookup_zip_with. rewrite !lookup_take_ge by lia. done.
Qed.

Lemma IncrementHist_range m a a' (d s : list GP) (nbins begin end_ : nat) :
  mem_array m a = Some d → mem_array m a' = Some s →
  length d = nbins → length s = nbins → (begin ≤ end_ ≤ nbins)%nat →
  IncrementHist m (whole_row a nbins) (whole_row a' nbins) begin end_ =
  Some (mem_set_array m a (range_row begin end_ (zip_with gp_add d s) d)).
Proof.
  intros Ha Ha' Hd Hs Hbe. unfold IncrementHist. simpl. rewrite Ha, Ha'. simpl.
  rewrite decide_True by lia.
  rewrite take_drop_zip_with.
  rewrite list_inserts_range by (rewrite ?length_zip_with; lia). done.
Qed.

Lemma InitilizeHistByZeroes_range m a (row : list GP) (nbins begin end_ : nat) :
  mem_array m a = Some row → length row = nbins → (begin ≤ end_ ≤ nbins)%nat →
  InitilizeHistByZeroes m (whole_row a nbins) begin end_ =
  Some (mem_set_array m a (range_row begin end_ (replicate nbins gp_zero) row)).
Proof.
  intros Ha Hlen Hbe. unfold InitilizeHistByZeroes. simpl. rewrite Ha. simpl.
  rewrite decide_True by lia. do 2 f_equal.
  rewrite <- (list_inserts_range begin end_ (replicate nbins gp_zero) row)
    by (rewrite ?length_replicate; lia).
  f_equal. apply list_eq. intros i.
  destruct (decide (i < end_ - begin)%nat) as [Hi|Hi].
  - rewrite lookup_take_lt, lookup_drop by done.
    by rewrite !lookup_replicate_2 by lia.
  - rewrite lookup_take_ge by lia. apply lookup_ge_None.
    rewrite length_replicate. lia.
Qed.

End RangeMemory.

Section RangeFacts.
Context {GP : Type} `{GradientPairOps GP}.
Variable b1 : ParallelGHistBuilder.t GP.
Variables total nbins : nat.
Hypothesis Hinv : scratch_inv (ParallelGHistBuilder.tid_nid_to_hist_ b1) total.
Hypothesis Hassigned : ∀ nid, (nid < ParallelGHistBuilder.nodes_ b1)%nat →
  node_assigned (ParallelGHistBuilder.tid_nid_to_hist_ b1) (touching b1 nid) nid.
Hypothesis Hths : ParallelGHistBuilder.targeted_hists_ b1
                  = caller_targets (ParallelGHistBuilder.nodes_ b1) nbins.
Hypothesis Hrows1 : buffer_rows (ParallelGHistBuilder.hist_buffer_ b1) total.
Hypothesis Hlen1 :
  (total ≤ length (HistCollection.data_ (ParallelGHistBuilder.hist_buffer_ b1)))%nat.
Hypothesis Htot32 : Z.of_nat total ≤ u32_max.
Variable used : nat → nat → Prop.
Variable acc : nat → nat → list GP.
Variable b2 : ParallelGHistBuilder.t GP.
Variable c2 : list (list GP).
Hypothesis Hpass : pass_inv b1 nbins used acc (b2, c2).
Hypothesis Hused_touch : ∀ t n, (t < ParallelGHistBuilder.nthreads_ b1)%nat →
  (n < ParallelGHistBuilder.nodes_ b1)%nat → used t n →
  ParallelGHistBuilder.touches b1 t n = true.
Hypothesis Hacc_len : ∀ t n, length (acc t n) = nbins.

Implicit Types c : list (list GP).

(** The loop of [ReduceHist] over the threads [tids], on a range. *)
Lemma reduce_thread_fold_range (nid begin end_ : nat) (tids : list nat) (m : Mem GP)
    (upd : bool) (h : list GP) :
  (nid < ParallelGHistBuilder.nodes_ b1)%nat → (begin ≤ end_ ≤ nbins)%nat →
  Forall (λ tid, tid < ParallelGHistBuilder.nthreads_ b1)%nat tids →
  m_buffer m = HistCollection.data_ (ParallelGHistBuilder.hist_buffer_ b2) →
  m_caller m !! nid = Some h → length h = nbins →
  ∃ m', foldl (ParallelGHistBuilder.reduce_thread b2 nid
                 (whole_row (CallerRow nid) nbins) begin end_) (Some (m, upd)) tids
        = Some (m', upd || existsb (λ tid, ParallelGHistBuilder.was_used b2 tid nid) tids) ∧
    m_buffer m' = m_buffer m ∧
    m_caller m' = <[nid := reduce_row_range b2 acc nid begin end_ h tids]> (m_caller m).
Proof.
  destruct Hpass as (Hstruct & Hflags & Hcontent).
  pose proof Hstruct as
    (S1 & S2 & S3 & S4 & S5 & S6 & S7 & S8 & S9 & S10 & S11 & S12 & S13).
  simpl in S1, S2, S3, S4, S5, S6, S7, S8, S9, S10, S11, S12, S13, Hflags, Hcontent.
  assert (buffer_rows (ParallelGHistBuilder.hist_buffer_ b2) total) as Hrows.
  { destruct Hrows1 as [Hr Ha]. split; congruence. }
  assert (total ≤ length (HistCollection.data_ (ParallelGHistBuilder.hist_buffer_ b2)))%nat
    as Hlenb by (rewrite S9; exact Hlen1).
  intros Hnid Hbe Htids. revert m upd h.
  induction Htids as [|tid tids Htid _ IH]; intros m upd h Hbuf Hrow Hlenh.
  { exists m. simpl. rewrite orb_false_r. split; [done|]. split; [done|].
    by rewrite list_insert_id. }
  cbn [foldl existsb]. unfold reduce_row_range. cbn [foldl].
  fold (reduce_row_range b2 acc nid begin end_).
  unfold ParallelGHistBuilder.reduce_thread at 2. cbn [mbind option_bind fst snd].
  destruct (ParallelGHistBuilder.was_used b2 tid nid) eqn:Hused.
  2:{ destruct (IH m upd h Hbuf Hrow Hlenh) as (m' & Hfold & Hb' & Hc').
      exists m'. by rewrite Hfold. }
  assert (ParallelGHistBuilder.touches b1 tid nid = true) as Htouch.
  { apply Hused_touch; [done..|]. by apply Hflags. }
  destruct (assigned_touches b1 total Hinv Hassigned tid nid Htid Hnid Htouch)
    as (idx & Hidx & Hrange).
  assert (ParallelGHistBuilder.tid_nid_to_hist_ b2 !! (tid, nid) = Some idx) as Hidx2
    by (rewrite S4; exact Hidx).
  rewrite Hidx2. cbn [mbind option_bind].
  unfold ParallelGHistBuilder.hist_of.
  destruct Hrange as [->|Hrange].
  - rewrite !decide_True by done. rewrite S3, Hths.
    rewrite caller_targets_lookup by done. cbn [mbind option_bind].
    unfold same_data. rewrite bool_decide_true by done.
    destruct (IH m true h Hbuf Hrow Hlenh) as (m' & Hfold & Hb' & Hc').
    exists m'. rewrite Hfold. rewrite orb_true_r. done.
  - rewrite !decide_False by lia.
    replace (HistCollection.get (ParallelGHistBuilder.hist_buffer_ b2) (u32 idx))
      with (HistCollection.get
              (HistCollection.set_data (ParallelGHistBuilder.hist_buffer_ b2)
                 (HistCollection.data_ (ParallelGHistBuilder.hist_buffer_ b2))) (u32 idx))
      by (by rewrite set_data_id).
    rewrite (get_buffer_row _ total nbins idx Hrows Hrange Htot32 S7) by done.
    cbn [mbind option_bind].
    unfold same_data. rewrite bool_decide_false by (simpl; intros [? _]; done).
    assert (m_buffer m !! Z.to_nat idx = Some (acc tid nid)) as Hsrc.
    { rewrite Hbuf. specialize (Hcontent tid nid idx Htid Hnid Hused Hidx).
      unfold hist_array in Hcontent. rewrite decide_False in Hcontent by lia.
      exact Hcontent. }
    rewrite (IncrementHist_range m (CallerRow nid) (BufferRow (Z.to_nat idx))
               h (acc tid nid) nbins) by done.
    cbn [mbind option_bind].
    set (h' := range_row begin end_ (zip_with gp_add h (acc tid nid)) h).
    destruct (IH (mem_set_array m (CallerRow nid) h') true h')
      as (m' & Hfold & Hb' & Hc').
    + done.
    + simpl. apply list_lookup_insert_eq. by eapply lookup_lt_Some.
    + unfold h'. by rewrite length_range_row.
    + exists m'. rewrite Hfold. rewrite orb_true_r. split; [done|]. split; [done|].
      rewrite Hc'. simpl. by rewrite list_insert_insert_eq.
Qed.

(** A bin of the reduced row depends on this bin of the target only. *)
Lemma reduce_row_lookup_ext (nid : nat) (tids : list nat) (h h' : list GP) (i : nat) :
  h !! i = h' !! i →
  reduce_row b2 acc nid h tids !! i = reduce_row b2 acc nid h' tids !! i.
Proof using Type.
  clear. revert h h'. induction tids as [|tid tids IH]; intros h h' Heq; [done|].
  unfold reduce_row. cbn [foldl]. apply IH.
  destruct (ParallelGHistBuilder.was_used b2 tid nid); [|done].
  destruct (_ !! (tid, nid)) as [idx|]; [|done]. case_decide; [done|].
  by rewrite !lookup_zip_with, Heq.
Qed.

Lemma target_row_lookup_ext (nid : nat) (h h' : list GP) (i : nat) :
  h !! i = h' !! i →
  target_row b2 acc nbins nid h !! i = target_row b2 acc nbins nid h' !! i.
Proof using Type.
  clear. intros Heq. unfold target_row. destruct (existsb _ _); [|done].
  by apply reduce_row_lookup_ext.
Qed.

Lemma reduce_row_cons (nid tid : nat) (tids : list nat) (h : list GP) :
  reduce_row b2 acc nid h (tid :: tids) =
  reduce_row b2 acc nid
    (if ParallelGHistBuilder.was_used b2 tid nid then
       match ParallelGHistBuilder.tid_nid_to_hist_ b2 !! (tid, nid) with
       | Some idx => if decide (idx = -1) then h else zip_with gp_add h (acc tid nid)
       | None => h
       end
     else h) tids.
Proof using Type. reflexivity. Qed.

Lemma reduce_row_range_cons (nid begin end_ tid : nat) (tids : list nat) (h : list GP) :
  reduce_row_range b2 acc nid begin end_ h (tid :: tids) =
  reduce_row_range b2 acc nid begin end_
    (if ParallelGHistBuilder.was_used b2 tid nid then
       match ParallelGHistBuilder.tid_nid_to_hist_ b2 !! (tid, nid) with
       | Some idx => if decide (idx = -1) then h
                     else range_row begin end_ (zip_with gp_add h (acc tid nid)) h
       | None => h
       end
     else h) tids.
Proof using Type. reflexivity. Qed.

Lemma reduce_row_range_row (nid begin end_ : nat) (tids : list nat) (h : list GP) :
  length h = nbins →
  reduce_row_range b2 acc nid begin end_ h tids
  = range_row begin end_ (reduce_row b2 acc nid h tids) h.
Proof using b1 Hacc_len.
  clear Hinv Hassigned Hths Hrows1 Hlen1 Htot32 Hpass Hused_touch.
  revert h. induction tids as [|tid tids IH]; intros h Hh.
  { apply list_eq. intros i. simpl. rewrite lookup_range_row by done.
    by case_decide. }
  rewrite reduce_row_range_cons, reduce_row_cons.
  destruct (ParallelGHistBuilder.was_used b2 tid nid); [|by apply IH].
  destruct (_ !! (tid, nid)) as [idx|]; [|by apply IH].
  case_decide; [by apply IH|].
  set (z := zip_with gp_add h (acc tid nid)).
  assert (length z = nbins) as Hz.
  { unfold z. rewrite length_zip_with, Hh, Hacc_len. lia. }
  rewrite IH by (by rewrite length_range_row).
  pose proof (length_reduce_row b1 nbins acc b2 Hacc_len nid) as Hlenr.
  apply list_eq. intros i.
  rewrite (lookup_range_row begin end_ (reduce_row b2 acc nid z tids) h)
    by (rewrite Hlenr; done).
  rewrite (lookup_range_row begin end_ _ (range_row begin end_ z h))
    by (rewrite Hlenr, ?length_range_row; by rewrite ?length_range_row).
  rewrite (lookup_range_row begin end_ z h) by lia.
  destruct (decide (begin ≤ i < end_)%nat) as [Hi|Hi]; [|done].
  apply reduce_row_lookup_ext. rewrite lookup_range_row by lia.
  by rewrite decide_True.
Qed.

Lemma ReduceHist_range_row c (nid begin end_ : nat) :
  (nid < ParallelGHistBuilder.nodes_ b1)%nat → (begin < end_ ≤ nbins)%nat →
  length c = ParallelGHistBuilder.nodes_ b1 → Forall (λ row, length row = nbins) c →
  ParallelGHistBuilder.ReduceHist b2 c nid begin end_
  = Some (b2, <[nid := range_row begin end_
                         (target_row b2 acc nbins nid (c !!! nid)) (c !!! nid)]> c).
Proof.
  intros Hnid Hbe Hc Hrowsc.
  pose proof Hpass as (Hstruct & _ & _).
  pose proof Hstruct as
    (S1 & S2 & S3 & S4 & S5 & S6 & S7 & S8 & S9 & S10 & S11 & S12 & S13).
  simpl in S1, S2, S3.
  destruct (c !! nid) as [h|] eqn:Hh; [|apply lookup_ge_None in Hh; lia].
  assert (length h = nbins) as Hlenh.
  { rewrite Forall_lookup in Hrowsc. by apply (Hrowsc nid). }
  rewrite (list_lookup_total_correct _ _ _ Hh).
  unfold ParallelGHistBuilder.ReduceHist.
  rewrite S1, S2, S3, Hths. rewrite decide_True by (split; [lia|done]).
  rewrite caller_targets_lookup by done. cbn [mbind option_bind].
  destruct (reduce_thread_fold_range nid begin end_
              (seq 0 (ParallelGHistBuilder.nthreads_ b1))
              (ParallelGHistBuilder.mem_of b2 c) false h)
    as (m' & Hfold & Hbuf & Hcal); [done|lia| |done|done|done|].
  { apply Forall_forall. intros tid Htid%elem_of_seq. lia. }
  rewrite Hfold. cbn [mbind option_bind fst snd orb].
  unfold target_row. rewrite S1.
  rewrite reduce_row_range_row in Hcal by done.
  destruct (existsb _ (seq 0 (ParallelGHistBuilder.nthreads_ b1))).
  - cbn [mbind option_bind]. rewrite with_mem_same_buffer by done.
    by rewrite Hcal.
  - rewrite (InitilizeHistByZeroes_range m' (CallerRow nid)
               (range_row begin end_
                  (reduce_row b2 acc nid h (seq 0 (ParallelGHistBuilder.nthreads_ b1))) h)
               nbins begin end_).
    + cbn [mbind option_bind]. rewrite with_mem_same_buffer by done.
      simpl. rewrite Hcal. simpl. rewrite list_insert_insert_eq. do 3 f_equal.
      pose proof (length_reduce_row b1 nbins acc b2 Hacc_len nid) as Hlenr.
      apply list_eq. intros i.
      rewrite (lookup_range_row begin end_ (replicate nbins gp_zero) h)
        by (by rewrite length_replicate).
      rewrite (lookup_range_row begin end_ (replicate nbins gp_zero))
        by (by rewrite length_replicate, length_range_row).
      rewrite (lookup_range_row begin end_ _ h) by (rewrite Hlenr; done).
      by destruct (decide (begin ≤ i < end_)%nat).
    + simpl. rewrite Hcal. apply list_lookup_insert_eq. by eapply lookup_lt_Some.
    + by rewrite length_range_row.
    + lia.
Qed.

End RangeFacts.

Section RangeReduce.
Context {GP : Type} `{GradientPairOps GP}.

(** X24.  [ReduceHist] on a range of bins does, on the range, what it
    does on all the bins, and touches nothing else: after the
    accumulation, [ReduceHist(nid, begin, end_)] leaves the builder as it
    is, changes the target row of [nid] only, and this row gets the bins
    [begin, end_) of the row that [ReduceHist(nid, 0, nbins)] gives and
    keeps its other bins. *)
Theorem ReduceHist_range_bins (gpair : nat → GP) (gmat : nat → list nat)
    (b : ParallelGHistBuilder.t GP) (caller : list (list GP)) (T N nbins : nat)
    (space : list Block) (items : list (nat * Block)) (nid begin end_ : nat) :
  T ≠ 0%nat → Z.of_nat nbins ≤ u32_max → Z.of_nat (T * N) ≤ u32_max →
  builder_ready nbins b →
  length caller = N → Forall (λ row, length row = nbins) caller →
  Forall (λ blk, (block_nid blk < N)%nat) space →
  items_ok gmat space nbins T N items →
  (nid < N)%nat → (begin < end_ ≤ nbins)%nat →
  ∃ b1 b2 c2 full,
    ParallelGHistBuilder.Reset b T N space (caller_targets N nbins) = Some b1 ∧
    build_blocks gpair gmat (b1, caller) items = Some (b2, c2) ∧
    ParallelGHistBuilder.ReduceHist b2 c2 nid 0 nbins = Some (b2, <[nid := full]> c2) ∧
    ParallelGHistBuilder.ReduceHist b2 c2 nid begin end_
      = Some (b2, <[nid := range_row begin end_ full (c2 !!! nid)]> c2).
Proof.
  intros HT Hnb32 Hbound Hready Hclen Hcrows Hnids Hok Hnid Hbe.
  destruct (Reset_reset_state b T N nbins space HT Hnb32 Hbound Hready)
    as (b1 & HReset & Hreset).
  destruct (build_blocks_items gpair gmat b1 nbins T N space caller items HT Hnids
              Hreset Hclen Hcrows Hok) as ([b2 c2] & Hbuild & Hpass).
  assert (∀ t n, (t < ParallelGHistBuilder.nthreads_ b1)%nat →
            (n < ParallelGHistBuilder.nodes_ b1)%nat → item_used items t n →
            ParallelGHistBuilder.touches b1 t n = true) as Hused.
  { intros t n _ _ Hu.
    by destruct (item_used_touches gmat b1 nbins T N space items t n HT Hnids Hreset
                   Hok Hu) as (_ & _ & ?). }
  pose proof Hpass as (Hstruct & _).
  destruct Hstruct as (_ & _ & _ & _ & _ & _ & _ & _ & _ & _ & Hc2len & Hc2rows & _).
  simpl in Hc2len, Hc2rows.
  destruct Hreset as (B2 & B3 & B1 & B6 & B5 & Hths & Hinv & Hassigned & B7 & B11 & Htot
                      & B8 & B9 & B10).
  exists b1, b2, c2, (target_row b2 (acc_items gpair gmat nbins items) nbins nid
                        (c2 !!! nid)).
  split; [done|]. split; [done|]. split.
  - apply (ReduceHist_row b1 _ nbins Hinv Hassigned Hths B7 B11 Htot
             (item_used items) (acc_items gpair gmat nbins items) b2 c2 Hpass Hused
             (length_acc_items gpair gmat nbins items));
      [by rewrite B3 | lia | done | done].
  - apply (ReduceHist_range_row b1 _ nbins Hinv Hassigned Hths B7 B11 Htot
             (item_used items) (acc_items gpair gmat nbins items) b2 c2 Hpass Hused
             (length_acc_items gpair gmat nbins items));
      [by rewrite B3 | done | done | done].
Qed.

(** X25.  Ranges of bins compose: after the accumulation, reducing the
    bins [begin, mid) of a node and then its bins [mid, end_) gives what
    reducing its bins [begin, end_) at once gives. *)
Theorem ReduceHist_ranges_compose (gpair : nat → GP) (gmat : nat → list nat)
    (b : ParallelGHistBuilder.t GP) (caller : list (list GP)) (T N nbins : nat)
    (space : list Block) (items : list (nat * Block)) (nid begin mid end_ : nat) :
  T ≠ 0%nat → Z.of_nat nbins ≤ u32_max → Z.of_nat (T * N) ≤ u32_max →
  builder_ready nbins b →
  length caller = N → Forall (λ row, length row = nbins) caller →
  Forall (λ blk, (block_nid blk < N)%nat) space →
  items_ok gmat space nbins T N items →
  (nid < N)%nat → (begin < mid)%nat → (mid < end_ ≤ nbins)%nat →
  ∃ b1 b2 c2 c',
    ParallelGHistBuilder.Reset b T N space (caller_targets N nbins) = Some b1 ∧
    build_blocks gpair gmat (b1, caller) items = Some (b2, c2) ∧
    ParallelGHistBuilder.ReduceHist b2 c2 nid begin end_ = Some (b2, c') ∧
    (st ← ParallelGHistBuilder.ReduceHist b2 c2 nid begin mid;
     ParallelGHistBuilder.ReduceHist st.1 st.2 nid mid end_) = Some (b2, c').
Proof.
  intros HT Hnb32 Hbound Hready Hclen Hcrows Hnids Hok Hnid Hbm Hme.
  destruct (Reset_reset_state b T N nbins space HT Hnb32 Hbound Hready)
    as (b1 & HReset & Hreset).
  destruct (build_blocks_items gpair gmat b1 nbins T N space caller items HT Hnids
              Hreset Hclen Hcrows Hok) as ([b2 c2] & Hbuild & Hpass).
  assert (∀ t n, (t < ParallelGHistBuilder.nthreads_ b1)%nat →
            (n < ParallelGHistBuilder.nodes_ b1)%nat → item_used items t n →
            ParallelGHistBuilder.touches b1 t n = true) as Hused.
  { intros t n _ _ Hu.
    by destruct (item_used_touches gmat b1 nbins T N space items t n HT Hnids Hreset
                   Hok Hu) as (_ & _ & ?). }
  pose proof Hpass as (Hstruct & _).
  destruct Hstruct as (_ & _ & _ & _ & _ & _ & _ & _ & _ & _ & Hc2len & Hc2rows & _).
  simpl in Hc2len, Hc2rows.
  destruct Hreset as (B2 & B3 & B1 & B6 & B5 & Hths & Hinv & Hassigned & B7 & B11 & Htot
                      & B8 & B9 & B10).
  set (acc := acc_items gpair gmat nbins items).
  pose proof (ReduceHist_range_row b1 _ nbins Hinv Hassigned Hths B7 B11 Htot
                (item_used items) acc b2 c2 Hpass Hused
                (length_acc_items gpair gmat nbins items)) as Hrange.
  set (h := c2 !!! nid) in *.
  assert (length h = nbins) as Hh.
  { apply (Forall_lookup_1 _ _ nid _ Hc2rows).
    apply list_lookup_lookup_total_lt. lia. }
  pose proof (length_target_row b1 nbins acc b2 (length_acc_items gpair gmat nbins items)
                nid) as Hlent.
  exists b1, b2, c2. eexists. split; [done|]. split; [done|].
  split; [apply Hrange; [by rewrite B3 | lia | done | done]|].
  fold h.
  assert (nid < ParallelGHistBuilder.nodes_ b1)%nat as Hnid' by (by rewrite B3).
  rewrite (Hrange c2 nid begin mid Hnid' ltac:(lia) Hc2len Hc2rows).
  cbn [mbind option_bind fst snd]. fold h.
  set (r1 := range_row begin mid (target_row b2 acc nbins nid h) h).
  rewrite (Hrange (<[nid := r1]> c2) nid mid end_ Hnid' ltac:(lia)).
  2:{ by rewrite length_insert. }
  2:{ apply Forall_insert; [done|]. unfold r1. by rewrite length_range_row. }
  rewrite list_lookup_total_insert_eq by lia.
  rewrite list_insert_insert_eq. do 3 f_equal.
  apply list_eq. intros i.
  rewrite (lookup_range_row mid end_ _ r1)
    by (rewrite Hlent; unfold r1; by rewrite length_range_row).
  rewrite (lookup_range_row begin end_ _ h) by (by rewrite Hlent).
  unfold r1 at 2. rewrite (lookup_range_row begin mid _ h) by (by rewrite Hlent).
  destruct (decide (mid ≤ i < end_)%nat) as [Hi|Hi].
  - rewrite decide_True by lia.
    apply target_row_lookup_ext. unfold r1.
    rewrite lookup_range_row by (by rewrite Hlent). by rewrite decide_False by lia.
  - destruct (decide (begin ≤ i < mid)%nat) as [Hi'|Hi'].
    + by rewrite decide_True by lia.
    + by rewrite decide_False by lia.
Qed.

End RangeReduce.

Lemma ReduceHist_range_bins_witness :
  ∃ b1 b2 c2 full,
    ParallelGHistBuilder.Reset builder4 2 2 space_node1 (caller_targets 2 4) = Some b1 ∧
    build_blocks gpair_count gmat_mod4 (b1, caller_stale) items_first = Some (b2, c2) ∧
    ParallelGHistBuilder.ReduceHist b2 c2 1 0 4 = Some (b2, <[1%nat := full]> c2) ∧
    ParallelGHistBuilder.ReduceHist b2 c2 1 1 3
      = Some (b2, <[1%nat := range_row 1 3 full (c2 !!! 1%nat)]> c2).
Proof.
  apply (ReduceHist_range_bins gpair_count gmat_mod4 builder4 caller_stale 2 2 4
           space_node1 items_first 1 1 3);
    [lia | by vm_compute | by vm_compute | exact builder4_ready | reflexivity
    | exact caller_stale_rows | exact space_node1_nids | exact items_first_ok
    | lia | lia].
Defined.

Lemma ReduceHist_ranges_compose_witness :
  ∃ b1 b2 c2 c',
    ParallelGHistBuilder.Reset builder4 2 2 space_node1 (caller_targets 2 4) = Some b1 ∧
    build_blocks gpair_count gmat_mod4 (b1, caller_stale) items_first = Some (b2, c2) ∧
    ParallelGHistBuilder.ReduceHist b2 c2 1 0 4 = Some (b2, c') ∧
    (st ← ParallelGHistBuilder.ReduceHist b2 c2 1 0 2;
     ParallelGHistBuilder.ReduceHist st.1 st.2 1 2 4) = Some (b2, c').
Proof.
  apply (ReduceHist_ranges_compose gpair_count gmat_mod4 builder4 caller_stale 2 2 4
           space_node1 items_first 1 0 2 4);
    [lia | by vm_compute | by vm_compute | exact builder4_ready | reflexivity
    | exact caller_stale_rows | exact space_node1_nids | exact items_first_ok
    | lia | lia | lia].
Defined.

(** ** The result of a pass for any gradient type *)

Lemma foldl_filter {A B} (P : B → bool) (g : A → B → A) (l : list B) (x : A) :
  foldl (λ a b, if P b then g a b else a) x l = foldl g x (filter (λ b, P b) l).
Proof.
  revert x. induction l as [|b l IH]; intros x; [done|]. simpl.
  destruct (P b) eqn:HP.
  - rewrite filter_cons_True by (by rewrite HP). simpl. apply IH.
  - rewrite filter_cons_False by (rewrite HP; by intros []). apply IH.
Qed.

Lemma thread_works_item_used (space : list Block) (T tid nid : nat) :
  T ≠ 0%nat → (tid < T)%nat →
  thread_works space T tid nid = true ↔ item_used (work_items space T) tid nid.
Proof.
  intros HT Htid. unfold thread_works. rewrite existsb_exists. split.
  - intros (blk & Hin%list_elem_of_In & Hn%bool_decide_eq_true).
    exists (tid, blk). split; [|done]. by apply elem_of_work_items.
  - intros ([t blk] & Hin & Ht & Hn). simpl in Ht, Hn. subst t.
    apply (elem_of_work_items space T HT) in Hin as [_ Hin].
    exists blk. split; [by apply list_elem_of_In|]. by apply bool_decide_eq_true.
Qed.

Lemma node_rows_no_block (space : list Block) (nid : nat) :
  (∀ blk, blk ∈ space → block_nid blk ≠ nid) → node_rows space nid = [].
Proof.
  unfold node_rows. induction space as [|blk space IH]; intros Hno; [done|].
  rewrite bind_cons. rewrite decide_False by (apply Hno; by left).
  simpl. apply IH. intros blk' Hin. apply Hno. by right.
Qed.

Section ThreadSums.
Context {GP : Type} `{GradientPairOps GP}.
Variable gpair : nat → GP.
Variable gmat : nat → list nat.
Variable space : list Block.
Variables T N nbins : nat.
Hypothesis HT : T ≠ 0%nat.
Hypothesis Hnids : Forall (λ blk, (block_nid blk < N)%nat) space.
Hypothesis Hsorted : space_sorted space.
Hypothesis Hbins :
  Forall (λ blk, Forall (λ r, Forall (λ bin, bin < nbins)%nat (gmat r)) (block_rows blk))
    space.
Variable b1 : ParallelGHistBuilder.t GP.
Hypothesis Hreset : reset_state b1 nbins T N space.
Variable b2 : ParallelGHistBuilder.t GP.
Variable c2 : list (list GP).
Hypothesis Hpass :
  pass_inv b1 nbins (item_used (work_items space T))
    (acc_items gpair gmat nbins (work_items space T)) (b2, c2).

Lemma acc_items_thread_hist (t n : nat) :
  (t < T)%nat →
  acc_items gpair gmat nbins (work_items space T) t n
  = thread_hist gpair gmat space T nbins t n.
Proof using HT.
  clear Hpass Hreset Hnids Hsorted Hbins.
  intros Ht. unfold acc_items, thread_hist.
  by rewrite (item_rows_work_items space T HT) by done.
Qed.

Lemma target_row_thread_sums (nid : nat) :
  (nid < N)%nat →
  target_row b2 (acc_items gpair gmat nbins (work_items space T)) nbins nid (c2 !!! nid)
  = thread_sums gpair gmat space T nbins nid.
Proof.
  intros Hnid.
  pose proof (work_items_items_ok gmat space nbins T N HT Hnids Hsorted Hbins) as Hok.
  pose proof (λ t n, item_used_touches gmat b1 nbins T N space _ t n HT Hnids Hreset Hok)
    as Hut.
  destruct Hreset as (B2 & B3 & B1 & B6 & B5 & Hths & Hinv & Hassigned & B7 & B11 & Htot
                      & B8 & B9 & B10).
  destruct Hpass as (Hstruct & Hflags & Hcontent).
  pose proof Hstruct as (S1 & _ & _ & S4 & _).
  simpl in S1, S4, Hflags, Hcontent. rewrite B2 in S1, Hflags, Hcontent.
  rewrite B3 in Hflags, Hcontent.
  assert (∀ t, (t < T)%nat →
            ParallelGHistBuilder.was_used b2 t nid = thread_works space T t nid) as Hw.
  { intros t Ht. apply eq_true_iff_eq.
    rewrite (Hflags t nid Ht Hnid). symmetry. by apply thread_works_item_used. }
  unfold target_row, thread_sums. rewrite S1.
  assert (existsb (λ tid, ParallelGHistBuilder.was_used b2 tid nid) (seq 0 T)
          = bool_decide (filter (λ tid, thread_works space T tid nid) (seq 0 T) ≠ []))
    as ->.
  { apply eq_true_iff_eq. rewrite existsb_exists, bool_decide_eq_true. split.
    - intros (t & Ht%list_elem_of_In & Hu) Hnil.
      pose proof Ht as Ht'%elem_of_seq. rewrite Hw in Hu by lia.
      assert (t ∈ filter (λ tid, thread_works space T tid nid) (seq 0 T)) as Hin
        by (apply list_elem_of_filter; split; [by rewrite Hu|done]).
      rewrite Hnil in Hin. inversion Hin.
    - intros Hne. destruct (filter _ (seq 0 T)) as [|t l] eqn:Hf; [done|].
      assert (t ∈ filter (λ tid, thread_works space T tid nid) (seq 0 T)) as Hin
        by (rewrite Hf; by left).
      apply list_elem_of_filter in Hin as [Hu Ht].
      exists t. split; [by apply list_elem_of_In|].
      apply elem_of_seq in Ht. rewrite Hw by lia. by destruct (thread_works _ _ _ _). }
  destruct (filter (λ tid, thread_works space T tid nid) (seq 0 T)) as [|u0 rest]
    eqn:Hfilter; [done|].
  rewrite bool_decide_true by done.
  destruct (filter_seq_head _ _ _ _ _ Hfilter) as (Hu0 & Hu0T & Hu0first).
  simpl in Hu0T.
  (* the first thread that works is the first thread matched to the node *)
  assert (item_used (work_items space T) u0 nid) as Hused0
    by (by apply thread_works_item_used; [done|lia|]).
  destruct (Hut u0 nid Hused0) as (_ & _ & Htouch0).
  assert (u0 ∈ touching b1 nid) as Hin.
  { apply elem_of_touching. rewrite B2. split; [lia|done]. }
  destruct (touching b1 nid) as [|t0 trest] eqn:Hts; [inversion Hin|].
  destruct (filter_seq_head _ _ _ _ _ Hts) as (Htouch & Ht0 & Hbefore).
  rewrite B2 in Ht0. simpl in Ht0.
  assert (t0 = u0) as ->.
  { assert (item_used (work_items space T) t0 nid) as Hused.
    { apply (chunk_touches_used space T HT Hsorted); [lia| |].
      - apply (touches_chunk_touches space T N HT Hnids b1); try done. lia.
      - destruct Hused0 as ([t blk] & Hitem & _ & Hblk). simpl in Hblk.
        apply (elem_of_work_items space T HT) in Hitem as [_ Hitem].
        exists blk. split; [by eapply thread_block_in_space|done]. }
    apply (thread_works_item_used space T t0 nid HT ltac:(lia)) in Hused.
    destruct (decide (t0 < u0)%nat) as [Hlt|];
      [rewrite Hu0first in Hused by lia; done|].
    destruct (decide (u0 < t0)%nat) as [Hlt|]; [|lia].
    rewrite Hbefore in Htouch0 by lia. done. }
  assert (ParallelGHistBuilder.tid_nid_to_hist_ b1 !! (u0, nid) = Some (-1)) as Hidx0.
  { apply (first_is_sentinel b1 Hassigned u0 nid trest); [by rewrite B3|done]. }
  assert (c2 !!! nid = thread_hist gpair gmat space T nbins u0 nid) as ->.
  { rewrite <- acc_items_thread_hist by lia.
    apply list_lookup_total_correct.
    specialize (Hcontent u0 nid (-1) ltac:(lia) Hnid).
    unfold hist_array in Hcontent. rewrite decide_True in Hcontent by done.
    apply Hcontent; [|done]. apply Hflags; [lia|done..]. }
  (* the loop of the reduction, thread by thread *)
  unfold reduce_row.
  rewrite (foldl_ext_in _
             (λ h t, if thread_works space T t nid
                     then (if decide (t = u0) then h
                           else zip_with gp_add h (thread_hist gpair gmat space T nbins t nid))
                     else h)).
  2:{ intros h t Ht%elem_of_seq. rewrite Hw by lia.
      destruct (thread_works space T t nid) eqn:Hwt; [|done].
      apply (thread_works_item_used space T t nid HT ltac:(lia)) in Hwt.
      destruct (Hut t nid Hwt) as (_ & _ & Htt).
      destruct (assigned_touches b1 _ Hinv Hassigned t nid) as (idx & Hidx & Hrange);
        [rewrite B2; lia | by rewrite B3 | done |].
      rewrite S4, Hidx. rewrite acc_items_thread_hist by lia.
      destruct (decide (t = u0)) as [->|Hne].
      - rewrite Hidx0 in Hidx. injection Hidx as <-. by rewrite decide_True.
      - rewrite decide_False; [done|].
        intros ->. destruct (sentinel_is_first b1 Hassigned t nid) as [rest' Hts'];
          [by rewrite B3|done|]. congruence. }
  rewrite (foldl_filter (λ t, thread_works space T t nid)
             (λ h t, if decide (t = u0) then h
                     else zip_with gp_add h (thread_hist gpair gmat space T nbins t nid))).
  rewrite Hfilter. cbn [foldl]. rewrite decide_True by done.
  apply foldl_ext_in. intros h t Ht.
  rewrite decide_False; [done|]. intros ->.
  assert (NoDup (u0 :: rest)) as Hdup
    by (rewrite <- Hfilter; apply NoDup_filter, NoDup_seq).
  apply NoDup_cons in Hdup as [Hnot _]. done.
Qed.

End ThreadSums.

Section PassResult.
Context {GP : Type} `{GradientPairOps GP}.

Lemma parallel_build_rows (gpair : nat → GP) (gmat : nat → list nat)
    (b : ParallelGHistBuilder.t GP) (caller : list (list GP))
    (T N nbins : nat) (space : list Block) :
  T ≠ 0%nat → (0 < nbins)%nat →
  Z.of_nat nbins ≤ u32_max → Z.of_nat (T * N) ≤ u32_max →
  builder_ready nbins b →
  length caller = N → Forall (λ row, length row = nbins) caller →
  Forall (λ blk, (block_nid blk < N)%nat) space →
  space_sorted space →
  Forall (λ blk, Forall (λ r, Forall (λ bin, bin < nbins)%nat (gmat r)) (block_rows blk))
    space →
  ∃ b' caller',
    parallel_build gpair gmat b caller T N space (caller_targets N nbins) nbins
      = Some (b', caller') ∧
    length caller' = N ∧
    ∀ nid, (nid < N)%nat →
      caller' !! nid = Some (thread_sums gpair gmat space T nbins nid).
Proof.
  intros HT Hnb Hnb32 Hbound Hready Hclen Hcrows Hnids Hsorted Hbins.
  pose proof (work_items_items_ok gmat space nbins T N HT Hnids Hsorted Hbins) as Hok.
  destruct (Reset_reset_state b T N nbins space HT Hnb32 Hbound Hready)
    as (b1 & HReset & Hreset).
  destruct (build_blocks_items gpair gmat b1 nbins T N space caller _ HT Hnids
              Hreset Hclen Hcrows Hok) as ([b2 c2] & Hbuild & Hpass).
  assert (∀ t n, (t < ParallelGHistBuilder.nthreads_ b1)%nat →
            (n < ParallelGHistBuilder.nodes_ b1)%nat →
            item_used (work_items space T) t n →
            ParallelGHistBuilder.touches b1 t n = true) as Hused.
  { intros t n _ _ Hu.
    by destruct (item_used_touches gmat b1 nbins T N space _ t n HT Hnids Hreset
                   Hok Hu) as (_ & _ & ?). }
  pose proof (target_row_thread_sums gpair gmat space T N nbins HT Hnids Hsorted Hbins
                b1 Hreset b2 c2 Hpass) as Hrow.
  pose proof Hpass as (Hstruct & _).
  destruct Hstruct as (_ & _ & _ & _ & _ & _ & _ & _ & _ & _ & Hc2len & Hc2rows & _).
  simpl in Hc2len, Hc2rows.
  destruct Hreset as (B2 & B3 & B1 & B6 & B5 & Hths & Hinv & Hassigned & B7 & B11 & Htot
                      & B8 & B9 & B10).
  destruct (reduce_nodes_rows b1 _ nbins Hinv Hassigned Hths B7 B11 Htot
              (item_used (work_items space T))
              (acc_items gpair gmat nbins (work_items space T)) b2 c2 Hpass Hused
              (length_acc_items gpair gmat nbins _) (seq 0 N) c2)
    as (c' & Hred & Hlen & _ & Hc'); [apply NoDup_seq | | done..|].
  { apply Forall_forall. intros n Hn%elem_of_seq. rewrite B3. lia. }
  exists b2, c'. split.
  { unfold parallel_build. rewrite HReset. simpl. rewrite Hbuild. simpl. exact Hred. }
  split; [by rewrite Hlen|].
  intros nid Hnid. rewrite Hc'. rewrite decide_True by (apply elem_of_seq; lia).
  f_equal. by apply Hrow.
Qed.

Lemma thread_blocks_one_thread (space : list Block) : thread_blocks space 1 0 = space.
Proof.
  unfold thread_blocks, chunck_size.
  rewrite Nat.div_1_r, Nat.mod_1_r. rewrite decide_True by done.
  rewrite Nat.mul_0_r, Nat.add_0_r, Nat.add_0_l, Nat.min_id, Nat.sub_0_r.
  rewrite drop_0. apply take_ge. lia.
Qed.

Lemma thread_sums_one_thread (gpair : nat → GP) (gmat : nat → list nat)
    (space : list Block) (nbins nid : nat) :
  thread_sums gpair gmat space 1 nbins nid = serial_hist gpair gmat space nbins nid.
Proof.
  unfold thread_sums, serial_hist, thread_hist, thread_works.
  change (seq 0 1) with [0%nat].
  rewrite filter_cons, filter_nil, thread_blocks_one_thread.
  destruct (existsb (λ blk, bool_decide (block_nid blk = nid)) space) eqn:Hex.
  - rewrite decide_True by done. simpl. by rewrite thread_blocks_one_thread.
  - rewrite decide_False by (by intros []).
    rewrite node_rows_no_block; [done|].
    intros blk Hin Hn.
    assert (existsb (λ blk, bool_decide (block_nid blk = nid)) space = true);
      [|congruence].
    apply existsb_exists. exists blk. split; [by apply list_elem_of_In|].
    by apply bool_decide_eq_true.
Qed.

(** X26.  For any type of gradient sums (no law of arithmetic is used,
    so also for floating-point sums) a full pass leaves in the target of
    every node the histograms of the threads that have a block of the
    node, each the sum of the thread's rows in order, added up in the
    order of the threads starting from the histogram of the first one,
    and zeros for a node without block.  The result depends on nothing
    else: not on what the targets and the scratch rows held before. *)
Theorem parallel_build_thread_sums (gpair : nat → GP) (gmat : nat → list nat)
    (b : ParallelGHistBuilder.t GP) (caller : list (list GP))
    (T N nbins : nat) (space : list Block) :
  T ≠ 0%nat → (0 < nbins)%nat →
  Z.of_nat nbins ≤ u32_max → Z.of_nat (T * N) ≤ u32_max →
  builder_ready nbins b →
  length caller = N → Forall (λ row, length row = nbins) caller →
  Forall (λ blk, (block_nid blk < N)%nat) space →
  space_sorted space →
  Forall (λ blk, Forall (λ r, Forall (λ bin, bin < nbins)%nat (gmat r)) (block_rows blk))
    space →
  ∃ b' caller',
    parallel_build gpair gmat b caller T N space (caller_targets N nbins) nbins
      = Some (b', caller') ∧
    length caller' = N ∧
    ∀ nid, (nid < N)%nat →
      caller' !! nid = Some (thread_sums gpair gmat space T nbins nid).
Proof. apply parallel_build_rows. Qed.

(** X27.  With a single thread the result of a pass is the serial sum
    for any type of gradient sums, floating-point sums included: the
    thread accumulates every node directly in its target and the
    reduction adds nothing. *)
Theorem parallel_build_one_thread (gpair : nat → GP) (gmat : nat → list nat)
    (b : ParallelGHistBuilder.t GP) (caller : list (list GP))
    (N nbins : nat) (space : list Block) :
  (0 < nbins)%nat →
  Z.of_nat nbins ≤ u32_max → Z.of_nat N ≤ u32_max →
  builder_ready nbins b →
  length caller = N → Forall (λ row, length row = nbins) caller →
  Forall (λ blk, (block_nid blk < N)%nat) space →
  space_sorted space →
  Forall (λ blk, Forall (λ r, Forall (λ bin, bin < nbins)%nat (gmat r)) (block_rows blk))
    space →
  ∃ b' caller',
    parallel_build gpair gmat b caller 1 N space (caller_targets N nbins) nbins
      = Some (b', caller') ∧
    ∀ nid, (nid < N)%nat →
      caller' !! nid = Some (serial_hist gpair gmat space nbins nid).
Proof.
  intros Hnb Hnb32 Hbound Hready Hclen Hcrows Hnids Hsorted Hbins.
  destruct (parallel_build_rows gpair gmat b caller 1 N nbins space)
    as (b' & c' & Hpar & _ & Hrows); try done; [lia|].
  exists b', c'. split; [done|]. intros nid Hnid.
  rewrite Hrows by done. by rewrite thread_sums_one_thread.
Qed.

End PassResult.

Lemma space_blocks4_sorted : space_sorted space_blocks4.
Proof.
  intros i j Hij Hj. simpl in Hj.
  destruct j as [|[|[|[|j]]]]; [| | | |lia];
    destruct i as [|[|[|[|i]]]]; try lia; by vm_compute.
Qed.

Lemma builder1f_ready : builder_ready 1 builder1f.
Proof. repeat split; repeat constructor. Qed.

Lemma parallel_build_thread_sums_witness :
  ∃ b' caller',
    parallel_build gpair_big_small gmat_bin0 builder1f caller1f 2 1 space_blocks4
      (caller_targets 1 1) 1 = Some (b', caller') ∧
    length caller' = 1%nat ∧
    ∀ nid, (nid < 1)%nat →
      caller' !! nid = Some (thread_sums gpair_big_small gmat_bin0 space_blocks4 2 1 nid).
Proof.
  apply (parallel_build_thread_sums gpair_big_small gmat_bin0 builder1f caller1f 2 1 1
           space_blocks4);
    [lia | lia | by vm_compute | by vm_compute | exact builder1f_ready | reflexivity
    | repeat constructor | repeat constructor | exact space_blocks4_sorted
    | repeat constructor].
Defined.

Lemma parallel_build_one_thread_witness :
  ∃ b' caller',
    parallel_build gpair_big_small gmat_bin0 builder1f caller1f 1 1 space_blocks4
      (caller_targets 1 1) 1 = Some (b', caller') ∧
    ∀ nid, (nid < 1)%nat →
      caller' !! nid = Some (serial_hist gpair_big_small gmat_bin0 space_blocks4 1 nid).
Proof.
  apply (parallel_build_one_thread gpair_big_small gmat_bin0 builder1f caller1f 1 1
           space_blocks4);
    [lia | by vm_compute | by vm_compute | exact builder1f_ready | reflexivity
    | repeat constructor | repeat constructor | exact space_blocks4_sorted
    | repeat constructor].
Defined.
